(** * TruthVisionAi frontend: submission controller and result interpretation

    A shallow embedding of the three React sources
    - [frontend/src/components/Result.jsx]  (module [ResultJsx]),
    - [frontend/src/components/Upload.jsx]  (module [UploadJsx]),
    - [frontend/src/App.jsx]                (module [AppJsx]),
    over a small model of the JavaScript values they manipulate (module [Js]).

    JavaScript numbers are IEEE 754 binary64 values: they are modelled by the
    kernel's primitive floats, so every arithmetic operation and comparison
    below rounds and compares exactly as the engine does.  Where a property
    speaks of the numbers these floats denote, module [Binary64] maps them
    to real numbers and [Binary64Facts] bounds the rounding errors from the
    specification of the primitive operations.

    A render can fail in two ways, and both are modelled: arithmetic on a
    response value throws a [TypeError] when the value is an object that
    does not convert to a primitive, and React throws when it is handed an
    object as a child.  Either removes the page, which then offers nothing.

    The definitions come first; the facts follow in [FloatOrder],
    [Binary64Facts], [ResultFacts] (Result.jsx) and [AppFacts] (App.jsx and
    Upload.jsx). *)

From Stdlib Require Import ZArith List String Bool Floats Lia Reals Lra.
Import ListNotations.

Set Warnings "-inexact-float,-register-all".

Local Open Scope string_scope.

(* ===================================================================== *)
(** * JavaScript values *)
(* ===================================================================== *)

Module Js.

(** The values a JSON response body (and hence [response.data]) can hold,
    together with [undefined], which property reads produce. *)
Inductive JsVal : Type :=
| JUndefined
| JNull
| JBool (b : bool)
| JNum (n : float)
| JStr (s : string)
| JArr (items : list JsVal)
| JObj (props : list (string * JsVal)).

(** Abrupt completions.  The modelled code can raise a [TypeError] by
    itself, from a property read on [undefined] or [null] and from the
    conversion of an object to a primitive; React raises a plain [Error]
    when it is handed an object as a child. *)
Inductive JsError : Type :=
| TypeError (what : string)
| Error (what : string).

Inductive Completion (A : Type) : Type :=
| Normal (a : A)
| Throw (e : JsError).

Arguments Normal {A} a.
Arguments Throw {A} e.

Definition bind {A B} (c : Completion A) (k : A -> Completion B) : Completion B :=
  match c with
  | Normal a => k a
  | Throw e => Throw e
  end.

Declare Scope js_scope.
Delimit Scope js_scope with js.
Notation "x <- c ;; k" := (bind c (fun x => k))
  (at level 61, c at next level, right associativity) : js_scope.

(** Own-property lookup in an object literal. *)
Fixpoint lookup (k : string) (props : list (string * JsVal)) : option JsVal :=
  match props with
  | [] => None
  | (k', v) :: rest => if String.eqb k k' then Some v else lookup k rest
  end.

(** [v.k]: throws on [undefined] and [null], reads an own property of an
    object, and is [undefined] otherwise.  The sources read only the names
    of the response contract, none of which is a property of a primitive,
    of an array or of [Object.prototype]. *)
Definition get (v : JsVal) (k : string) : Completion JsVal :=
  match v with
  | JUndefined | JNull =>
      Throw (TypeError ("Cannot read properties of undefined or null: " ++ k))
  | JObj props =>
      Normal (match lookup k props with Some x => x | None => JUndefined end)
  | _ => Normal JUndefined
  end.

(** [v == null], the test behind [??] and [?.]. *)
Definition nullish (v : JsVal) : bool :=
  match v with
  | JUndefined | JNull => true
  | _ => false
  end.

(** [v?.k] *)
Definition get_opt (v : JsVal) (k : string) : JsVal :=
  match get v k with
  | Normal x => x
  | Throw _ => JUndefined
  end.

(** [ToBoolean] *)
Definition ToBoolean (v : JsVal) : bool :=
  match v with
  | JUndefined | JNull => false
  | JBool b => b
  | JNum n => negb (PrimFloat.eqb n 0 || PrimFloat.is_nan n)
  | JStr s => negb (String.eqb s "")
  | JArr _ | JObj _ => true
  end.

(** [a || b] on values *)
Definition or_else (a b : JsVal) : JsVal := if ToBoolean a then a else b.

(** [v === s] for a string literal [s] *)
Definition strict_eq_str (v : JsVal) (s : string) : bool :=
  match v with
  | JStr s' => String.eqb s' s
  | _ => false
  end.

(** The engine's conversion of a string to a number ([StringToNumber] of
    ECMA-262) parses a numeric literal and rounds it; it is kept abstract. *)
Class Engine : Type := { StringToNumber : string -> float }.

(** [ToPrimitive] on the objects a JSON body holds.  Such an object has
    no callable property of its own, so an own property named
    "toString" (of any value) hides [Object.prototype.toString]:
    [OrdinaryToPrimitive] then finds no method that returns a primitive
    ([Object.prototype.valueOf] returns the object itself, an own
    "valueOf" is not callable either) and throws a [TypeError].  Without
    that property the object converts to the string "[object Object]".
    An array converts through [join], which converts each of its
    elements to a string, so it throws when one of them does. *)
Definition ownToString (props : list (string * JsVal)) : bool :=
  match lookup "toString" props with
  | Some _ => true
  | None => false
  end.

Fixpoint coercible (v : JsVal) : bool :=
  match v with
  | JObj props => negb (ownToString props)
  | JArr items => forallb coercible items
  | _ => true
  end.

(** What React accepts as a child: strings and numbers are rendered as
    text, booleans, [null] and [undefined] as nothing, an array as the
    sequence of its elements; a plain object is refused with the error
    "Objects are not valid as a React child". *)
Fixpoint validChild (v : JsVal) : bool :=
  match v with
  | JObj _ => false
  | JArr items => forallb validChild items
  | _ => true
  end.

(** The error of a conversion that finds no primitive. *)
Definition conversionError : JsError :=
  TypeError "Cannot convert object to primitive value".

Section Coercions.
Context `{Engine}.

(** The number a value converts to when its conversion to a primitive
    completes.  An object without a "toString" of its own converts as
    "[object Object]", which is no numeric literal.  An array converts
    through its [join(",")]: the empty array as the empty string (0), a
    singleton as its element's string (a number's string reads back as
    the number, [-0] as [0]), and a longer array as a string with a
    comma, which is no numeric literal. *)
Fixpoint numberOf (v : JsVal) : float :=
  match v with
  | JUndefined => nan
  | JNull => 0
  | JBool b => if b then 1 else 0
  | JNum n => n
  | JStr s => StringToNumber s
  | JObj _ => nan
  | JArr [] => 0
  | JArr [x] =>
      match x with
      | JUndefined | JNull => 0
      | JBool _ => nan
      | JNum n => if PrimFloat.eqb n 0 then 0 else n
      | JStr s => StringToNumber s
      | JObj _ => nan
      | JArr _ => numberOf x
      end
  | JArr (_ :: _ :: _) => nan
  end%float.

(** [ToNumber], as applied by [*] and [-] to an operand. *)
Definition ToNumber (v : JsVal) : Completion float :=
  if coercible v then Normal (numberOf v) else Throw conversionError.

End Coercions.

End Js.

Import Js.
Local Open Scope js_scope.

(* ===================================================================== *)
(** * Result.jsx *)
(* ===================================================================== *)

Module ResultJsx.

(** The three boxes [getReliability] chooses between. *)
Inductive Reliability : Type := VeryHigh | Suspicious | Low.

Definition title (t : Reliability) : string :=
  match t with
  | VeryHigh => "Reliability coefficient: Very High"
  | Suspicious => "Reliability coefficient: Suspicious"
  | Low => "Reliability coefficient: Low"
  end.

(** [getReliability], as a function of the [confidenceValue] it closes over. *)
Definition getReliability (confidenceValue : float) : Reliability :=
  if (99.9 <? confidenceValue)%float then VeryHigh
  else if (90 <=? confidenceValue)%float then Suspicious
  else Low.

(** The "Video analysis details" block: five fields rendered as they are. *)
Record VideoDetails : Type := {
  sampled_frames : JsVal;
  ai_frames : JsVal;
  real_frames : JsVal;
  sample_interval_sec : JsVal;
  duration_seconds : JsVal
}.

Record EnsembleLine : Type := {
  ensembleLabel : JsVal;
  ensembleConfidence : float;
  agreement : bool
}.

Record GrokBlock : Type := {
  grokLabel : JsVal;
  grokConfidence : float;
  ensemble : option EnsembleLine
}.

(** What one render of [Result] computes from [result]. *)
Record View : Type := {
  isAiGenerated : bool;
  label : JsVal;
  aiProbability : float;
  realProbability : float;
  confidenceValue : float;
  isVideo : bool;
  hasGrok : bool;
  reliability : Reliability;
  videoDetails : option VideoDetails;
  grokBlock : option GrokBlock
}.

Section Render.
Context `{Engine}.

(** Line 10: [(result.ai_probability ?? (isAiGenerated ? result.confidence
    : 1 - result.confidence)) * 100]. *)
Definition aiProbabilityOf (result : JsVal) : Completion float :=
  isAiGenerated <- get result "is_ai" ;;
  ai_probability <- get result "ai_probability" ;;
  chosen <- (if nullish ai_probability
             then confidence <- get result "confidence" ;;
                  if ToBoolean isAiGenerated
                  then Normal confidence
                  else c <- ToNumber confidence ;;
                       Normal (JNum (1 - c)%float)
             else Normal ai_probability) ;;
  n <- ToNumber chosen ;;
  Normal (n * 100)%float.

(** Line 11: [(result.real_probability ?? (100 - aiProbability) / 100) * 100]. *)
Definition realProbabilityOf (result : JsVal) (aiProbability : float)
  : Completion float :=
  real_probability <- get result "real_probability" ;;
  n <- ToNumber (if nullish real_probability
                 then JNum ((100 - aiProbability) / 100)%float
                 else real_probability) ;;
  Normal (n * 100)%float.

(** Line 12: [result.confidence * 100]. *)
Definition confidenceValueOf (result : JsVal) : Completion float :=
  confidence <- get result "confidence" ;;
  n <- ToNumber confidence ;;
  Normal (n * 100)%float.

(** Lines 52-61, rendered only when [isVideo]. *)
Definition videoDetailsOf (result : JsVal) : Completion VideoDetails :=
  a <- get result "sampled_frames" ;;
  b <- get result "ai_frames" ;;
  c <- get result "real_frames" ;;
  d <- get result "sample_interval_sec" ;;
  e <- get result "duration_seconds" ;;
  Normal {| sampled_frames := a; ai_frames := b; real_frames := c;
            sample_interval_sec := d; duration_seconds := e |}.

(** Lines 90-94, rendered only when [result.ensemble] is truthy. *)
Definition ensembleOf (result : JsVal) : Completion (option EnsembleLine) :=
  ens <- get result "ensemble" ;;
  if ToBoolean ens
  then l <- get ens "label" ;;
       c <- get ens "confidence" ;;
       n <- ToNumber c ;;
       a <- get ens "agreement" ;;
       Normal (Some {| ensembleLabel := l;
                       ensembleConfidence := (n * 100)%float;
                       agreement := ToBoolean a |})
  else Normal None.

(** Lines 84-96, rendered only when [hasGrok]. *)
Definition grokBlockOf (result : JsVal) : Completion GrokBlock :=
  grok <- get result "grok" ;;
  l <- get grok "label" ;;
  c <- get grok "confidence" ;;
  n <- ToNumber c ;;
  e <- ensembleOf result ;;
  Normal {| grokLabel := l;
            grokConfidence := (n * 100)%float;
            ensemble := e |}.

(** The component body, in evaluation order: what it computes before it
    hands elements to React.  The [toFixed(1)] calls only format numbers
    for display and are left out; their receivers are always results of a
    multiplication, hence numbers. *)
Definition Result (result : JsVal) : Completion View :=
  is_ai <- get result "is_ai" ;;
  ai <- aiProbabilityOf result ;;
  real <- realProbabilityOf result ai ;;
  conf <- confidenceValueOf result ;;
  input_type <- get result "input_type" ;;
  grok <- get result "grok" ;;
  lbl <- get result "label" ;;
  video <- (if strict_eq_str input_type "video"
            then v <- videoDetailsOf result ;; Normal (Some v)
            else Normal None) ;;
  block <- (if ToBoolean grok
            then g <- grokBlockOf result ;; Normal (Some g)
            else Normal None) ;;
  Normal {| isAiGenerated := ToBoolean is_ai;
            label := lbl;
            aiProbability := ai;
            realProbability := real;
            confidenceValue := conf;
            isVideo := strict_eq_str input_type "video";
            hasGrok := ToBoolean grok;
            reliability := getReliability conf;
            videoDetails := video;
            grokBlock := block |}.

End Render.

(** The response values the returned elements hold as children, in
    document order: [result.label] (line 45), the five video fields
    (lines 55-59), [result.grok.label] (line 88) and
    [result.ensemble.label] (line 92).  Every other child is a string
    literal or the string a [toFixed] call returns. *)
Definition children (v : View) : list JsVal :=
  label v
  :: match videoDetails v with
     | Some d => [ sampled_frames d; ai_frames d; real_frames d;
                   sample_interval_sec d; duration_seconds d ]
     | None => []
     end
  ++ match grokBlock v with
     | Some g => grokLabel g
                 :: match ensemble g with
                    | Some e => [ ensembleLabel e ]
                    | None => []
                    end
     | None => []
     end.

(** React commits the elements of a view when every child among them is
    one it accepts. *)
Definition commits (v : View) : bool := forallb validChild (children v).

End ResultJsx.

(* ===================================================================== *)
(** * Upload.jsx *)
(* ===================================================================== *)

Module UploadJsx.

(** The properties of a browser [File] the sources and the claims look at;
    [size] is in bytes. *)
Record File : Type := {
  name : string;
  type : string;
  size : Z
}.

(** The options object handed to [useDropzone] (lines 18-25).  It sets
    [onDrop], [accept] and [multiple]; no [maxSize], [minSize] or
    [validator] key is present. *)
Record DropzoneOptions : Type := {
  accept : list (string * list string);
  multiple : bool;
  maxSize : option Z;
  minSize : option Z
}.

Definition dropzoneOptions : DropzoneOptions := {|
  accept := [ ("image/*", [".jpeg"; ".png"; ".jpg"; ".webp"]);
              ("video/*", [".mp4"; ".webm"; ".mov"; ".mkv"]) ];
  multiple := false;
  maxSize := None;
  minSize := None
|}.

(** The limits the dropzone text announces (line 62):
    "Max image: 5MB, max video: 100MB". *)
Definition MiB : Z := 1024 * 1024.
Definition announcedMaxImage : Z := 5 * MiB.
Definition announcedMaxVideo : Z := 100 * MiB.

(** Lines 9-14: [onDrop] hands the first accepted file to [onFileSelect]
    and does nothing on an empty list. *)
Definition onDrop {S : Type} (onFileSelect : File -> S -> S)
  (acceptedFiles : list File) (s : S) : S :=
  match acceptedFiles with
  | [] => s
  | first :: _ => onFileSelect first s
  end.

(** Line 27: [file?.type?.startsWith('video/')] *)
Definition isVideo (file : option File) : bool :=
  match file with
  | None => false
  | Some f => String.prefix "video/" (type f)
  end.

(** Line 31: the dropzone is rendered only while there is no preview. *)
Definition showsDropzone {U : Type} (preview : option U) : bool :=
  match preview with
  | Some _ => false
  | None => true
  end.

End UploadJsx.

Import UploadJsx.

(* ===================================================================== *)
(** * App.jsx *)
(* ===================================================================== *)

Module AppJsx.

(** Line 12 *)
Definition API_URL (VITE_API_URL : JsVal) : JsVal :=
  or_else VITE_API_URL (JStr "http://localhost:8000").

(** The five [useState] cells (lines 15-19).  [preview] holds the object
    URL returned by [URL.createObjectURL], identified by a number. *)
Record State : Type := {
  file : option File;
  preview : option nat;
  result : JsVal;
  loading : bool;
  error : JsVal
}.

Definition initialState : State := {|
  file := None; preview := None; result := JNull;
  loading := false; error := JNull
|}.

(** What the handlers do to the browser besides setting state. *)
Inductive Effect : Type :=
| CreateObjectURL (f : File) (url : nat)
| RevokeObjectURL (url : nat)
| AxiosPost (id : nat) (f : File)
| ConsoleError (msg : JsVal).

(** The component's state together with the part of the browser it acts
    on: the object URLs that are alive, the posts awaiting an answer, and
    the log of effects (newest first). *)
Record World : Type := {
  ui : State;
  objectUrls : list nat;
  nextUrl : nat;
  inFlight : list nat;
  nextRequest : nat;
  effects : list Effect
}.

Definition initialWorld : World := {|
  ui := initialState; objectUrls := []; nextUrl := 0;
  inFlight := []; nextRequest := 0; effects := []
|}.

(** The reason of a rejected [axios.post]: the two properties the
    [catch] block reads. *)
Record AxiosError : Type := {
  response : JsVal;
  message : JsVal
}.

Inductive Outcome : Type :=
| Fulfilled (data : JsVal)
| Rejected (err : AxiosError).

(** Lines 24-29.  A handler's [set...] calls are applied together, as one
    state update (React batches them). *)
Definition handleFileSelect (selectedFile : File) (w : World) : World :=
  let url := nextUrl w in
  {| ui := {| file := Some selectedFile;
              preview := Some url;
              result := result (ui w);
              loading := loading (ui w);
              error := JNull |};
     objectUrls := url :: objectUrls w;
     nextUrl := S url;
     inFlight := inFlight w;
     nextRequest := nextRequest w;
     effects := CreateObjectURL selectedFile url :: effects w |}.

(** Lines 32-49, up to the [await]: the guard on [file], the three
    [set...] calls and the post. *)
Definition handleAnalyze (w : World) : World :=
  match file (ui w) with
  | None => w
  | Some f =>
      let id := nextRequest w in
      {| ui := {| file := file (ui w);
                  preview := preview (ui w);
                  result := JNull;
                  loading := true;
                  error := JNull |};
         objectUrls := objectUrls w;
         nextUrl := nextUrl w;
         inFlight := id :: inFlight w;
         nextRequest := S id;
         effects := AxiosPost id f :: effects w |}
  end.

(** Line 53: [err.response?.data?.detail || err.message ||
    'An unknown error occurred.'] *)
Definition detailOf (err : AxiosError) : JsVal :=
  get_opt (get_opt (response err) "data") "detail".

Definition errorMessageOf (err : AxiosError) : JsVal :=
  or_else (or_else (detailOf err) (message err))
          (JStr "An unknown error occurred.").

Definition remove_id (id : nat) (l : list nat) : list nat :=
  filter (fun x => negb (Nat.eqb x id)) l.

(** Lines 50-59, after the [await]: [setResult] on fulfilment, [setError]
    and [console.error] on rejection, [setLoading(false)] in either case.
    The two [set...] calls of one continuation are applied together, as
    React's automatic batching does. *)
Definition resume (id : nat) (o : Outcome) (w : World) : World :=
  match o with
  | Fulfilled data =>
      {| ui := {| file := file (ui w);
                  preview := preview (ui w);
                  result := data;
                  loading := false;
                  error := error (ui w) |};
         objectUrls := objectUrls w;
         nextUrl := nextUrl w;
         inFlight := remove_id id (inFlight w);
         nextRequest := nextRequest w;
         effects := effects w |}
  | Rejected err =>
      let errorMessage := errorMessageOf err in
      {| ui := {| file := file (ui w);
                  preview := preview (ui w);
                  result := result (ui w);
                  loading := false;
                  error := errorMessage |};
         objectUrls := objectUrls w;
         nextUrl := nextUrl w;
         inFlight := remove_id id (inFlight w);
         nextRequest := nextRequest w;
         effects := ConsoleError errorMessage :: effects w |}
  end.

(** Lines 63-69 *)
Definition handleReset (w : World) : World :=
  {| ui := initialState;
     objectUrls := objectUrls w;
     nextUrl := nextUrl w;
     inFlight := inFlight w;
     nextRequest := nextRequest w;
     effects := effects w |}.

(** What can happen to the component: the dropzone calls [onDrop], the
    user clicks one of the two buttons, or a pending post settles. *)
Inductive Event : Type :=
| Drop (acceptedFiles : list File)
| ClickAnalyze
| ClickReset
| Settle (id : nat) (o : Outcome).

Definition pending (id : nat) (w : World) : bool :=
  existsb (Nat.eqb id) (inFlight w).

(** One event, handled to completion.  A post settles once: [Settle] on
    an id that is not in flight changes nothing. *)
Definition step (w : World) (e : Event) : World :=
  match e with
  | Drop acceptedFiles => onDrop handleFileSelect acceptedFiles w
  | ClickAnalyze => handleAnalyze w
  | ClickReset => handleReset w
  | Settle id o => if pending id w then resume id o w else w
  end.

Definition run (w : World) (es : list Event) : World := fold_left step es w.

(** Lines 71-93: the panel [renderContent] returns.  For the upload panel
    it records whether the dropzone is shown and, when the Analyze button
    is rendered, its [disabled] attribute. *)
Inductive Panel : Type :=
| LoadingPanel
| ResultPanel (result : JsVal)
| UploadPanel (dropzone : bool) (analyzeDisabled : option bool).

Definition renderContent (s : State) : Panel :=
  if loading s then LoadingPanel
  else if ToBoolean (result s) then ResultPanel (result s)
  else UploadPanel (showsDropzone (preview s))
                   (match file s with
                    | Some _ => Some (loading s)
                    | None => None
                    end).

(** Lines 140-144: the banner is rendered when [error] is truthy, with
    [error] as a child of its paragraph.  React renders a string or a
    number there and throws on an object. *)
Definition errorBanner (s : State) : Completion (option JsVal) :=
  if ToBoolean (error s)
  then if validChild (error s)
       then Normal (Some (error s))
       else Throw (Error "Objects are not valid as a React child")
  else Normal None.

Section Page.
Context `{Engine}.

(** One render of the page goes through: neither the banner nor the
    [Result] component, when the result panel is rendered, throws, and
    React accepts the children [Result] returned.  The loading and the
    upload panel hold no value of a response.  No error boundary is
    mounted, so a render that throws removes the whole page. *)
Definition mounts (s : State) : bool :=
  match errorBanner s with
  | Throw _ => false
  | Normal _ =>
      match renderContent s with
      | ResultPanel r =>
          match ResultJsx.Result r with
          | Normal v => ResultJsx.commits v
          | Throw _ => false
          end
      | _ => true
      end
  end.

(** The events the rendered page lets happen: a drop needs the dropzone,
    a click needs its button rendered and enabled, both on a page that
    is mounted; a settlement needs its post in flight. *)
Definition offered (w : World) (e : Event) : bool :=
  match e with
  | Drop _ =>
      mounts (ui w)
      && match renderContent (ui w) with
         | UploadPanel true _ => true
         | _ => false
         end
  | ClickAnalyze =>
      mounts (ui w)
      && match renderContent (ui w) with
         | UploadPanel _ (Some false) => true
         | _ => false
         end
  | ClickReset =>
      mounts (ui w)
      && match renderContent (ui w) with
         | ResultPanel _ => true
         | _ => false
         end
  | Settle id _ => pending id w
  end.

(** Worlds reached from the initial one by offered events only. *)
Inductive reachable : World -> Prop :=
| reachable_init : reachable initialWorld
| reachable_step w e :
    reachable w -> offered w e = true -> reachable (step w e).

End Page.

Arguments mounts {_} s : simpl never.

End AppJsx.

Import AppJsx.

(* ===================================================================== *)
(** * Binary64 values as real numbers *)
(* ===================================================================== *)

Module Binary64.

Local Open Scope R_scope.

(** The target exponent of binary64 ([fexp] at precision 53 and maximal
    exponent 1024). *)
Definition fexp64 (e : Z) : Z := Z.max (e - 53) (-1074).

Definition pow2 (e : Z) : R := powerRZ 2 e.

Arguments pow2 e : simpl never.

Definition sgn (s : bool) : R := if s then -1 else 1.

(** The real number a specification float denotes; 0 for infinities and
    NaN, which [SFfinite] tells apart. *)
Definition SF2R (x : spec_float) : R :=
  match x with
  | S754_finite s m e => sgn s * (IZR (Z.pos m) * pow2 e)
  | _ => 0
  end.

Definition SFfinite (x : spec_float) : bool :=
  match x with
  | S754_zero _ | S754_finite _ _ _ => true
  | _ => false
  end.

(** The size of one rounding error at magnitude [v]. *)
Definition ulp_bound (v : R) : R := pow2 (-52) * Rabs v + pow2 (-1074).

(** The same on primitive floats. *)
Definition B2R (x : float) : R := SF2R (Prim2SF x).

Definition finite (x : float) : Prop := SFfinite (Prim2SF x) = true.

End Binary64.

(* ===================================================================== *)
(** * The response contract *)
(* ===================================================================== *)

Module Contract.

Local Open Scope float_scope.

Definition isString (v : JsVal) : bool :=
  match v with JStr _ => true | _ => false end.

Definition isBoolean (v : JsVal) : bool :=
  match v with JBool _ => true | _ => false end.

Definition isNumber (v : JsVal) : bool :=
  match v with JNum _ => true | _ => false end.

(** A number in [[0,1]]. *)
Definition isUnitNumber (v : JsVal) : bool :=
  match v with
  | JNum n => (0 <=? n) && (n <=? 1)
  | _ => false
  end.

(** An optional numeric field: missing, [null], or a number. *)
Definition isOptionalNumber (v : JsVal) : bool := nullish v || isNumber v.

(** The optional secondary verdict [{label, confidence}]: missing,
    [null], or an object with a string [label] and a numeric
    [confidence]. *)
Definition isOptionalVerdict (v : JsVal) : bool :=
  nullish v
  || match v with
     | JObj _ => isString (get_opt v "label")
                 && isNumber (get_opt v "confidence")
     | _ => false
     end.

(** The optional [{label, confidence, agreement}]: as a verdict, with a
    boolean [agreement]. *)
Definition isOptionalEnsemble (v : JsVal) : bool :=
  nullish v
  || match v with
     | JObj _ => isString (get_opt v "label")
                 && isNumber (get_opt v "confidence")
                 && isBoolean (get_opt v "agreement")
     | _ => false
     end.

(** The AnalysisResult shape the service promises: an object with a
    string [label], a [confidence] in [[0,1]], a boolean [is_ai], an
    [input_type] that is "image" or "video", optional numeric
    [ai_probability] and [real_probability] (missing, [null] or a
    number), optional numeric video aggregates, and the optional blocks
    [grok] and [ensemble]. *)
Definition isAnalysisResult (r : JsVal) : bool :=
  match r with
  | JObj _ =>
      isString (get_opt r "label")
      && isUnitNumber (get_opt r "confidence")
      && isBoolean (get_opt r "is_ai")
      && (strict_eq_str (get_opt r "input_type") "image"
          || strict_eq_str (get_opt r "input_type") "video")
      && isOptionalNumber (get_opt r "ai_probability")
      && isOptionalNumber (get_opt r "real_probability")
      && forallb (fun k => isOptionalNumber (get_opt r k))
           [ "sampled_frames"; "ai_frames"; "real_frames";
             "sample_interval_sec"; "duration_seconds" ]
      && isOptionalVerdict (get_opt r "grok")
      && isOptionalEnsemble (get_opt r "ensemble")
  | _ => false
  end.

(** Two percentages add up to 100 within [1e-6 * 100]: both are finite
    numbers and the real numbers they denote sum to 100 within that
    tolerance. *)
Definition complementary (ai real : float) : Prop :=
  Binary64.finite ai /\ Binary64.finite real
  /\ (Rabs (Binary64.B2R ai + Binary64.B2R real - 100)
      <= 100 * (1 / 1000000))%R.

(** The engine used by closed examples.  None of them converts a string
    to a number, so its choice is immaterial there. *)
Definition exampleEngine : Engine := {| StringToNumber := fun _ => nan |}.

(** The response of the end-to-end scenario. *)
Definition scenarioResult : JsVal :=
  JObj [ ("label", JStr "AI-Generated"); ("confidence", JNum 0.97);
         ("is_ai", JBool true); ("input_type", JStr "image") ].


End Contract.

Import ResultJsx Contract.

(* ===================================================================== *)
(** * Runs of the page: properties and scenarios *)
(* ===================================================================== *)

Module Runs.

(** Every event of the list is offered when its turn comes. *)
Fixpoint offered_run `{Engine} (w : World) (es : list Event) : bool :=
  match es with
  | [] => true
  | e :: rest => offered w e && offered_run (step w e) rest
  end.

(** While [loading] is set, [result] and [error] are [null]. *)
Definition loading_clean (w : World) : Prop :=
  loading (ui w) = true -> result (ui w) = JNull /\ error (ui w) = JNull.

Definition isRevoke (e : Effect) : bool :=
  match e with RevokeObjectURL _ => true | _ => false end.

Definition isSelection (e : Event) : bool :=
  match e with Drop (_ :: _) => true | _ => false end.

(** The number of drops that handed a file to [handleFileSelect]. *)
Definition selections (es : list Event) : nat :=
  List.length (filter isSelection es).

(** What every handler keeps true of the preview slot and the URLs. *)
Record urls_unreleased (w : World) : Prop := {
  no_revoke : filter isRevoke (effects w) = [];
  all_alive : objectUrls w = rev (seq 0 (nextUrl w));
  slot_sync : preview (ui w) = None <-> file (ui w) = None;
  slot_newest : forall u, preview (ui w) = Some u -> S u = nextUrl w
}.

End Runs.

Import Runs.

Module Scenarios.

(** Files and responses used by the closed examples. *)
Definition photo : File :=
  {| name := "photo.jpg"; type := "image/jpeg"; size := 2 * 1000 * 1000 |}.

Definition secondPhoto : File :=
  {| name := "other.png"; type := "image/png"; size := 1000 |}.

Definition oversizedVideo : File :=
  {| name := "clip.mp4"; type := "video/mp4"; size := announcedMaxVideo + 1 |}.

Definition oversizedImage : File :=
  {| name := "scan.png"; type := "image/png"; size := announcedMaxImage + 1 |}.

(** HTTP 500 with body [{"detail": "model unavailable"}], as axios
    reports it. *)
Definition modelUnavailable : AxiosError :=
  {| response := JObj [ ("status", JNum 500);
                        ("data", JObj [ ("detail", JStr "model unavailable") ]) ];
     message := JStr "Request failed with status code 500" |}.

(** HTTP 500 with body [{"detail": ""}]: a detail is supplied, and it is
    the empty string. *)
Definition emptyDetail : AxiosError :=
  {| response := JObj [ ("status", JNum 500);
                        ("data", JObj [ ("detail", JStr "") ]) ];
     message := JStr "Request failed with status code 500" |}.

(** HTTP 422 as FastAPI reports a validation failure: [detail] is a
    list of objects. *)
Definition validationError : AxiosError :=
  {| response :=
       JObj [ ("status", JNum 422);
              ("data",
               JObj [ ("detail",
                       JArr [ JObj [ ("loc", JArr [ JStr "body"; JStr "file" ]);
                                     ("msg", JStr "field required");
                                     ("type", JStr "value_error.missing") ] ]) ]) ];
     message := JStr "Request failed with status code 422" |}.

(** No response at all. *)
Definition networkError : AxiosError :=
  {| response := JUndefined; message := JStr "Network Error" |}.

(** A 2xx body without [confidence]. *)
Definition missingConfidence : JsVal :=
  JObj [ ("label", JStr "AI-Generated"); ("is_ai", JBool true);
         ("input_type", JStr "image") ].

(** A 2xx body whose [confidence] is the JSON object [{"toString": 1}]. *)
Definition unconvertibleConfidence : JsVal :=
  JObj [ ("label", JStr "AI-Generated"); ("is_ai", JBool true);
         ("input_type", JStr "image");
         ("confidence", JObj [ ("toString", JNum 1) ]) ].

(** A 2xx body whose [label] is an object. *)
Definition objectLabel : JsVal :=
  JObj [ ("label", JObj [ ("text", JStr "AI-Generated") ]);
         ("confidence", JNum 0.97); ("is_ai", JBool true);
         ("input_type", JStr "image") ].

(** The world while the post of [photo] is awaiting its answer. *)
Definition submitting : World := run initialWorld [Drop [photo]; ClickAnalyze].

(** The world after a 2xx answer that lacks [confidence]. *)
Definition afterMissingConfidence : World :=
  step submitting (Settle 0 (Fulfilled missingConfidence)).

(** The world after: select, Analyze, reset, and only then the answer. *)
Definition answeredAfterReset : World :=
  run initialWorld
    [Drop [photo]; ClickAnalyze; ClickReset; Settle 0 (Fulfilled scenarioResult)].

Definition failedAfterReset : World :=
  run initialWorld
    [Drop [photo]; ClickAnalyze; ClickReset; Settle 0 (Rejected networkError)].

(** The world after a full round through the page and a new selection. *)
Definition reselected : World :=
  run initialWorld
    [Drop [photo]; ClickAnalyze; Settle 0 (Fulfilled scenarioResult);
     ClickReset; Drop [secondPhoto]].

End Scenarios.

Import Scenarios.

(* ===================================================================== *)
(** * Upload.jsx and App.jsx: what is shown for a selection *)
(* ===================================================================== *)

Module SelectionView.

(** Upload.jsx, lines 31-41: once there is a preview, the dropzone gives
    way to a player or an image on the preview URL, with a caption; which
    of the two is decided by [isVideo], that is by [file.type]. *)
Inductive PreviewElement : Type :=
| VideoElement (src : nat)
| ImgElement (src : nat).

Record PreviewPanel : Type := {
  element : PreviewElement;
  caption : string
}.

Definition previewPanel (file : option File) (preview : option nat)
  : option PreviewPanel :=
  match preview with
  | None => None
  | Some src =>
      Some (if UploadJsx.isVideo file
            then {| element := VideoElement src;
                    caption := "Video selected. We analyze 1 frame per second." |}
            else {| element := ImgElement src;
                    caption := "Image selected. Click Analyze to continue." |})
  end.

(** App.jsx, line 88: the text on the Analyze button. *)
Definition analyzeLabel (s : State) : string :=
  if loading s then "Analyzing..." else "Analyze Media".

End SelectionView.

Import SelectionView.

(* ===================================================================== *)
(** * Observations on runs and views *)
(* ===================================================================== *)

Module Observations.

(** The tiers in ascending order. *)
Definition rank (t : Reliability) : nat :=
  match t with
  | Low => 0
  | Suspicious => 1
  | VeryHigh => 2
  end.

(** The files sent by the posts of an effect log. *)
Definition postedFiles (effs : list Effect) : list File :=
  flat_map (fun e => match e with AxiosPost _ f => [f] | _ => [] end) effs.

(** The messages written to the console. *)
Definition consoleErrors (effs : list Effect) : list JsVal :=
  flat_map (fun e => match e with ConsoleError m => [m] | _ => [] end) effs.

(** The files [onDrop] handed on: the first of every non-empty drop. *)
Definition droppedFiles (es : list Event) : list File :=
  flat_map (fun e => match e with Drop (f :: _) => [f] | _ => [] end) es.

Definition isClickAnalyze (e : Event) : bool :=
  match e with ClickAnalyze => true | _ => false end.

Definition analyzeClicks (es : list Event) : nat :=
  List.length (filter isClickAnalyze es).

Definition clicks (e : Event) : nat := if isClickAnalyze e then 1 else 0.

(** What holds of every world reached through the page besides the
    count of posts in flight: a post in flight or a result on display
    has its file still selected, a result on display has no error beside
    it, [loading] has neither, and without a selection the five cells
    hold their initial values. *)
Record page_settled (w : World) : Prop := {
  busy_has_file : loading (ui w) = true -> file (ui w) <> None;
  busy_is_clean : loading_clean w;
  result_has_file : ToBoolean (result (ui w)) = true -> file (ui w) <> None;
  result_no_error : ToBoolean (result (ui w)) = true -> error (ui w) = JNull;
  idle_is_initial : file (ui w) = None -> ui w = initialState;
  slot_in_sync : preview (ui w) = None <-> file (ui w) = None
}.

(** The preview URL on display was created from the file on display. *)
Definition preview_owned (w : World) : Prop :=
  forall u, preview (ui w) = Some u ->
            exists f, file (ui w) = Some f
                      /\ In (CreateObjectURL f u) (effects w).

(** What every handler keeps true of the object URLs it created: the one
    on display belongs to the file on display, and no URL was handed out
    twice. *)
Record urls_traced (w : World) : Prop := {
  shown_owned : preview_owned w;
  created_below :
    forall f u, In (CreateObjectURL f u) (effects w) -> (u < nextUrl w)%nat;
  created_once :
    forall f f' u, In (CreateObjectURL f u) (effects w) ->
                   In (CreateObjectURL f' u) (effects w) -> f = f'
}.

(** Two floats denote real numbers within [1e-9] of each other. *)
Definition close (x y : float) : Prop :=
  Binary64.finite x /\ Binary64.finite y
  /\ (Rabs (Binary64.B2R x - Binary64.B2R y) <= 1 / 1000000000)%R.

(** Chaining two comparisons neither of which says "greater". *)
Definition chain (c1 c2 : comparison) : comparison :=
  match c1, c2 with
  | Eq, Eq => Eq
  | _, _ => Lt
  end.

(** The values of a response that [Result] uses as numbers: the two
    probabilities and [confidence] (lines 10-12) and, inside the blocks
    that are rendered, [grok.confidence] (line 88) and
    [ensemble.confidence] (line 92). *)
Definition operands (r : JsVal) : list JsVal :=
  [ get_opt r "ai_probability"; get_opt r "real_probability";
    get_opt r "confidence" ]
  ++ (if ToBoolean (get_opt r "grok")
      then get_opt (get_opt r "grok") "confidence"
           :: (if ToBoolean (get_opt r "ensemble")
               then [ get_opt (get_opt r "ensemble") "confidence" ]
               else [])
      else []).

(** A video response with its aggregates, and a response with both
    cross-check blocks. *)
Definition videoResult : JsVal :=
  JObj [ ("label", JStr "AI-Generated"); ("confidence", JNum 0.999);
         ("is_ai", JBool true); ("input_type", JStr "video");
         ("sampled_frames", JNum 30); ("ai_frames", JNum 28);
         ("real_frames", JNum 2) ].

Definition crossChecked : JsVal :=
  JObj [ ("label", JStr "Real"); ("confidence", JNum 0.8);
         ("is_ai", JBool false); ("input_type", JStr "image");
         ("grok", JObj [ ("label", JStr "Real"); ("confidence", JNum 0.7) ]);
         ("ensemble", JObj [ ("label", JStr "Real"); ("confidence", JNum 0.75);
                             ("agreement", JBool true) ]) ].

(** A response that names its AI probability itself. *)
Definition ownAiProbability : JsVal :=
  JObj [ ("label", JStr "Real"); ("confidence", JNum 0.8);
         ("is_ai", JBool false); ("input_type", JStr "image");
         ("ai_probability", JNum 0.25) ].

End Observations.

Import Observations.

(* ===================================================================== *)
(** * Order facts on binary64 comparisons *)
(* ===================================================================== *)

Module FloatOrder.

Local Open Scope float_scope.

(** Swapping the arguments of the specification's comparison flips its
    answer. *)
Lemma SFcompare_swap (x y : spec_float) :
  SFcompare y x = option_map CompOpp (SFcompare x y).
Proof.
  destruct x as [sx | sx | | sx mx ex], y as [sy | sy | | sy my ey];
    simpl; try reflexivity;
    try (destruct sx; reflexivity);
    try (destruct sy; reflexivity);
    try (destruct sx, sy; reflexivity).
  destruct sx, sy; try reflexivity;
    rewrite (Z.compare_antisym ey ex);
    destruct (ey ?= ex)%Z; simpl; try reflexivity;
    rewrite (ZC4 my mx); rewrite ?CompOpp_involutive; reflexivity.
Qed.

(** Case analysis on every integer or mantissa comparison in sight. *)
Ltac compare_cases :=
  repeat match goal with
  | H : context [(?a ?= ?b)%Z] |- _ =>
      destruct (Z.compare_spec a b); simpl in H
  | H : context [PosDef.Pos.compare_cont Eq ?a ?b] |- _ =>
      change (PosDef.Pos.compare_cont Eq a b) with (Pos.compare a b) in H;
      destruct (Pos.compare_spec a b); simpl in H
  | |- context [(?a ?= ?b)%Z] =>
      destruct (Z.compare_spec a b); simpl
  | |- context [PosDef.Pos.compare_cont Eq ?a ?b] =>
      change (PosDef.Pos.compare_cont Eq a b) with (Pos.compare a b);
      destruct (Pos.compare_spec a b); simpl
  end;
  try discriminate; try reflexivity; try (exfalso; lia).

(** [<] is transitive on the specification level. *)
Lemma SFcompare_Lt_trans (x y z : spec_float) :
  SFcompare x y = Some Lt -> SFcompare y z = Some Lt -> SFcompare x z = Some Lt.
Proof.
  destruct x as [sx | sx | | sx mx ex], y as [sy | sy | | sy my ey],
           z as [sz | sz | | sz mz ez]; simpl; try discriminate;
    try destruct sx; try destruct sy; try destruct sz; simpl;
    try discriminate; try reflexivity; intros Hxy Hyz; compare_cases.
Qed.

(** On primitive floats: [x <= y] excludes [y < x], [x < y] excludes
    [y <= x], and [<] is transitive. *)
Lemma leb_not_gt (x y : float) : (x <=? y) = true -> (y <? x) = false.
Proof.
  rewrite leb_spec, ltb_spec. unfold SFleb, SFltb.
  rewrite (SFcompare_swap (Prim2SF x) (Prim2SF y)).
  destruct (SFcompare (Prim2SF x) (Prim2SF y)) as [[ | | ] | ];
    simpl; intros; congruence.
Qed.

Lemma ltb_not_ge (x y : float) : (x <? y) = true -> (y <=? x) = false.
Proof.
  rewrite leb_spec, ltb_spec. unfold SFleb, SFltb.
  rewrite (SFcompare_swap (Prim2SF x) (Prim2SF y)).
  destruct (SFcompare (Prim2SF x) (Prim2SF y)) as [[ | | ] | ];
    simpl; intros; congruence.
Qed.

Lemma ltb_trans (x y z : float) :
  (x <? y) = true -> (y <? z) = true -> (x <? z) = true.
Proof.
  rewrite !ltb_spec. unfold SFltb. intros Hxy Hyz.
  rewrite (SFcompare_Lt_trans (Prim2SF x) (Prim2SF y) (Prim2SF z)).
  - reflexivity.
  - destruct (SFcompare (Prim2SF x) (Prim2SF y)) as [[ | | ] | ]; congruence.
  - destruct (SFcompare (Prim2SF y) (Prim2SF z)) as [[ | | ] | ]; congruence.
Qed.

End FloatOrder.

(* ===================================================================== *)
(** * Rounding errors of binary64 operations *)
(* ===================================================================== *)

Module Binary64Facts.

Import Binary64.

Local Open Scope Z_scope.

(** The specification of the primitive operations ([SFmul], [SFsub],
    [SFdiv] at precision 53 and maximal exponent 1024) rounds through
    [binary_round_aux].  This module bounds the error of that rounding on
    real numbers, far more coarsely than half a unit in the last place
    but enough for a tolerance of [1e-4] on values around 100. *)

Lemma fexp_eq (e : Z) : fexp prec emax e = fexp64 e.
Proof. reflexivity. Qed.

Lemma digits2_size (p : positive) : digits2_pos p = Pos.size p.
Proof. induction p; simpl; congruence. Qed.

Lemma Zdigits2_nonneg (m : Z) : 0 <= Zdigits2 m.
Proof. destruct m; simpl; lia. Qed.

Lemma Zdigits2_lt (m : Z) : 0 <= m -> m < 2 ^ Zdigits2 m.
Proof.
  destruct m as [ | p | p]; try lia; intros _; [ simpl; lia | ].
  change (Zdigits2 (Z.pos p)) with (Z.pos (digits2_pos p)).
  rewrite digits2_size. pose proof (Pos.size_gt p) as H.
  pose proof (Pos2Z.inj_pow 2 (Pos.size p)) as E. lia.
Qed.

Lemma Zdigits2_ge (m : Z) : 0 < m -> 2 ^ (Zdigits2 m - 1) <= m.
Proof.
  destruct m as [ | p | p]; try lia; intros _.
  change (Zdigits2 (Z.pos p)) with (Z.pos (digits2_pos p)).
  rewrite digits2_size. pose proof (Pos.size_le p) as H.
  pose proof (Pos2Z.inj_pow 2 (Pos.size p)) as E.
  assert (H2 : 2 ^ Z.pos (Pos.size p) <= 2 * Z.pos p) by lia.
  replace (Z.pos (Pos.size p)) with (Z.succ (Z.pos (Pos.size p) - 1)) in H2
    by lia.
  rewrite Z.pow_succ_r in H2 by lia. lia.
Qed.

Lemma Zdigits2_le (m k : Z) : 0 <= m -> 0 <= k -> m < 2 ^ k -> Zdigits2 m <= k.
Proof.
  intros Hm Hk Hlt.
  destruct (Z.eq_dec m 0) as [-> | Hne]; [ simpl; lia | ].
  pose proof (Zdigits2_ge m ltac:(lia)) as Hge.
  pose proof (Zdigits2_nonneg m) as Hd.
  destruct (Z_lt_le_dec k (Zdigits2 m)) as [Hlt' | ]; [ | lia ].
  exfalso.
  assert (2 ^ k <= 2 ^ (Zdigits2 m - 1)) by (apply Z.pow_le_mono_r; lia).
  lia.
Qed.

(** Shifting right *)
Lemma shr_1_m (mrs : shr_record) :
  0 <= shr_m mrs -> shr_m (shr_1 mrs) = shr_m mrs / 2.
Proof.
  destruct mrs as [m r s]. simpl. intros Hm.
  rewrite <- Z.div2_div.
  destruct m as [ | [p | p | ] | p]; simpl; try reflexivity; lia.
Qed.

Lemma pow2_xI (p : positive) : 2 ^ Z.pos p~1 = 2 * (2 ^ Z.pos p * 2 ^ Z.pos p).
Proof.
  rewrite Pos2Z.inj_xI, <- Z.pow_add_r, <- Z.pow_succ_r by lia.
  f_equal. lia.
Qed.

Lemma pow2_xO (p : positive) : 2 ^ Z.pos p~0 = 2 ^ Z.pos p * 2 ^ Z.pos p.
Proof.
  rewrite Pos2Z.inj_xO, <- Z.pow_add_r by lia. f_equal. lia.
Qed.

Lemma pow2_gt0 (n : Z) : 0 <= n -> 0 < 2 ^ n.
Proof. intros. apply Z.pow_pos_nonneg; lia. Qed.

Lemma iter_shr_m (p : positive) (mrs : shr_record) :
  0 <= shr_m mrs ->
  shr_m (SpecFloat.iter_pos shr_1 p mrs) = shr_m mrs / 2 ^ Z.pos p.
Proof.
  revert mrs.
  induction p as [p IH | p IH | ]; intros mrs Hm; cbn [SpecFloat.iter_pos].
  - pose proof (pow2_gt0 (Z.pos p) ltac:(lia)) as Hp.
    assert (H1 : 0 <= shr_m (shr_1 mrs))
      by (rewrite shr_1_m by exact Hm; apply Z.div_pos; lia).
    assert (H2 : 0 <= shr_m (SpecFloat.iter_pos shr_1 p (shr_1 mrs)))
      by (rewrite IH by exact H1; apply Z.div_pos; lia).
    rewrite IH by exact H2. rewrite IH by exact H1.
    rewrite shr_1_m by exact Hm. rewrite pow2_xI.
    rewrite !Z.div_div by lia. reflexivity.
  - pose proof (pow2_gt0 (Z.pos p) ltac:(lia)) as Hp.
    assert (H2 : 0 <= shr_m (SpecFloat.iter_pos shr_1 p mrs))
      by (rewrite IH by exact Hm; apply Z.div_pos; lia).
    rewrite IH by exact H2. rewrite IH by exact Hm. rewrite pow2_xO.
    rewrite !Z.div_div by lia. reflexivity.
  - rewrite shr_1_m by exact Hm. reflexivity.
Qed.

Lemma shr_record_of_loc_m (m : Z) (l : location) :
  shr_m (shr_record_of_loc m l) = m.
Proof. destruct l as [ | [ | | ]]; reflexivity. Qed.

Lemma shr_fexp_spec (m e : Z) (l : location) :
  0 <= m ->
  exists mrs,
    shr_fexp prec emax m e l
    = (mrs, e + Z.max 0 (fexp prec emax (Zdigits2 m + e) - e))
    /\ shr_m mrs = m / 2 ^ Z.max 0 (fexp prec emax (Zdigits2 m + e) - e)
    /\ (Z.max 0 (fexp prec emax (Zdigits2 m + e) - e) = 0 ->
        mrs = shr_record_of_loc m l).
Proof.
  intros Hm. unfold shr_fexp, shr.
  destruct (fexp prec emax (Zdigits2 m + e) - e) as [ | p | p] eqn:En.
  - eexists. split; [ f_equal; lia | ]. split; [ | reflexivity ].
    rewrite shr_record_of_loc_m. simpl. rewrite Z.div_1_r. reflexivity.
  - eexists. split; [ f_equal; lia | ]. split.
    + rewrite iter_shr_m by (rewrite shr_record_of_loc_m; exact Hm).
      rewrite shr_record_of_loc_m. f_equal.
    + lia.
  - eexists. split; [ f_equal; lia | ]. split; [ | reflexivity ].
    rewrite shr_record_of_loc_m. simpl. rewrite Z.div_1_r. reflexivity.
Qed.

Lemma round_nearest_even_range (m : Z) (l : location) :
  m <= round_nearest_even m l <= m + 1.
Proof.
  destruct l as [ | [ | | ]]; simpl; try lia. destruct (Z.even m); lia.
Qed.

Lemma div_pow2_bounds (m n : Z) :
  0 <= m -> 0 <= n ->
  0 <= m / 2 ^ n /\ 2 ^ n * (m / 2 ^ n) <= m < 2 ^ n * (m / 2 ^ n + 1).
Proof.
  intros Hm Hn. pose proof (pow2_gt0 n Hn) as Hp.
  split; [ apply Z.div_pos; lia | ].
  pose proof (Z.mul_div_le m (2 ^ n) Hp).
  pose proof (Z.mul_succ_div_gt m (2 ^ n) Hp). lia.
Qed.

(** The rounding step shared by all operations: the mantissa is cut to
    the target exponent, moved by at most one unit, and cut once more by
    at most one bit. *)
Lemma binary_round_aux_spec (s : bool) (mx ex : Z) (lx : location) :
  0 <= mx ->
  ex + Z.max 0 (fexp prec emax (Zdigits2 mx + ex) - ex) + 1 <= 971 ->
  exists m2 n2,
    Z.max 0 (fexp prec emax (Zdigits2 mx + ex) - ex) <= n2
      <= Z.max 0 (fexp prec emax (Zdigits2 mx + ex) - ex) + 1
    /\ 0 <= m2
    /\ binary_round_aux prec emax s mx ex lx
       = match m2 with
         | Z0 => S754_zero s
         | Zpos p => S754_finite s p (ex + n2)
         | Zneg _ => S754_nan
         end
    /\ mx - 3 * 2 ^ Z.max 0 (fexp prec emax (Zdigits2 mx + ex) - ex)
         < m2 * 2 ^ n2
         <= mx + 2 ^ Z.max 0 (fexp prec emax (Zdigits2 mx + ex) - ex)
    /\ (lx = loc_Exact ->
        Z.max 0 (fexp prec emax (Zdigits2 mx + ex) - ex) = 0 ->
        m2 = mx /\ n2 = 0).
Proof.
  intros Hmx.
  set (n := Z.max 0 (fexp prec emax (Zdigits2 mx + ex) - ex)).
  intros Hov.
  assert (Hn : 0 <= n) by (unfold n; lia).
  unfold binary_round_aux.
  destruct (shr_fexp_spec mx ex lx Hmx) as (mrs1 & E1 & Hm1 & Hex1).
  fold n in E1, Hm1, Hex1. rewrite E1.
  set (m1 := round_nearest_even (shr_m mrs1) (loc_of_shr_record mrs1)).
  pose proof (round_nearest_even_range (shr_m mrs1) (loc_of_shr_record mrs1))
    as Hr. fold m1 in Hr. rewrite Hm1 in Hr.
  destruct (div_pow2_bounds mx n Hmx Hn) as (Hq0 & Hq).
  assert (Hm1' : 0 <= m1) by lia.
  destruct (shr_fexp_spec m1 (ex + n) loc_Exact Hm1') as (mrs2 & E2 & Hm2 & Hex2).
  set (k := Z.max 0 (fexp prec emax (Zdigits2 m1 + (ex + n)) - (ex + n))) in *.
  rewrite E2.
  (* the first cut leaves at most 53 bits *)
  pose proof (Zdigits2_lt mx Hmx) as Hdx.
  pose proof (Zdigits2_nonneg mx) as Hdx0.
  assert (Hfe : Zdigits2 mx <= n + 53)
    by (unfold n; rewrite fexp_eq; unfold fexp64; lia).
  assert (Hlow : -1074 <= ex + n)
    by (unfold n; rewrite fexp_eq; unfold fexp64; lia).
  assert (Hq53 : mx / 2 ^ n < 2 ^ 53).
  { apply Z.div_lt_upper_bound; [ apply pow2_gt0; lia | ].
    rewrite <- Z.pow_add_r by lia.
    apply Z.lt_le_trans with (1 := Hdx). apply Z.pow_le_mono_r; lia. }
  assert (Hd1 : Zdigits2 m1 <= 54).
  { apply Zdigits2_le; lia. }
  assert (Hk : 0 <= k <= 1)
    by (unfold k; rewrite fexp_eq; unfold fexp64; lia).
  destruct (div_pow2_bounds m1 k Hm1' ltac:(lia)) as (Hq2 & Hqq).
  exists (m1 / 2 ^ k), (n + k).
  split; [ lia | ]. split; [ exact Hq2 | ].
  split; [ | split ].
  - rewrite Hm2. replace (ex + n + k) with (ex + (n + k)) by lia.
    destruct (m1 / 2 ^ k) as [ | p | p]; try reflexivity.
    replace (ex + (n + k) <=? emax - prec) with true; [ reflexivity | ].
    symmetry. apply Z.leb_le. change (emax - prec) with 971. lia.
  - rewrite Z.pow_add_r by lia.
    pose proof (pow2_gt0 n Hn) as Hpn.
    assert (Hpk : 2 ^ k = 1 \/ 2 ^ k = 2).
    { destruct (Z.eq_dec k 0) as [-> | ]; [ left; reflexivity | ].
      replace k with 1 by lia. right; reflexivity. }
    destruct Hpk as [Ek | Ek]; rewrite Ek in *; nia.
  - intros -> Hn0.
    assert (Em1 : m1 = mx).
    { unfold m1. rewrite (Hex1 Hn0). reflexivity. }
    assert (Hk0 : k = 0).
    { unfold k. rewrite Em1. fold n in Hn0. rewrite Hn0, Z.add_0_r.
      unfold n in Hn0. lia. }
    rewrite Hk0, Em1. split; [ apply Z.div_1_r | lia ].
Qed.

(** ** Real values *)

Local Open Scope R_scope.

Lemma pow2_pos (e : Z) : 0 < pow2 e.
Proof. apply powerRZ_lt. lra. Qed.

Lemma pow2_add (a b : Z) : pow2 (a + b) = pow2 a * pow2 b.
Proof. apply powerRZ_add. lra. Qed.

Lemma pow2_IZR (n : Z) : (0 <= n)%Z -> pow2 n = IZR (2 ^ n).
Proof.
  intros Hn. unfold pow2. rewrite <- (Z2Nat.id n Hn) at 1.
  rewrite <- pow_powerRZ. change 2 with (IZR 2). rewrite pow_IZR.
  rewrite Z2Nat.id by exact Hn. reflexivity.
Qed.

Lemma pow2_le (a b : Z) : (a <= b)%Z -> pow2 a <= pow2 b.
Proof.
  intros Hab. replace b with (a + (b - a))%Z by lia.
  rewrite pow2_add, (pow2_IZR (b - a)) by lia.
  pose proof (pow2_pos a).
  assert (1 <= IZR (2 ^ (b - a))).
  { apply IZR_le. pose proof (pow2_gt0 (b - a)). lia. }
  nra.
Qed.

Lemma pow2_lt (a b : Z) : (a < b)%Z -> pow2 a < pow2 b.
Proof.
  intros Hab. replace b with (a + (b - a))%Z by lia.
  rewrite pow2_add, (pow2_IZR (b - a)) by lia.
  pose proof (pow2_pos a).
  assert (2 <= IZR (2 ^ (b - a))).
  { apply IZR_le. replace (b - a)%Z with (Z.succ (b - a - 1)) by lia.
    rewrite Z.pow_succ_r by lia. pose proof (pow2_gt0 (b - a - 1)). lia. }
  nra.
Qed.

Lemma pow2_le_inv (a b : Z) : pow2 a <= pow2 b -> (a <= b)%Z.
Proof.
  intros H. destruct (Z_lt_le_dec b a) as [Hlt | ]; [ | assumption ].
  apply pow2_lt in Hlt. lra.
Qed.

Lemma ulp_bound_pos (v : R) : 0 < ulp_bound v.
Proof.
  unfold ulp_bound. pose proof (pow2_pos (-52)). pose proof (pow2_pos (-1074)).
  pose proof (Rabs_pos v). nra.
Qed.

(** The target exponent is small against the value. *)
Lemma pow2_fexp_le (m e : Z) :
  (0 < m)%Z ->
  pow2 (fexp prec emax (Zdigits2 m + e)) <= ulp_bound (IZR m * pow2 e).
Proof.
  intros Hm. unfold ulp_bound. rewrite fexp_eq. unfold fexp64.
  pose proof (pow2_pos e) as He. pose proof (pow2_pos (-52)) as H52.
  pose proof (pow2_pos (-1074)) as Hmin.
  assert (Hv : 0 <= IZR m * pow2 e) by (apply IZR_lt in Hm; nra).
  rewrite (Rabs_pos_eq _ Hv).
  pose proof (Rmult_le_pos _ _ (Rlt_le _ _ H52) Hv) as Hrel.
  destruct (Z.max_spec (Zdigits2 m + e - 53) (-1074)) as [[_ ->] | [Hge ->]].
  - lra.
  - pose proof (Zdigits2_ge m Hm) as Hd.
    assert (Hd1 : (1 <= Zdigits2 m)%Z) by (destruct m; simpl in *; lia).
    replace (Zdigits2 m + e - 53)%Z
      with ((Zdigits2 m - 1) + e + (-52))%Z by lia.
    rewrite !pow2_add, (pow2_IZR (Zdigits2 m - 1)) by lia.
    apply IZR_le in Hd.
    assert (H1 : IZR (2 ^ (Zdigits2 m - 1)) * pow2 e <= IZR m * pow2 e)
      by (apply Rmult_le_compat_r; lra).
    assert (H2 : IZR (2 ^ (Zdigits2 m - 1)) * pow2 e * pow2 (-52)
                 <= IZR m * pow2 e * pow2 (-52))
      by (apply Rmult_le_compat_r; lra).
    lra.
Qed.

(** The rounding step on real values. *)
Lemma binary_round_aux_real (s : bool) (mx ex : Z) (lx : location) :
  (0 <= mx)%Z ->
  (Z.max ex (fexp prec emax (Zdigits2 mx + ex)) <= 970)%Z ->
  exists v,
    0 <= v
    /\ SFfinite (binary_round_aux prec emax s mx ex lx) = true
    /\ SF2R (binary_round_aux prec emax s mx ex lx) = sgn s * v
    /\ IZR mx * pow2 ex
         - 3 * pow2 (Z.max ex (fexp prec emax (Zdigits2 mx + ex)))
       <= v
       <= IZR mx * pow2 ex
          + pow2 (Z.max ex (fexp prec emax (Zdigits2 mx + ex)))
    /\ (lx = loc_Exact ->
        (fexp prec emax (Zdigits2 mx + ex) <= ex)%Z ->
        v = IZR mx * pow2 ex).
Proof.
  intros Hmx Hov.
  set (n := Z.max 0 (fexp prec emax (Zdigits2 mx + ex) - ex)).
  assert (En : Z.max ex (fexp prec emax (Zdigits2 mx + ex)) = (ex + n)%Z)
    by (unfold n; lia).
  rewrite En in *.
  destruct (binary_round_aux_spec s mx ex lx Hmx ltac:(fold n; lia))
    as (m2 & n2 & Hn2 & Hm2 & -> & Hb & Hex).
  fold n in Hn2, Hb, Hex.
  assert (Hn : (0 <= n)%Z) by (unfold n; lia).
  exists (IZR (m2 * 2 ^ n2) * pow2 ex).
  pose proof (pow2_pos ex) as Hpe.
  assert (Hval : IZR (m2 * 2 ^ n2) * pow2 ex = IZR m2 * pow2 (ex + n2)).
  { rewrite mult_IZR, pow2_add, (pow2_IZR n2) by lia. ring. }
  split; [ | split; [ | split; [ | split ] ] ].
  - assert (0 <= IZR (m2 * 2 ^ n2)).
    { apply IZR_le. pose proof (pow2_gt0 n2 ltac:(lia)). nia. }
    nra.
  - destruct m2; try reflexivity. lia.
  - rewrite Hval. destruct m2 as [ | p | p]; simpl; try ring. lia.
  - rewrite pow2_add, (pow2_IZR n) by exact Hn.
    destruct Hb as [Hlo Hhi].
    apply IZR_lt in Hlo. apply IZR_le in Hhi.
    rewrite minus_IZR, mult_IZR in Hlo. rewrite plus_IZR in Hhi.
    split; nra.
  - intros Hl Hfe. assert (Hn0 : n = 0%Z) by (unfold n; lia).
    destruct (Hex Hl Hn0) as [-> ->].
    rewrite Z.pow_0_r, Z.mul_1_r. reflexivity.
Qed.

Lemma sgn_xorb (a b : bool) : sgn (xorb a b) = sgn a * sgn b.
Proof. destruct a, b; simpl; ring. Qed.

Lemma Rabs_sgn_mul (s : bool) (x : R) : Rabs (sgn s * x) = Rabs x.
Proof.
  destruct s; simpl.
  - replace (-1 * x) with (- x) by ring. apply Rabs_Ropp.
  - f_equal. ring.
Qed.

(** A value below [2^900] keeps every exponent in range. *)
Lemma exponent_in_range (m e : Z) :
  (0 < m)%Z ->
  IZR m * pow2 e <= pow2 900 ->
  (Z.max e (fexp prec emax (Zdigits2 m + e)) <= 970)%Z.
Proof.
  intros Hm Hv. pose proof (pow2_pos e) as He.
  pose proof (Zdigits2_ge m Hm) as Hd.
  assert (Hd1 : (1 <= Zdigits2 m)%Z) by (destruct m; simpl in *; lia).
  assert (H1 : pow2 (Zdigits2 m - 1 + e) <= pow2 900).
  { rewrite pow2_add, (pow2_IZR (Zdigits2 m - 1)) by lia.
    apply IZR_le in Hd.
    assert (IZR (2 ^ (Zdigits2 m - 1)) * pow2 e <= IZR m * pow2 e)
      by (apply Rmult_le_compat_r; lra).
    lra. }
  apply pow2_le_inv in H1.
  rewrite fexp_eq. unfold fexp64. lia.
Qed.

(** Rounding an exactly known magnitude. *)
Lemma round_exact_real (s : bool) (m : positive) (e : Z) :
  IZR (Z.pos m) * pow2 e <= pow2 900 ->
  SFfinite (binary_round_aux prec emax s (Z.pos m) e loc_Exact) = true
  /\ exists v,
       SF2R (binary_round_aux prec emax s (Z.pos m) e loc_Exact) = sgn s * v
       /\ Rabs (v - IZR (Z.pos m) * pow2 e)
          <= 3 * ulp_bound (IZR (Z.pos m) * pow2 e).
Proof.
  intros Hv.
  pose proof (exponent_in_range (Z.pos m) e ltac:(lia) Hv) as Hov.
  destruct (binary_round_aux_real s (Z.pos m) e loc_Exact ltac:(lia) Hov)
    as (v & Hv0 & Hfin & Hval & [Hlo Hhi] & Hex).
  split; [ exact Hfin | ]. exists v. split; [ exact Hval | ].
  pose proof (ulp_bound_pos (IZR (Z.pos m) * pow2 e)) as Hu.
  destruct (Z_le_gt_dec (fexp prec emax (Zdigits2 (Z.pos m) + e)) e)
    as [Hle | Hgt].
  - rewrite (Hex eq_refl Hle).
    replace (IZR (Z.pos m) * pow2 e - IZR (Z.pos m) * pow2 e) with 0 by ring.
    rewrite Rabs_R0. lra.
  - rewrite Z.max_r in Hlo, Hhi by lia.
    pose proof (pow2_fexp_le (Z.pos m) e ltac:(lia)) as Hf.
    pose proof (pow2_pos (fexp prec emax (Zdigits2 (Z.pos m) + e))).
    apply Rabs_le. lra.
Qed.

(** ** Multiplication *)

Lemma SFmul_real (x y : spec_float) :
  SFfinite x = true -> SFfinite y = true ->
  Rabs (SF2R x * SF2R y) <= pow2 900 ->
  SFfinite (SFmul prec emax x y) = true
  /\ Rabs (SF2R (SFmul prec emax x y) - SF2R x * SF2R y)
     <= 3 * ulp_bound (SF2R x * SF2R y).
Proof.
  intros Hx Hy Hb.
  pose proof (ulp_bound_pos (SF2R x * SF2R y)) as Hu.
  destruct x as [sx | sx | | sx mx ex]; try discriminate;
    destruct y as [sy | sy | | sy my ey]; try discriminate;
    simpl SFmul; simpl SF2R in *;
    try (split; [ reflexivity | ];
         match goal with
         | |- Rabs ?t <= _ => replace t with 0 by ring
         end; rewrite Rabs_R0; lra).
  assert (E : sgn sx * (IZR (Z.pos mx) * pow2 ex)
              * (sgn sy * (IZR (Z.pos my) * pow2 ey))
              = sgn (xorb sx sy) * (IZR (Z.pos (mx * my)) * pow2 (ex + ey))).
  { rewrite sgn_xorb, Pos2Z.inj_mul, mult_IZR, pow2_add. ring. }
  rewrite E in *. rewrite Rabs_sgn_mul in Hb.
  assert (Hv0 : 0 <= IZR (Z.pos (mx * my)) * pow2 (ex + ey)).
  { pose proof (pow2_pos (ex + ey)).
    assert (0 < IZR (Z.pos (mx * my))) by (apply IZR_lt; lia). nra. }
  rewrite (Rabs_pos_eq _ Hv0) in Hb.
  destruct (round_exact_real (xorb sx sy) (mx * my) (ex + ey) Hb)
    as (Hfin & v & Hval & Herr).
  split; [ exact Hfin | ]. rewrite Hval.
  rewrite <- Rmult_minus_distr_l, Rabs_sgn_mul.
  unfold ulp_bound in *. rewrite Rabs_sgn_mul.
  rewrite (Rabs_pos_eq _ Hv0) in *. exact Herr.
Qed.

(** ** Subtraction *)

(** Aligning a mantissa to a smaller exponent keeps the value. *)
Lemma shl_align_real (m : positive) (e e' : Z) :
  IZR (Z.pos (fst (shl_align m e e'))) * pow2 (snd (shl_align m e e'))
  = IZR (Z.pos m) * pow2 e.
Proof.
  unfold shl_align.
  destruct (e' - e)%Z as [ | d | d] eqn:Ed; simpl fst; simpl snd;
    try reflexivity.
  change (Pos.iter xO m d) with (shift_pos d m).
  rewrite shift_pos_correct, Z.pow_pos_fold, mult_IZR.
  rewrite <- (pow2_IZR (Z.pos d)) by lia.
  replace e with (Z.pos d + e')%Z by lia. rewrite pow2_add. ring.
Qed.

Lemma shl_align_snd (m : positive) (e e' : Z) :
  (e' <= e)%Z -> snd (shl_align m e e') = e'.
Proof.
  intros Hle. unfold shl_align.
  destruct (e' - e)%Z as [ | d | d] eqn:Ed; simpl; lia.
Qed.

Lemma binary_round_real (s : bool) (m : positive) (e : Z) :
  IZR (Z.pos m) * pow2 e <= pow2 900 ->
  SFfinite (binary_round prec emax s m e) = true
  /\ exists v,
       SF2R (binary_round prec emax s m e) = sgn s * v
       /\ Rabs (v - IZR (Z.pos m) * pow2 e)
          <= 3 * ulp_bound (IZR (Z.pos m) * pow2 e).
Proof.
  intros Hv. unfold binary_round.
  pose proof (shl_align_real m e
                (fexp prec emax (Z.pos (digits2_pos m) + e))) as Hal.
  destruct (shl_align m e (fexp prec emax (Z.pos (digits2_pos m) + e)))
    as [mz ez]. simpl in Hal. rewrite <- Hal in *.
  apply round_exact_real. exact Hv.
Qed.

Lemma binary_normalize_real (m e : Z) :
  Rabs (IZR m * pow2 e) <= pow2 900 ->
  SFfinite (binary_normalize prec emax m e false) = true
  /\ Rabs (SF2R (binary_normalize prec emax m e false) - IZR m * pow2 e)
     <= 3 * ulp_bound (IZR m * pow2 e).
Proof.
  intros Hb. pose proof (ulp_bound_pos (IZR m * pow2 e)) as Hu.
  pose proof (pow2_pos e) as He.
  destruct m as [ | p | p]; simpl binary_normalize.
  - split; [ reflexivity | ]. simpl SF2R.
    replace (0 - 0 * pow2 e) with 0 by ring. rewrite Rabs_R0. lra.
  - assert (Hv0 : 0 <= IZR (Z.pos p) * pow2 e).
    { assert (0 < IZR (Z.pos p)) by (apply IZR_lt; lia). nra. }
    rewrite (Rabs_pos_eq _ Hv0) in Hb.
    destruct (binary_round_real false p e Hb) as (Hfin & v & Hval & Herr).
    split; [ exact Hfin | ]. rewrite Hval. simpl sgn.
    replace (1 * v) with v by ring. exact Herr.
  - assert (Hv0 : 0 <= IZR (Z.pos p) * pow2 e).
    { assert (0 < IZR (Z.pos p)) by (apply IZR_lt; lia). nra. }
    assert (En : IZR (Z.neg p) * pow2 e = - (IZR (Z.pos p) * pow2 e)).
    { change (Z.neg p) with (- Z.pos p)%Z. rewrite opp_IZR. ring. }
    rewrite En in *. rewrite Rabs_Ropp, (Rabs_pos_eq _ Hv0) in Hb.
    destruct (binary_round_real true p e Hb) as (Hfin & v & Hval & Herr).
    split; [ exact Hfin | ]. rewrite Hval. simpl sgn.
    replace (-1 * v - - (IZR (Z.pos p) * pow2 e))
      with (- (v - IZR (Z.pos p) * pow2 e)) by ring.
    rewrite Rabs_Ropp. unfold ulp_bound in *. rewrite Rabs_Ropp. exact Herr.
Qed.

Lemma cond_Zopp_real (s : bool) (m : Z) : IZR (cond_Zopp s m) = sgn s * IZR m.
Proof. destruct s; simpl; [ rewrite opp_IZR | ]; ring. Qed.

Lemma SFsub_real (x y : spec_float) :
  SFfinite x = true -> SFfinite y = true ->
  Rabs (SF2R x - SF2R y) <= pow2 900 ->
  SFfinite (SFsub prec emax x y) = true
  /\ Rabs (SF2R (SFsub prec emax x y) - (SF2R x - SF2R y))
     <= 3 * ulp_bound (SF2R x - SF2R y).
Proof.
  intros Hx Hy Hb.
  pose proof (ulp_bound_pos (SF2R x - SF2R y)) as Hu.
  destruct x as [sx | sx | | sx mx ex]; try discriminate;
    destruct y as [sy | sy | | sy my ey]; try discriminate.
  - split; [ destruct sx, sy; reflexivity | ].
    replace (SF2R (SFsub prec emax (S754_zero sx) (S754_zero sy))) with 0
      by (destruct sx, sy; reflexivity).
    simpl SF2R in *. replace (0 - (0 - 0)) with 0 by ring.
    rewrite Rabs_R0. lra.
  - split; [ reflexivity | ]. simpl SFsub. simpl SF2R in *.
    match goal with |- Rabs ?t <= _ => replace t with 0 end;
      [ rewrite Rabs_R0; lra | destruct sy; simpl; ring ].
  - split; [ reflexivity | ]. simpl SFsub. simpl SF2R in *.
    match goal with |- Rabs ?t <= _ => replace t with 0 by ring end.
    rewrite Rabs_R0; lra.
  - simpl SFsub.
    set (ez := Z.min ex ey).
    set (m := (cond_Zopp sx (Z.pos (fst (shl_align mx ex ez)))
               - cond_Zopp sy (Z.pos (fst (shl_align my ey ez))))%Z).
    assert (Em : IZR m * pow2 ez
                 = SF2R (S754_finite sx mx ex) - SF2R (S754_finite sy my ey)).
    { unfold m. rewrite minus_IZR, !cond_Zopp_real. simpl SF2R.
      rewrite <- (shl_align_real mx ex ez), <- (shl_align_real my ey ez).
      rewrite !shl_align_snd by (unfold ez; lia). ring. }
    rewrite <- Em in *. apply binary_normalize_real. exact Hb.
Qed.

(** ** Division *)

Lemma fexp_mono (a b : Z) :
  (a <= b)%Z -> (fexp prec emax a <= fexp prec emax b)%Z.
Proof. rewrite (fexp_eq a), (fexp_eq b). unfold fexp64. lia. Qed.

(** The integer quotient the division starts from: it brackets the real
    quotient, and its exponent is not above the target exponent. *)
Lemma SFdiv_core_spec (mx my : positive) (ex ey : Z) :
  exists q e1 l,
    SFdiv_core_binary prec emax (Z.pos mx) ex (Z.pos my) ey = (q, e1, l)
    /\ (0 <= q)%Z
    /\ (e1 <= fexp prec emax (Zdigits2 q + e1))%Z
    /\ (q = 0%Z -> (e1 <= -1074)%Z)
    /\ IZR q * pow2 e1
       <= (IZR (Z.pos mx) * pow2 ex) / (IZR (Z.pos my) * pow2 ey)
       < IZR (q + 1) * pow2 e1.
Proof.
  unfold SFdiv_core_binary.
  set (d1 := Zdigits2 (Z.pos mx)). set (d2 := Zdigits2 (Z.pos my)).
  set (L := (d1 + ex - (d2 + ey))%Z).
  set (e1 := Z.min (fexp prec emax L) (ex - ey)).
  set (s := (ex - ey - e1)%Z).
  assert (Hs : (0 <= s)%Z) by (unfold s, e1; lia).
  set (m1 := match s with
             | 0%Z => Z.pos mx
             | Z.pos _ => Z.shiftl (Z.pos mx) s
             | Z.neg _ => 0%Z
             end).
  assert (Em1 : m1 = (Z.pos mx * 2 ^ s)%Z).
  { unfold m1. destruct s as [ | p | p] eqn:Es; try lia.
    rewrite Z.shiftl_mul_pow2 by lia. reflexivity. }
  pose proof (Z_div_mod m1 (Z.pos my) ltac:(lia)) as Hdiv.
  destruct (Z.div_eucl m1 (Z.pos my)) as [q r]. destruct Hdiv as [Hqr Hr].
  pose proof (pow2_gt0 s Hs) as Hps.
  assert (Hq : (0 <= q)%Z) by nia.
  pose proof (Zdigits2_ge (Z.pos mx) ltac:(lia)) as Hd1.
  pose proof (Zdigits2_lt (Z.pos my) ltac:(lia)) as Hd2.
  fold d1 in Hd1. fold d2 in Hd2.
  assert (Hd1' : (1 <= d1)%Z) by (unfold d1; simpl; lia).
  assert (Hd2' : (1 <= d2)%Z) by (unfold d2; simpl; lia).
  assert (Hm1 : (2 ^ (d1 - 1 + s) <= m1)%Z).
  { rewrite Em1, Z.pow_add_r by lia. nia. }
  assert (HL : L = (d1 - d2 + s + e1)%Z) by (unfold L, s; lia).
  exists q, e1, (new_location (Z.pos my) r).
  split; [ reflexivity | ]. split; [ exact Hq | ].
  assert (Hzero : q = 0%Z -> (e1 <= -1074)%Z).
  { intros ->.
    assert (Hlt : (2 ^ (d1 - 1 + s) < 2 ^ d2)%Z) by lia.
    apply Z.pow_lt_mono_r_iff in Hlt; [ | lia | lia ].
    assert (He1 : (e1 <= fexp prec emax L)%Z) by (unfold e1; lia).
    rewrite fexp_eq in He1. unfold fexp64 in He1. lia. }
  split; [ | split; [ exact Hzero | ] ].
  - destruct (Z.eq_dec q 0) as [-> | Hne].
    + specialize (Hzero eq_refl). simpl Zdigits2.
      rewrite fexp_eq. unfold fexp64. lia.
    + apply Z.le_trans with (fexp prec emax L); [ unfold e1; lia | ].
      apply fexp_mono. rewrite HL.
      pose proof (Zdigits2_lt q Hq) as Hdq.
      pose proof (Zdigits2_nonneg q) as Hdq0.
      destruct (Z_le_gt_dec (d1 - d2 + s) (Zdigits2 q)) as [ | Hgt]; [ lia | ].
      exfalso.
      assert (Hj : (2 ^ Zdigits2 q <= 2 ^ (d1 - d2 + s - 1))%Z)
        by (apply Z.pow_le_mono_r; lia).
      assert (Hsplit : (2 ^ (d1 - 1 + s) = 2 ^ (d1 - d2 + s - 1) * 2 ^ d2)%Z).
      { rewrite <- Z.pow_add_r by lia. f_equal. lia. }
      pose proof (pow2_gt0 (d1 - d2 + s - 1) ltac:(lia)).
      nia.
  - pose proof (pow2_pos e1) as He1. pose proof (pow2_pos ey) as Hey.
    assert (Hmy : 0 < IZR (Z.pos my)) by (apply IZR_lt; lia).
    assert (Et : IZR (Z.pos mx) * pow2 ex / (IZR (Z.pos my) * pow2 ey)
                 = IZR m1 * pow2 e1 / IZR (Z.pos my)).
    { rewrite Em1, mult_IZR, <- (pow2_IZR s) by lia.
      replace ex with (s + e1 + ey)%Z by (unfold s; lia).
      rewrite !pow2_add. field. split; lra. }
    rewrite Et.
    assert (Hlo : IZR (Z.pos my * q) <= IZR m1) by (apply IZR_le; lia).
    assert (Hhi : IZR m1 < IZR (Z.pos my * (q + 1))) by (apply IZR_lt; lia).
    rewrite mult_IZR in Hlo, Hhi.
    assert (Ht : IZR m1 * pow2 e1 / IZR (Z.pos my) * IZR (Z.pos my)
                 = IZR m1 * pow2 e1) by (field; lra).
    split.
    + apply Rmult_le_reg_r with (IZR (Z.pos my)); [ exact Hmy | ].
      rewrite Ht. nra.
    + apply Rmult_lt_reg_r with (IZR (Z.pos my)); [ exact Hmy | ].
      rewrite Ht. nra.
Qed.

Lemma ulp_bound_mono (a b : R) : 0 <= a <= b -> ulp_bound a <= ulp_bound b.
Proof.
  intros [Ha Hab]. unfold ulp_bound.
  rewrite !Rabs_pos_eq by lra. pose proof (pow2_pos (-52)). nra.
Qed.

Lemma sgn_inv (s : bool) : / sgn s = sgn s.
Proof. destruct s; simpl; lra. Qed.

Lemma sgn_neq_0 (s : bool) : sgn s <> 0.
Proof. destruct s; simpl; lra. Qed.

Lemma SFdiv_real (x y : spec_float) :
  SFfinite x = true -> SFfinite y = true ->
  SF2R y <> 0 ->
  Rabs (SF2R x / SF2R y) <= pow2 900 ->
  SFfinite (SFdiv prec emax x y) = true
  /\ Rabs (SF2R (SFdiv prec emax x y) - SF2R x / SF2R y)
     <= 4 * ulp_bound (SF2R x / SF2R y).
Proof.
  intros Hx Hy Hy0 Hb.
  pose proof (ulp_bound_pos (SF2R x / SF2R y)) as Hu.
  destruct y as [sy | sy | | sy my ey]; try discriminate;
    [ exfalso; apply Hy0; reflexivity | ].
  destruct x as [sx | sx | | sx mx ex]; try discriminate.
  - split; [ reflexivity | ]. simpl SFdiv. simpl SF2R in *.
    match goal with |- Rabs ?t <= _ => replace t with 0 end;
      [ rewrite Rabs_R0; lra | unfold Rdiv; ring ].
  - simpl SFdiv.
    destruct (SFdiv_core_spec mx my ex ey)
      as (q & e1 & l & -> & Hq & He1 & Hzero & Hlo & Hhi).
    set (t := IZR (Z.pos mx) * pow2 ex / (IZR (Z.pos my) * pow2 ey)) in *.
    assert (Hmy : 0 < IZR (Z.pos my) * pow2 ey).
    { pose proof (pow2_pos ey).
      assert (0 < IZR (Z.pos my)) by (apply IZR_lt; lia). nra. }
    assert (Et : SF2R (S754_finite sx mx ex) / SF2R (S754_finite sy my ey)
                 = sgn (xorb sx sy) * t).
    { simpl SF2R. rewrite sgn_xorb. unfold t, Rdiv.
      rewrite Rinv_mult, sgn_inv. ring. }
    rewrite Et in *. rewrite Rabs_sgn_mul in Hb.
    pose proof (pow2_pos e1) as Hpe1.
    assert (Hq0 : 0 <= IZR q * pow2 e1) by (apply IZR_le in Hq; nra).
    assert (Ht0 : 0 <= t) by lra.
    rewrite (Rabs_pos_eq _ Ht0) in Hb.
    assert (Hov : (Z.max e1 (fexp prec emax (Zdigits2 q + e1)) <= 970)%Z).
    { destruct (Z.eq_dec q 0) as [-> | Hne].
      - specialize (Hzero eq_refl). simpl Zdigits2.
        rewrite fexp_eq. unfold fexp64. lia.
      - apply exponent_in_range; [ lia | lra ]. }
    destruct (binary_round_aux_real (xorb sx sy) q e1 l Hq Hov)
      as (v & Hv0 & Hfin & Hval & [Hvlo Hvhi] & _).
    rewrite Z.max_r in Hvlo, Hvhi by exact He1.
    split; [ exact Hfin | ]. rewrite Hval.
    rewrite <- Rmult_minus_distr_l, Rabs_sgn_mul.
    unfold ulp_bound in Hu |- *. rewrite Rabs_sgn_mul. fold (ulp_bound t) in Hu |- *.
    assert (Hf : pow2 (fexp prec emax (Zdigits2 q + e1)) <= ulp_bound t).
    { destruct (Z.eq_dec q 0) as [-> | Hne].
      - specialize (Hzero eq_refl). simpl Zdigits2.
        rewrite fexp_eq. unfold fexp64. rewrite Z.max_r by lia.
        unfold ulp_bound. pose proof (pow2_pos (-52)).
        pose proof (Rabs_pos t). nra.
      - apply Rle_trans with (ulp_bound (IZR q * pow2 e1)).
        + apply pow2_fexp_le. lia.
        + apply ulp_bound_mono. lra. }
    assert (Hle : pow2 e1 <= pow2 (fexp prec emax (Zdigits2 q + e1)))
      by (apply pow2_le; exact He1).
    rewrite plus_IZR in Hhi.
    apply Rabs_le. lra.
Qed.

(** ** Primitive floats *)

Lemma mul_real (x y : float) :
  finite x -> finite y -> Rabs (B2R x * B2R y) <= pow2 900 ->
  finite (x * y)
  /\ Rabs (B2R (x * y) - B2R x * B2R y) <= 4 * ulp_bound (B2R x * B2R y).
Proof.
  unfold finite, B2R. intros Hx Hy Hb. rewrite mul_spec.
  destruct (SFmul_real _ _ Hx Hy Hb) as [Hf He].
  split; [ exact Hf | ].
  pose proof (ulp_bound_pos (SF2R (Prim2SF x) * SF2R (Prim2SF y))).
  unfold SF64mul. lra.
Qed.

Lemma sub_real (x y : float) :
  finite x -> finite y -> Rabs (B2R x - B2R y) <= pow2 900 ->
  finite (x - y)
  /\ Rabs (B2R (x - y) - (B2R x - B2R y)) <= 4 * ulp_bound (B2R x - B2R y).
Proof.
  unfold finite, B2R. intros Hx Hy Hb. rewrite sub_spec.
  destruct (SFsub_real _ _ Hx Hy Hb) as [Hf He].
  split; [ exact Hf | ].
  pose proof (ulp_bound_pos (SF2R (Prim2SF x) - SF2R (Prim2SF y))).
  unfold SF64sub. lra.
Qed.

Lemma div_real (x y : float) :
  finite x -> finite y -> B2R y <> 0 ->
  Rabs (B2R x / B2R y) <= pow2 900 ->
  finite (x / y)
  /\ Rabs (B2R (x / y) - B2R x / B2R y) <= 4 * ulp_bound (B2R x / B2R y).
Proof.
  unfold finite, B2R. intros Hx Hy Hy0 Hb. rewrite div_spec.
  exact (SFdiv_real _ _ Hx Hy Hy0 Hb).
Qed.

(** ** Constants and ranges *)

Lemma Rabs_bounds (a b : R) : Rabs a <= b -> - b <= a <= b.
Proof. unfold Rabs. destruct (Rcase_abs a); lra. Qed.

Lemma pow2_neg_cancel (k n : Z) :
  (0 <= n)%Z -> IZR (k * 2 ^ n) * pow2 (- n) = IZR k.
Proof.
  intros Hn. rewrite mult_IZR, <- (pow2_IZR n Hn), Rmult_assoc, <- pow2_add.
  replace (n + - n)%Z with 0%Z by lia. unfold pow2. simpl. ring.
Qed.

Lemma B2R_100 : B2R 100 = 100.
Proof.
  unfold B2R.
  change (Prim2SF 100) with (S754_finite false 7036874417766400 (-46)).
  pose proof (pow2_neg_cancel 100 46 ltac:(lia)) as H.
  change (100 * 2 ^ 46)%Z with 7036874417766400%Z in H.
  change (- (46))%Z with (-46)%Z in H.
  simpl SF2R. rewrite H. simpl. ring.
Qed.

Lemma B2R_1 : B2R 1 = 1.
Proof.
  unfold B2R.
  change (Prim2SF 1) with (S754_finite false 4503599627370496 (-52)).
  pose proof (pow2_neg_cancel 1 52 ltac:(lia)) as H.
  change (1 * 2 ^ 52)%Z with 4503599627370496%Z in H.
  change (- (52))%Z with (-52)%Z in H.
  simpl SF2R. rewrite H. simpl. ring.
Qed.


Lemma finite_100 : finite 100.
Proof. reflexivity. Qed.

Lemma finite_1 : finite 1.
Proof. reflexivity. Qed.

(** The unit roundoff is far below the tolerance at stake. *)
Lemma pow2_m52_small : 0 < pow2 (-52) <= 1 / 1000000000000000.
Proof.
  split; [ apply pow2_pos | ].
  pose proof (pow2_neg_cancel 1 52 ltac:(lia)) as H.
  change (1 * 2 ^ 52)%Z with 4503599627370496%Z in H.
  change (- (52))%Z with (-52)%Z in H.
  pose proof (pow2_pos (-52)). lra.
Qed.

Lemma pow2_900_large : 1000000 <= pow2 900.
Proof.
  apply Rle_trans with (pow2 20); [ | apply pow2_le; lia ].
  rewrite pow2_IZR by lia. change (2 ^ 20)%Z with 1048576%Z. lra.
Qed.

Lemma ulp_bound_le (v B : R) :
  Rabs v <= B -> 4 * ulp_bound v <= 4 * pow2 (-52) * (B + 1).
Proof.
  intros Hv. unfold ulp_bound.
  assert (pow2 (-1074) <= pow2 (-52)) by (apply pow2_le; lia).
  pose proof (pow2_pos (-52)). pose proof (Rabs_pos v). nra.
Qed.

(** A valid mantissa has at most 53 bits. *)
Lemma valid_mantissa (s : bool) (m : positive) (e : Z) :
  valid_binary (S754_finite s m e) = true -> (Z.pos m < 2 ^ 53)%Z.
Proof.
  unfold valid_binary, bounded, canonical_mantissa. intros H.
  apply andb_prop in H. destruct H as [H _]. apply Z.eqb_eq in H.
  rewrite fexp_eq in H. unfold fexp64 in H.
  pose proof (Zdigits2_lt (Z.pos m) ltac:(lia)) as Hlt.
  change (Zdigits2 (Z.pos m)) with (Z.pos (digits2_pos m)) in Hlt.
  apply Z.lt_le_trans with (1 := Hlt). apply Z.pow_le_mono_r; lia.
Qed.

(** [<=] between two positive finite numbers, read on exponents and
    mantissas. *)
Lemma SFleb_positive (m m' : positive) (e e' : Z) :
  SFleb (S754_finite false m e) (S754_finite false m' e') = true ->
  (e < e')%Z \/ (e = e' /\ (Z.pos m <= Z.pos m')%Z).
Proof.
  unfold SFleb, SFcompare.
  destruct (Z.compare_spec e e') as [-> | Hlt | Hgt]; try discriminate.
  - change (PosDef.Pos.compare_cont Eq m m') with (Pos.compare m m').
    destruct (Pos.compare_spec m m'); try discriminate; intros _; right;
      split; try reflexivity; lia.
  - intros _. left. exact Hlt.
Qed.

(** A float between 0 and 1 in the sense of [<=?] is finite and has a
    value between 0 and 1. *)
Lemma unit_range (c : float) :
  (0 <=? c)%float = true -> (c <=? 1)%float = true ->
  finite c /\ 0 <= B2R c <= 1.
Proof.
  rewrite !leb_spec. unfold finite, B2R.
  pose proof (Prim2SF_valid c) as Hvalid.
  change (Prim2SF 0) with (S754_zero false).
  change (Prim2SF 1) with (S754_finite false 4503599627370496 (-52)).
  destruct (Prim2SF c) as [s | s | | s m e].
  - intros _ _. unfold SF2R. split; [ reflexivity | lra ].
  - destruct s; discriminate.
  - discriminate.
  - destruct s; [ discriminate | ]. intros _ Hle.
    apply SFleb_positive in Hle.
    split; [ reflexivity | ].
    pose proof (valid_mantissa false m e Hvalid) as Hm.
    pose proof (pow2_pos e) as He.
    assert (Hm0 : 0 < IZR (Z.pos m)) by (apply IZR_lt; lia).
    unfold SF2R, sgn. split; [ nra | ].
    destruct Hle as [Hlt | [-> Hm52]].
    + assert (pow2 e <= pow2 (-53)) by (apply pow2_le; lia).
      pose proof (pow2_neg_cancel 1 53 ltac:(lia)) as H1.
      change (1 * 2 ^ 53)%Z with 9007199254740992%Z in H1.
      change (- (53))%Z with (-53)%Z in H1.
      change (2 ^ 53)%Z with 9007199254740992%Z in Hm.
      apply IZR_lt in Hm. pose proof (pow2_pos (-53)). nra.
    + apply IZR_le in Hm52.
      pose proof (pow2_neg_cancel 1 52 ltac:(lia)) as H1.
      change (1 * 2 ^ 52)%Z with 4503599627370496%Z in H1.
      change (- (52))%Z with (-52)%Z in H1.
      pose proof (pow2_pos (-52)). nra.
Qed.

(** ** The two percentages *)

(** One operation whose exact result [v] is known to lie within [B]:
    the computed value is off by at most [4 * 2^-52 * (B + 1)]. *)
Lemma op_error (got v B : R) :
  Rabs v <= B ->
  Rabs (got - v) <= 4 * ulp_bound v ->
  - (4 * pow2 (-52) * (B + 1)) <= got - v <= 4 * pow2 (-52) * (B + 1).
Proof.
  intros Hv He. pose proof (ulp_bound_le v B Hv).
  apply Rabs_bounds in He. lra.
Qed.

Lemma below_2_900 (v B : R) : Rabs v <= B -> B <= 1000000 -> Rabs v <= pow2 900.
Proof. pose proof pow2_900_large. lra. Qed.

(** [c * 100] for [c] in [[0,1]]. *)
Lemma scaled_range (c : float) :
  finite c -> 0 <= B2R c <= 1 ->
  finite (c * 100) /\ -1 <= B2R (c * 100) <= 101.
Proof.
  intros Hc Hr. pose proof pow2_m52_small as Hu.
  assert (Hv : Rabs (B2R c * B2R 100) <= 100)
    by (rewrite B2R_100; apply Rabs_le; lra).
  destruct (mul_real c 100 Hc finite_100 (below_2_900 _ _ Hv ltac:(lra)))
    as [Hf He].
  split; [ exact Hf | ].
  pose proof (op_error _ _ _ Hv He) as Hb. rewrite B2R_100 in Hb. lra.
Qed.

(** [(1 - c) * 100] for [c] in [[0,1]]. *)
Lemma complement_scaled_range (c : float) :
  finite c -> 0 <= B2R c <= 1 ->
  finite ((1 - c) * 100) /\ -1 <= B2R ((1 - c) * 100) <= 101.
Proof.
  intros Hc Hr. pose proof pow2_m52_small as Hu.
  assert (Hv1 : Rabs (B2R 1 - B2R c) <= 1)
    by (rewrite B2R_1; apply Rabs_le; lra).
  destruct (sub_real 1 c finite_1 Hc (below_2_900 _ _ Hv1 ltac:(lra)))
    as [Hf1 He1].
  pose proof (op_error _ _ _ Hv1 He1) as Hb1. rewrite B2R_1 in Hb1.
  assert (Hv2 : Rabs (B2R (1 - c) * B2R 100) <= 101)
    by (rewrite B2R_100; apply Rabs_le; lra).
  destruct (mul_real (1 - c) 100 Hf1 finite_100
              (below_2_900 _ _ Hv2 ltac:(lra))) as [Hf2 He2].
  split; [ exact Hf2 | ].
  pose proof (op_error _ _ _ Hv2 He2) as Hb2. rewrite B2R_100 in Hb2. lra.
Qed.

(** For an AI percentage [a] within [[-1,101]], the real percentage
    computed as [(100 - a) / 100 * 100] complements it to 100 up to a
    few rounding errors. *)
Lemma complement_sum (a : float) :
  finite a -> -1 <= B2R a <= 101 ->
  finite ((100 - a) / 100 * 100)
  /\ Rabs (B2R a + B2R ((100 - a) / 100 * 100) - 100) <= 1 / 10000.
Proof.
  intros Ha Hr. pose proof pow2_m52_small as Hu.
  assert (H100 : B2R 100 <> 0) by (rewrite B2R_100; lra).
  assert (Hv1 : Rabs (B2R 100 - B2R a) <= 101)
    by (rewrite B2R_100; apply Rabs_le; lra).
  destruct (sub_real 100 a finite_100 Ha (below_2_900 _ _ Hv1 ltac:(lra)))
    as [Hf1 He1].
  pose proof (op_error _ _ _ Hv1 He1) as Hb1. rewrite B2R_100 in Hb1.
  assert (Hv2 : Rabs (B2R (100 - a) / B2R 100) <= 2)
    by (rewrite B2R_100; apply Rabs_le; lra).
  destruct (div_real (100 - a) 100 Hf1 finite_100 H100
              (below_2_900 _ _ Hv2 ltac:(lra))) as [Hf2 He2].
  pose proof (op_error _ _ _ Hv2 He2) as Hb2. rewrite B2R_100 in Hb2.
  assert (Hv3 : Rabs (B2R ((100 - a) / 100) * B2R 100) <= 300)
    by (rewrite B2R_100; apply Rabs_le; lra).
  destruct (mul_real ((100 - a) / 100) 100 Hf2 finite_100
              (below_2_900 _ _ Hv3 ltac:(lra))) as [Hf3 He3].
  pose proof (op_error _ _ _ Hv3 He3) as Hb3. rewrite B2R_100 in Hb3.
  split; [ exact Hf3 | ]. apply Rabs_le. lra.
Qed.

End Binary64Facts.

(* ===================================================================== *)
(** * Result.jsx: derived probabilities and reliability *)
(* ===================================================================== *)

Module ResultFacts.

Local Open Scope float_scope.

Section WithEngine.
Context `{Engine}.

(** Reading a property of an object never throws. *)
Lemma get_object (props : list (string * JsVal)) (k : string) :
  get (JObj props) k = Normal (get_opt (JObj props) k).
Proof. reflexivity. Qed.

(** Reading a property of any value that is neither [undefined] nor
    [null] never throws. *)
Lemma get_non_nullish (v : JsVal) (k : string) :
  nullish v = false -> get v k = Normal (get_opt v k).
Proof. destruct v; simpl; intros; congruence || reflexivity. Qed.

Lemma truthy_non_nullish (v : JsVal) : ToBoolean v = true -> nullish v = false.
Proof. destruct v; simpl; intros; congruence || reflexivity. Qed.

(** [ToNumber] completes exactly on the values that convert to a
    primitive. *)
Lemma ToNumber_coercible (v : JsVal) :
  coercible v = true -> ToNumber v = Normal (numberOf v).
Proof. unfold ToNumber. intros ->. reflexivity. Qed.

Lemma ToNumber_throws (v : JsVal) :
  coercible v = false -> ToNumber v = Throw conversionError.
Proof. unfold ToNumber. intros ->. reflexivity. Qed.

Lemma ToNumber_cases (v : JsVal) :
  ToNumber v = Normal (numberOf v) \/ ToNumber v = Throw conversionError.
Proof. unfold ToNumber. destruct (coercible v); [ left | right ]; reflexivity. Qed.

Lemma ToNumber_normal (v : JsVal) (n : float) :
  ToNumber v = Normal n -> coercible v = true /\ n = numberOf v.
Proof.
  unfold ToNumber. destruct (coercible v); [ | discriminate ].
  intros [= <-]. split; reflexivity.
Qed.

Lemma nullish_coercible (v : JsVal) : nullish v = true -> coercible v = true.
Proof. destruct v; simpl; intros; congruence || reflexivity. Qed.

(** The fields of a result that meets the contract. *)
Lemma analysisResult_fields (r : JsVal) :
  isAnalysisResult r = true ->
  exists props b c,
    r = JObj props
    /\ get_opt r "is_ai" = JBool b
    /\ get_opt r "confidence" = JNum c
    /\ (0 <=? c) = true /\ (c <=? 1) = true
    /\ isOptionalNumber (get_opt r "ai_probability") = true
    /\ isOptionalNumber (get_opt r "real_probability") = true.
Proof.
  destruct r as [ | | | | | | props]; try discriminate.
  unfold isAnalysisResult.
  intros Hr. repeat (apply andb_prop in Hr; destruct Hr as [Hr ?]).
  destruct (get_opt (JObj props) "is_ai") as [ | | b | | | | ]; try discriminate.
  destruct (get_opt (JObj props) "confidence") as [ | | | c | | | ]; try discriminate.
  match goal with
  | Hc : isUnitNumber (JNum c) = true |- _ =>
      simpl in Hc; apply andb_prop in Hc; destruct Hc
  end.
  exists props, b, c. repeat split; assumption.
Qed.

(** The optional parts of a result that meets the contract. *)
Lemma analysisResult_blocks (r : JsVal) :
  isAnalysisResult r = true ->
  isString (get_opt r "label") = true
  /\ (forall k, In k [ "sampled_frames"; "ai_frames"; "real_frames";
                       "sample_interval_sec"; "duration_seconds" ] ->
                isOptionalNumber (get_opt r k) = true)
  /\ isOptionalVerdict (get_opt r "grok") = true
  /\ isOptionalEnsemble (get_opt r "ensemble") = true.
Proof.
  destruct r as [ | | | | | | props]; try discriminate.
  unfold isAnalysisResult.
  intros Hr. repeat (apply andb_prop in Hr; destruct Hr as [Hr ?]).
  repeat split; try assumption.
  match goal with
  | Hf : forallb _ _ = true |- _ =>
      rewrite forallb_forall in Hf; exact Hf
  end.
Qed.

Lemma optionalNumber_coercible (v : JsVal) :
  isOptionalNumber v = true -> coercible v = true /\ validChild v = true.
Proof.
  unfold isOptionalNumber.
  destruct v; simpl; intros; split; congruence || reflexivity.
Qed.

Lemma string_validChild (v : JsVal) : isString v = true -> validChild v = true.
Proof. destruct v; simpl; intros; congruence || reflexivity. Qed.

(** A verdict block that meets the contract, when it is rendered. *)
Lemma optionalVerdict_truthy (g : JsVal) :
  isOptionalVerdict g = true -> ToBoolean g = true ->
  coercible (get_opt g "confidence") = true
  /\ validChild (get_opt g "label") = true.
Proof.
  unfold isOptionalVerdict.
  destruct g as [ | | | | | | props]; simpl nullish; simpl orb;
    try discriminate.
  intros Hg _. apply andb_prop in Hg. destruct Hg as [Hl Hc].
  split; [ | apply string_validChild; exact Hl ].
  destruct (get_opt (JObj props) "confidence"); try discriminate.
  reflexivity.
Qed.

Lemma optionalEnsemble_truthy (g : JsVal) :
  isOptionalEnsemble g = true -> ToBoolean g = true ->
  coercible (get_opt g "confidence") = true
  /\ validChild (get_opt g "label") = true.
Proof.
  unfold isOptionalEnsemble.
  destruct g as [ | | | | | | props]; simpl nullish; simpl orb;
    try discriminate.
  intros Hg _. apply andb_prop in Hg. destruct Hg as [Hg _].
  apply andb_prop in Hg. destruct Hg as [Hl Hc].
  split; [ | apply string_validChild; exact Hl ].
  destruct (get_opt (JObj props) "confidence"); try discriminate.
  reflexivity.
Qed.

(** The operands of a result that meets the contract all convert. *)
Lemma analysisResult_operands (r : JsVal) :
  isAnalysisResult r = true -> forallb coercible (operands r) = true.
Proof.
  intros Hr.
  destruct (analysisResult_fields r Hr)
    as (props & b & c & -> & _ & Hc & _ & _ & Hai & Hreal).
  destruct (analysisResult_blocks _ Hr) as (_ & _ & Hg & He).
  unfold operands. rewrite forallb_app. cbn [forallb].
  rewrite (proj1 (optionalNumber_coercible _ Hai)),
    (proj1 (optionalNumber_coercible _ Hreal)), Hc.
  cbn [coercible andb].
  destruct (ToBoolean (get_opt (JObj props) "grok")) eqn:Eg; [ | reflexivity ].
  cbn [forallb].
  rewrite (proj1 (optionalVerdict_truthy _ Hg Eg)). cbn [andb].
  destruct (ToBoolean (get_opt (JObj props) "ensemble")) eqn:Ee;
    [ | reflexivity ].
  cbn [forallb].
  rewrite (proj1 (optionalEnsemble_truthy _ He Ee)). reflexivity.
Qed.

(** Reading the five video fields never throws once [result] can be
    read at all. *)
Lemma videoDetailsOf_total (r : JsVal) :
  nullish r = false ->
  videoDetailsOf r
  = Normal {| sampled_frames := get_opt r "sampled_frames";
              ai_frames := get_opt r "ai_frames";
              real_frames := get_opt r "real_frames";
              sample_interval_sec := get_opt r "sample_interval_sec";
              duration_seconds := get_opt r "duration_seconds" |}.
Proof.
  intros Hr. unfold videoDetailsOf.
  rewrite !(get_non_nullish r) by exact Hr. reflexivity.
Qed.

(** The ensemble line: absent when [ensemble] is falsy, and otherwise
    there exactly when [ensemble.confidence] converts. *)
Lemma ensembleOf_eq (r : JsVal) :
  nullish r = false ->
  ensembleOf r
  = if ToBoolean (get_opt r "ensemble")
    then n <- ToNumber (get_opt (get_opt r "ensemble") "confidence") ;;
         Normal (Some {| ensembleLabel := get_opt (get_opt r "ensemble") "label";
                         ensembleConfidence := n * 100;
                         agreement :=
                           ToBoolean (get_opt (get_opt r "ensemble") "agreement") |})
    else Normal None.
Proof.
  intros Hr. unfold ensembleOf.
  rewrite !(get_non_nullish r) by exact Hr. simpl bind.
  destruct (ToBoolean (get_opt r "ensemble")) eqn:Ee; [ | reflexivity ].
  rewrite !(get_non_nullish (get_opt r "ensemble"))
    by (apply truthy_non_nullish; exact Ee).
  simpl bind.
  destruct (ToNumber (get_opt (get_opt r "ensemble") "confidence"));
    reflexivity.
Qed.

Lemma grokBlockOf_eq (r : JsVal) :
  nullish r = false -> ToBoolean (get_opt r "grok") = true ->
  grokBlockOf r
  = (n <- ToNumber (get_opt (get_opt r "grok") "confidence") ;;
     e <- ensembleOf r ;;
     Normal {| grokLabel := get_opt (get_opt r "grok") "label";
               grokConfidence := n * 100;
               ensemble := e |}).
Proof.
  intros Hr Hg. unfold grokBlockOf.
  rewrite !(get_non_nullish r) by exact Hr. simpl bind.
  rewrite !(get_non_nullish (get_opt r "grok"))
    by (apply truthy_non_nullish; exact Hg).
  reflexivity.
Qed.

(** The three numbers, on a [result] that can be read. *)
Lemma aiProbabilityOf_eq (r : JsVal) :
  nullish r = false ->
  aiProbabilityOf r =
  (chosen <- (if nullish (get_opt r "ai_probability")
              then if ToBoolean (get_opt r "is_ai")
                   then Normal (get_opt r "confidence")
                   else c <- ToNumber (get_opt r "confidence") ;;
                        Normal (JNum (1 - c))
              else Normal (get_opt r "ai_probability")) ;;
   n <- ToNumber chosen ;;
   Normal (n * 100)).
Proof.
  intros Hr. unfold aiProbabilityOf.
  rewrite !(get_non_nullish r) by exact Hr. simpl bind.
  destruct (nullish (get_opt r "ai_probability")); reflexivity.
Qed.

Lemma realProbabilityOf_eq (r : JsVal) (ai : float) :
  nullish r = false ->
  realProbabilityOf r ai =
  (n <- ToNumber (if nullish (get_opt r "real_probability")
                  then JNum ((100 - ai) / 100)
                  else get_opt r "real_probability") ;;
   Normal (n * 100)).
Proof.
  intros Hr. unfold realProbabilityOf.
  rewrite !(get_non_nullish r) by exact Hr. reflexivity.
Qed.

Lemma confidenceValueOf_eq (r : JsVal) :
  nullish r = false ->
  confidenceValueOf r
  = (n <- ToNumber (get_opt r "confidence") ;; Normal (n * 100)).
Proof.
  intros Hr. unfold confidenceValueOf.
  rewrite !(get_non_nullish r) by exact Hr. reflexivity.
Qed.

(** The numbers and the blocks of a view that [Result] returned. *)
Lemma Result_inv (r : JsVal) (v : View) :
  Result r = Normal v ->
  nullish r = false
  /\ aiProbabilityOf r = Normal (aiProbability v)
  /\ realProbabilityOf r (aiProbability v) = Normal (realProbability v)
  /\ confidenceValueOf r = Normal (confidenceValue v)
  /\ reliability v = getReliability (confidenceValue v)
  /\ isAiGenerated v = ToBoolean (get_opt r "is_ai")
  /\ label v = get_opt r "label"
  /\ isVideo v = strict_eq_str (get_opt r "input_type") "video"
  /\ hasGrok v = ToBoolean (get_opt r "grok")
  /\ videoDetails v
     = (if strict_eq_str (get_opt r "input_type") "video"
        then Some {| sampled_frames := get_opt r "sampled_frames";
                     ai_frames := get_opt r "ai_frames";
                     real_frames := get_opt r "real_frames";
                     sample_interval_sec := get_opt r "sample_interval_sec";
                     duration_seconds := get_opt r "duration_seconds" |}
        else None)
  /\ (if ToBoolean (get_opt r "grok")
      then exists g, grokBlockOf r = Normal g /\ grokBlock v = Some g
      else grokBlock v = None).
Proof.
  intros Hv.
  assert (Hr : nullish r = false)
    by (destruct r; try reflexivity; discriminate).
  split; [ exact Hr | ]. unfold Result in Hv.
  rewrite !(get_non_nullish r) in Hv by exact Hr. simpl bind in Hv.
  rewrite (videoDetailsOf_total r Hr) in Hv.
  destruct (aiProbabilityOf r) as [ai | ] eqn:Ea; [ | discriminate ].
  simpl bind in Hv.
  destruct (realProbabilityOf r ai) as [re | ] eqn:Er; [ | discriminate ].
  simpl bind in Hv.
  destruct (confidenceValueOf r) as [cf | ] eqn:Ec; [ | discriminate ].
  simpl bind in Hv.
  destruct (strict_eq_str (get_opt r "input_type") "video") eqn:Ev;
    simpl bind in Hv;
    (destruct (ToBoolean (get_opt r "grok")) eqn:Eg;
     [ destruct (grokBlockOf r) as [g | ] eqn:Egb; [ | discriminate ] | ]);
    simpl bind in Hv; injection Hv as <-; cbn;
    repeat (split; [ first [ reflexivity | assumption ] | ]);
    first [ reflexivity | eauto ].
Qed.

(** [Result] completes normally on a [result] that is neither
    [undefined] nor [null] exactly when each of its operands converts;
    otherwise the arithmetic throws. *)
Lemma Result_total (r : JsVal) :
  nullish r = false ->
  forallb coercible (operands r) = true ->
  exists v, Result r = Normal v.
Proof.
  intros Hr Hop. unfold operands in Hop.
  rewrite forallb_app in Hop. cbn [forallb] in Hop.
  apply andb_prop in Hop. destruct Hop as [Hnum Hblk].
  apply andb_prop in Hnum. destruct Hnum as [Hai Hnum].
  apply andb_prop in Hnum. destruct Hnum as [Hreal Hnum].
  apply andb_prop in Hnum. destruct Hnum as [Hc _].
  unfold Result.
  rewrite (aiProbabilityOf_eq r Hr).
  rewrite !(get_non_nullish r) by exact Hr. simpl bind.
  rewrite (ToNumber_coercible _ Hc).
  assert (Hch : exists n,
             (chosen <- (if nullish (get_opt r "ai_probability")
                         then if ToBoolean (get_opt r "is_ai")
                              then Normal (get_opt r "confidence")
                              else c <- Normal (numberOf (get_opt r "confidence")) ;;
                                   Normal (JNum (1 - c))
                         else Normal (get_opt r "ai_probability")) ;;
              n <- ToNumber chosen ;; Normal (n * 100)) = Normal n).
  { destruct (nullish (get_opt r "ai_probability")).
    - destruct (ToBoolean (get_opt r "is_ai")); simpl bind.
      + rewrite (ToNumber_coercible _ Hc). simpl. eauto.
      + simpl. eauto.
    - simpl bind. rewrite (ToNumber_coercible _ Hai). simpl. eauto. }
  destruct Hch as [ai ->]. simpl bind.
  rewrite (realProbabilityOf_eq r _ Hr), (confidenceValueOf_eq r Hr).
  assert (Hre : coercible (if nullish (get_opt r "real_probability")
                           then JNum ((100 - ai) / 100)
                           else get_opt r "real_probability") = true)
    by (destruct (nullish (get_opt r "real_probability"));
        [ reflexivity | exact Hreal ]).
  rewrite (ToNumber_coercible _ Hre), (ToNumber_coercible _ Hc).
  simpl bind.
  assert (Hvd : exists o, (if strict_eq_str (get_opt r "input_type") "video"
                           then v <- videoDetailsOf r ;; Normal (Some v)
                           else Normal None) = Normal o).
  { destruct (strict_eq_str (get_opt r "input_type") "video"); [ | eauto ].
    rewrite (videoDetailsOf_total r Hr). simpl. eauto. }
  assert (Hg : exists o, (if ToBoolean (get_opt r "grok")
                          then g <- grokBlockOf r ;; Normal (Some g)
                          else Normal None) = Normal o).
  { destruct (ToBoolean (get_opt r "grok")) eqn:Eg; [ | eauto ].
    rewrite (grokBlockOf_eq r Hr Eg), (ensembleOf_eq r Hr).
    cbn [forallb] in Hblk.
    apply andb_prop in Hblk. destruct Hblk as [Hgc Hens].
    rewrite (ToNumber_coercible _ Hgc). simpl bind.
    destruct (ToBoolean (get_opt r "ensemble")); [ | simpl; eauto ].
    cbn [forallb] in Hens.
    apply andb_prop in Hens. destruct Hens as [Hec _].
    rewrite (ToNumber_coercible _ Hec). simpl. eauto. }
  destruct Hvd as [video ->], Hg as [block ->]. simpl bind.
  eexists. reflexivity.
Qed.

Lemma Result_operands (r : JsVal) (v : View) :
  Result r = Normal v -> forallb coercible (operands r) = true.
Proof.
  intros Hv.
  destruct (Result_inv r v Hv)
    as (Hr & Ha & Hre & Hc & _ & _ & _ & _ & _ & _ & Hg).
  rewrite (confidenceValueOf_eq r Hr) in Hc.
  destruct (ToNumber (get_opt r "confidence")) as [c | ] eqn:Ec;
    [ | discriminate ].
  apply ToNumber_normal in Ec. destruct Ec as [Ec _].
  rewrite (aiProbabilityOf_eq r Hr) in Ha.
  assert (Hai : coercible (get_opt r "ai_probability") = true).
  { destruct (nullish (get_opt r "ai_probability")) eqn:En.
    - apply nullish_coercible, En.
    - simpl bind in Ha.
      destruct (ToNumber (get_opt r "ai_probability")) eqn:E;
        [ | discriminate ].
      apply ToNumber_normal in E. apply E. }
  rewrite (realProbabilityOf_eq r _ Hr) in Hre.
  assert (Hreal : coercible (get_opt r "real_probability") = true).
  { destruct (nullish (get_opt r "real_probability")) eqn:En.
    - apply nullish_coercible, En.
    - destruct (ToNumber (get_opt r "real_probability")) eqn:E;
        [ | discriminate ].
      apply ToNumber_normal in E. apply E. }
  unfold operands. rewrite forallb_app. cbn [forallb].
  rewrite Hai, Hreal, Ec. cbn [andb].
  destruct (ToBoolean (get_opt r "grok")) eqn:Eg; [ | reflexivity ].
  destruct Hg as (g & Hgb & _).
  rewrite (grokBlockOf_eq r Hr Eg), (ensembleOf_eq r Hr) in Hgb.
  destruct (ToNumber (get_opt (get_opt r "grok") "confidence")) eqn:E;
    [ | discriminate ].
  apply ToNumber_normal in E. destruct E as [E _].
  cbn [forallb]. rewrite E. cbn [andb]. simpl bind in Hgb.
  destruct (ToBoolean (get_opt r "ensemble")); [ | reflexivity ].
  destruct (ToNumber (get_opt (get_opt r "ensemble") "confidence")) eqn:E';
    [ | discriminate ].
  apply ToNumber_normal in E'. destruct E' as [E' _].
  cbn [forallb]. rewrite E'. reflexivity.
Qed.

(** On a value that can be read, the only error [Result] throws is the
    one of a conversion. *)
Lemma Result_error (r : JsVal) (e : JsError) :
  nullish r = false -> Result r = Throw e -> e = conversionError.
Proof.
  intros Hr Hv. unfold Result in Hv.
  rewrite !(get_non_nullish r) in Hv by exact Hr. simpl bind in Hv.
  rewrite (videoDetailsOf_total r Hr) in Hv.
  destruct (aiProbabilityOf r) as [ai | e1] eqn:Ea.
  - simpl bind in Hv.
    destruct (realProbabilityOf r ai) as [re | e2] eqn:Er.
    + simpl bind in Hv.
      destruct (confidenceValueOf r) as [cf | e3] eqn:Ec.
      * simpl bind in Hv.
        assert (Hblock : exists o,
                   (if ToBoolean (get_opt r "grok")
                    then g <- grokBlockOf r ;; Normal (Some g)
                    else Normal None) = Normal o
                   \/ (if ToBoolean (get_opt r "grok")
                       then g <- grokBlockOf r ;; Normal (Some g)
                       else Normal None) = Throw conversionError).
        { destruct (ToBoolean (get_opt r "grok")) eqn:Eg;
            [ | exists None; left; reflexivity ].
          rewrite (grokBlockOf_eq r Hr Eg), (ensembleOf_eq r Hr).
          destruct (ToNumber_cases (get_opt (get_opt r "grok") "confidence"))
            as [-> | ->]; [ | exists None; right; reflexivity ].
          simpl bind.
          destruct (ToBoolean (get_opt r "ensemble"));
            [ | eexists; left; reflexivity ].
          destruct (ToNumber_cases
                      (get_opt (get_opt r "ensemble") "confidence"))
            as [-> | ->];
            [ eexists; left; reflexivity | exists None; right; reflexivity ]. }
        destruct Hblock as [o [Hb | Hb]]; rewrite Hb in Hv;
          destruct (strict_eq_str (get_opt r "input_type") "video");
          simpl bind in Hv; congruence.
      * simpl in Hv. injection Hv as <-.
        rewrite (confidenceValueOf_eq r Hr) in Ec.
        destruct (ToNumber_cases (get_opt r "confidence")) as [E | E];
          rewrite E in Ec; simpl in Ec; congruence.
    + simpl in Hv. injection Hv as <-.
      rewrite (realProbabilityOf_eq r _ Hr) in Er.
      match type of Er with
      | context [ToNumber ?x] =>
          destruct (ToNumber_cases x) as [E | E]; rewrite E in Er
      end; simpl in Er; congruence.
  - simpl in Hv. injection Hv as <-.
    rewrite (aiProbabilityOf_eq r Hr) in Ea.
    destruct (nullish (get_opt r "ai_probability")).
    + destruct (ToBoolean (get_opt r "is_ai")); simpl bind in Ea.
      * destruct (ToNumber_cases (get_opt r "confidence")) as [E | E];
          rewrite E in Ea; simpl in Ea; congruence.
      * destruct (ToNumber_cases (get_opt r "confidence")) as [E | E];
          rewrite E in Ea; simpl in Ea; congruence.
    + simpl bind in Ea.
      destruct (ToNumber_cases (get_opt r "ai_probability")) as [E | E];
        rewrite E in Ea; simpl in Ea; congruence.
Qed.

Lemma Result_throws (r : JsVal) :
  nullish r = false ->
  forallb coercible (operands r) = false ->
  Result r = Throw conversionError.
Proof.
  intros Hr Hop. destruct (Result r) as [v | e] eqn:Hv.
  - rewrite (Result_operands r v Hv) in Hop. discriminate.
  - rewrite (Result_error r e Hr Hv). reflexivity.
Qed.

(** [Result] throws on [undefined] and on [null]. *)
Lemma Result_throws_on_nullish (r : JsVal) :
  nullish r = true -> exists e, Result r = Throw e.
Proof.
  destruct r; simpl; try discriminate; intros _; eexists; reflexivity.
Qed.

(** On a result that meets the contract [Result] returns a view, and
    every child of that view is one React accepts. *)
Lemma Result_contract (r : JsVal) :
  isAnalysisResult r = true ->
  exists v, Result r = Normal v /\ commits v = true.
Proof.
  intros Hr.
  destruct (analysisResult_fields r Hr) as (props & b & c & -> & _).
  destruct (Result_total (JObj props) eq_refl
              (analysisResult_operands _ Hr)) as [v Hv].
  exists v. split; [ exact Hv | ].
  destruct (analysisResult_blocks _ Hr) as (Hl & Hvid & Hg & He).
  destruct (Result_inv _ v Hv)
    as (_ & _ & _ & _ & _ & _ & Hlbl & _ & _ & Hvd & Hgb).
  unfold commits, children. cbn [forallb].
  rewrite Hlbl, (string_validChild _ Hl). cbn [andb].
  rewrite forallb_app. apply andb_true_intro. split.
  - rewrite Hvd.
    destruct (strict_eq_str (get_opt (JObj props) "input_type") "video");
      [ | reflexivity ].
    cbn [forallb sampled_frames ai_frames real_frames
           sample_interval_sec duration_seconds].
    assert (Hc : forall k,
               In k [ "sampled_frames"; "ai_frames"; "real_frames";
                      "sample_interval_sec"; "duration_seconds" ] ->
               validChild (get_opt (JObj props) k) = true)
      by (intros k Hk; apply optionalNumber_coercible, Hvid, Hk).
    rewrite !Hc by (simpl; tauto).
    reflexivity.
  - destruct (ToBoolean (get_opt (JObj props) "grok")) eqn:Eg.
    + destruct Hgb as (g & Hgb & ->).
      rewrite (grokBlockOf_eq (JObj props) eq_refl Eg),
        (ensembleOf_eq (JObj props) eq_refl) in Hgb.
      destruct (ToNumber (get_opt (get_opt (JObj props) "grok") "confidence"));
        [ | discriminate ].
      simpl bind in Hgb.
      destruct (ToBoolean (get_opt (JObj props) "ensemble")) eqn:Ee.
      * destruct (ToNumber
                    (get_opt (get_opt (JObj props) "ensemble") "confidence"));
          [ | discriminate ].
        simpl bind in Hgb. injection Hgb as <-.
        cbn [forallb grokLabel ensemble ensembleLabel].
        rewrite (proj2 (optionalVerdict_truthy _ Hg Eg)),
          (proj2 (optionalEnsemble_truthy _ He Ee)).
        reflexivity.
      * simpl bind in Hgb. injection Hgb as <-.
        cbn [forallb grokLabel ensemble].
        rewrite (proj2 (optionalVerdict_truthy _ Hg Eg)). reflexivity.
    + rewrite Hgb. reflexivity.
Qed.

End WithEngine.

(** C1.  For every result meeting the contract, the AI probability shown
    is [ai_probability * 100] when that field is a number, and otherwise
    (the field missing or [null]) [confidence * 100] when [is_ai] is true
    and [(1 - confidence) * 100] when it is false.  For the scenario
    response [{confidence: 0.97, is_ai: true}] it is exactly 97. *)
Theorem aiProbability_fallback_order `{Engine} (r : JsVal) :
  isAnalysisResult r = true ->
  exists v b c,
    Result r = Normal v
    /\ get r "is_ai" = Normal (JBool b)
    /\ get r "confidence" = Normal (JNum c)
    /\ aiProbability v =
         match get_opt r "ai_probability" with
         | JNum p => p * 100
         | _ => if b then c * 100 else (1 - c) * 100
         end
    /\ (r = scenarioResult -> aiProbability v = 97).
Proof.
  intros Hr.
  destruct (analysisResult_fields r Hr)
    as (props & b & c & -> & Hb & Hc & _ & _ & Hai & _).
  destruct (Result_contract (JObj props) Hr) as (v & Hv & _).
  destruct (Result_inv _ v Hv) as (_ & Hav & _).
  exists v, b, c. rewrite !get_object, Hb, Hc.
  rewrite (aiProbabilityOf_eq (JObj props) eq_refl), Hb, Hc in Hav.
  assert (Ha : aiProbability v =
               match get_opt (JObj props) "ai_probability" with
               | JNum p => p * 100
               | _ => if b then c * 100 else (1 - c) * 100
               end).
  { unfold isOptionalNumber in Hai.
    destruct (get_opt (JObj props) "ai_probability"); try discriminate;
      destruct b; cbn in Hav; injection Hav as <-; reflexivity. }
  repeat split; try assumption.
  intros E. rewrite Ha. injection E as ->.
  vm_compute in Hb, Hc. injection Hb as <-. injection Hc as <-.
  reflexivity.
Qed.

(** The scenario response meets the contract, so the fallback order
    applies to it. *)
Lemma aiProbability_fallback_order_witness :
  isAnalysisResult scenarioResult = true
  /\ exists v b c,
       @Result exampleEngine scenarioResult = Normal v
       /\ get scenarioResult "is_ai" = Normal (JBool b)
       /\ get scenarioResult "confidence" = Normal (JNum c)
       /\ aiProbability v =
            match get_opt scenarioResult "ai_probability" with
            | JNum p => p * 100
            | _ => if b then c * 100 else (1 - c) * 100
            end
       /\ (scenarioResult = scenarioResult -> aiProbability v = 97).
Proof.
  split.
  - reflexivity.
  - apply (@aiProbability_fallback_order exampleEngine scenarioResult).
    reflexivity.
Defined.

(** The whole view of the scenario: 97 and 3 per cent, tier Suspicious. *)
Example scenario_view :
  @Result exampleEngine scenarioResult =
  Normal {| isAiGenerated := true; label := JStr "AI-Generated";
            aiProbability := 97; realProbability := 3;
            confidenceValue := 97; isVideo := false; hasGrok := false;
            reliability := Suspicious; videoDetails := None;
            grokBlock := None |}.
Proof. vm_compute. reflexivity. Qed.




(** C3.  The reliability tier is a step function of
    [confidenceValue = confidence * 100] with cut points 99.9 and 90:
    above 99.9 it is VeryHigh, from 90 to 99.9 inclusive Suspicious, below
    90 Low; so 99.95 gives VeryHigh, 99.9 and 90 give Suspicious and
    89.999 gives Low.  The tier of a rendered result is that function of
    its [confidenceValue], which is [confidence * 100]. *)
Theorem reliability_cut_points :
  (forall cv : float,
      ((99.9 <? cv) = true -> getReliability cv = VeryHigh)
      /\ ((90 <=? cv) = true -> (cv <=? 99.9) = true ->
          getReliability cv = Suspicious)
      /\ ((cv <? 90) = true -> getReliability cv = Low))
  /\ getReliability 99.95 = VeryHigh
  /\ getReliability 99.9 = Suspicious
  /\ getReliability 90 = Suspicious
  /\ getReliability 89.999 = Low
  /\ (forall (E : Engine) (r : JsVal) (c : float) (view : View),
         get r "confidence" = Normal (JNum c) ->
         Result r = Normal view ->
         confidenceValue view = c * 100
         /\ reliability view = getReliability (c * 100)).
Proof.
  split; [ | repeat (split; [ reflexivity | ]) ].
  - intros cv. unfold getReliability. repeat split.
    + intros ->. reflexivity.
    + intros Hlo Hhi. rewrite (FloatOrder.leb_not_gt _ _ Hhi), Hlo.
      reflexivity.
    + intros Hlt.
      rewrite (FloatOrder.ltb_not_ge _ _ Hlt).
      destruct (99.9 <? cv) eqn:Hhi; [ | reflexivity ].
      pose proof (FloatOrder.ltb_trans _ _ _ Hhi Hlt) as Habs.
      vm_compute in Habs. discriminate.
  - intros E r c view Hconf Hview.
    destruct (Result_inv r view Hview) as (_ & _ & _ & Hc & Hrel & _).
    unfold confidenceValueOf in Hc. rewrite Hconf in Hc. cbn in Hc.
    injection Hc as Hc. rewrite Hrel, <- Hc. split; reflexivity.
Qed.

(** The same boundaries met from a [confidence]: [0.999 * 100] is the
    float 99.9 itself, hence Suspicious. *)
Example boundary_confidences :
  getReliability (0.9995 * 100) = VeryHigh
  /\ (0.999 * 100 =? 99.9) = true
  /\ getReliability (0.999 * 100) = Suspicious
  /\ getReliability (0.9 * 100) = Suspicious
  /\ getReliability (0.89999 * 100) = Low.
Proof. repeat split. Qed.

End ResultFacts.

(* ===================================================================== *)
(** * App.jsx: the controller *)
(* ===================================================================== *)

Module AppFacts.

(** ** Properties of every run, offered or not *)

Lemma step_loading_clean (w : World) (e : Event) :
  loading_clean w -> loading_clean (step w e).
Proof.
  unfold loading_clean. intros Hw.
  destruct e as [[ | f fs] | | | id [data | err]]; simpl; try exact Hw.
  - intros Hl. destruct (Hw Hl) as [Hr _]. split; [ exact Hr | reflexivity ].
  - unfold handleAnalyze. destruct (file (ui w)); simpl; [ | exact Hw ].
    intros _. split; reflexivity.
  - discriminate.
  - destruct (pending id w); simpl; [ discriminate | exact Hw ].
  - destruct (pending id w); simpl; [ discriminate | exact Hw ].
Qed.

Lemma run_loading_clean (es : list Event) (w : World) :
  loading_clean w -> loading_clean (run w es).
Proof.
  revert w. induction es as [ | e es IH]; intros w Hw; simpl.
  - exact Hw.
  - apply IH, step_loading_clean, Hw.
Qed.

(** C10.  After any sequence of events, if [loading] is true then the
    stored [result] and [error] are both [null]; the page then shows the
    loading panel, and neither a result view nor an error banner. *)
Theorem loading_excludes_result_and_error (es : list Event) :
  loading (ui (run initialWorld es)) = true ->
  result (ui (run initialWorld es)) = JNull
  /\ error (ui (run initialWorld es)) = JNull
  /\ renderContent (ui (run initialWorld es)) = LoadingPanel
  /\ errorBanner (ui (run initialWorld es)) = Normal None.
Proof.
  intros Hl.
  destruct (run_loading_clean es initialWorld) as [Hr He].
  - intros Habs. discriminate.
  - exact Hl.
  - unfold renderContent, errorBanner. rewrite Hl, He. repeat split.
    exact Hr.
Qed.

(** The property at work on a submission that follows a failed one: the
    banner of the first failure is gone while the second post is out. *)
Lemma loading_excludes_result_and_error_witness :
  loading (ui (run initialWorld
                 [Drop [photo]; ClickAnalyze; Settle 0 (Rejected networkError);
                  ClickAnalyze])) = true
  /\ (result (ui (run initialWorld
                 [Drop [photo]; ClickAnalyze; Settle 0 (Rejected networkError);
                  ClickAnalyze])) = JNull
      /\ error (ui (run initialWorld
                 [Drop [photo]; ClickAnalyze; Settle 0 (Rejected networkError);
                  ClickAnalyze])) = JNull
      /\ renderContent (ui (run initialWorld
                 [Drop [photo]; ClickAnalyze; Settle 0 (Rejected networkError);
                  ClickAnalyze])) = LoadingPanel
      /\ errorBanner (ui (run initialWorld
                 [Drop [photo]; ClickAnalyze; Settle 0 (Rejected networkError);
                  ClickAnalyze])) = Normal None).
Proof.
  split.
  - reflexivity.
  - apply (loading_excludes_result_and_error
             [Drop [photo]; ClickAnalyze; Settle 0 (Rejected networkError);
              ClickAnalyze]).
    reflexivity.
Defined.

(** ** Failure messages *)

Lemma or_else_truthy (a b : JsVal) : ToBoolean a = true -> or_else a b = a.
Proof. unfold or_else. intros ->. reflexivity. Qed.

Lemma or_else_falsy (a b : JsVal) : ToBoolean a = false -> or_else a b = b.
Proof. unfold or_else. intros ->. reflexivity. Qed.

(** C7, as the code has it.  When a post in flight is rejected, the
    stored error is chosen by [||]: the [detail] of the response body
    when it is truthy (for a string: not empty), else the error's
    [message] when that is truthy, else the fixed text
    "An unknown error occurred."; a detail that is supplied but falsy is
    passed over.  [loading] is cleared.  For HTTP 500 with body
    [{"detail": "model unavailable"}] the stored error is exactly
    "model unavailable". *)
Theorem failed_message_preference (w : World) (id : nat) (err : AxiosError) :
  pending id w = true ->
  loading (ui (step w (Settle id (Rejected err)))) = false
  /\ (ToBoolean (detailOf err) = true ->
      error (ui (step w (Settle id (Rejected err)))) = detailOf err)
  /\ (forall s : string,
         s <> "" ->
         get_opt (get_opt (response err) "data") "detail" = JStr s ->
         error (ui (step w (Settle id (Rejected err)))) = JStr s)
  /\ (ToBoolean (detailOf err) = false ->
      ToBoolean (message err) = true ->
      error (ui (step w (Settle id (Rejected err)))) = message err)
  /\ (ToBoolean (detailOf err) = false ->
      ToBoolean (message err) = false ->
      error (ui (step w (Settle id (Rejected err))))
      = JStr "An unknown error occurred.")
  /\ (err = modelUnavailable ->
      error (ui (step w (Settle id (Rejected err))))
      = JStr "model unavailable").
Proof.
  intros Hp. simpl. rewrite Hp. simpl. unfold errorMessageOf.
  split; [ reflexivity | ].
  split.
  { intros Hd. rewrite (or_else_truthy _ (message err)) by exact Hd.
    apply or_else_truthy, Hd. }
  split.
  { intros s Hs Hd.
    assert (Ht : ToBoolean (detailOf err) = true).
    { unfold detailOf. rewrite Hd. simpl.
      destruct (String.eqb_spec s ""); [ contradiction | reflexivity ]. }
    rewrite (or_else_truthy _ (message err)) by exact Ht.
    rewrite or_else_truthy by exact Ht. exact Hd. }
  split.
  { intros Hd Hm. rewrite (or_else_falsy _ (message err)) by exact Hd.
    apply or_else_truthy, Hm. }
  split.
  { intros Hd Hm. rewrite (or_else_falsy _ (message err)) by exact Hd.
    apply or_else_falsy, Hm. }
  intros ->. reflexivity.
Qed.

Lemma failed_message_preference_witness :
  pending 0 submitting = true
  /\ loading (ui (step submitting (Settle 0 (Rejected modelUnavailable)))) = false
  /\ error (ui (step submitting (Settle 0 (Rejected modelUnavailable))))
     = JStr "model unavailable".
Proof.
  split; [ reflexivity | ].
  destruct (failed_message_preference submitting 0 modelUnavailable eq_refl)
    as (Hl & _ & _ & _ & _ & Hm).
  split; [ exact Hl | exact (Hm eq_refl) ].
Defined.

(** Without a response the transport's text is stored, and without
    either the fixed text. *)
Example network_error_message :
  error (ui (step submitting (Settle 0 (Rejected networkError))))
  = JStr "Network Error"
  /\ error (ui (step submitting
                  (Settle 0 (Rejected {| response := JUndefined;
                                         message := JUndefined |}))))
     = JStr "An unknown error occurred.".
Proof. split; reflexivity. Qed.

(** A detail that is supplied but falsy is passed over: for HTTP 500
    with body [{"detail": ""}] the stored message is the transport's
    text, not the detail. *)
Lemma empty_detail_is_skipped :
  pending 0 submitting = true
  /\ detailOf emptyDetail = JStr ""
  /\ error (ui (step submitting (Settle 0 (Rejected emptyDetail))))
     = JStr "Request failed with status code 500"
  /\ error (ui (step submitting (Settle 0 (Rejected emptyDetail))))
     <> detailOf emptyDetail.
Proof. repeat split. discriminate. Qed.

(** ** Responses are stored as they come *)

(** A body without [confidence] is not turned into a failure: it is
    stored, no error is set, and the result panel is rendered from it
    with a NaN confidence and the Low tier. *)
Lemma missing_confidence_is_rendered :
  isAnalysisResult missingConfidence = false
  /\ result (ui afterMissingConfidence) = missingConfidence
  /\ error (ui afterMissingConfidence) = JNull
  /\ errorBanner (ui afterMissingConfidence) = Normal None
  /\ renderContent (ui afterMissingConfidence) = ResultPanel missingConfidence
  /\ @mounts exampleEngine (ui afterMissingConfidence) = true
  /\ exists v,
       @Result exampleEngine missingConfidence = Normal v
       /\ PrimFloat.is_nan (confidenceValue v) = true
       /\ reliability v = Low.
Proof.
  repeat (split; [ reflexivity | ]).
  eexists. split; [ vm_compute; reflexivity | ]. split; reflexivity.
Qed.

(** Two bodies on which the render does not go through.  A [confidence]
    that is an object with a "toString" of its own makes the
    multiplication throw; a [label] that is an object is refused by
    React.  Neither sets an error: the page is gone. *)
Example render_failures :
  (exists e, @Result exampleEngine unconvertibleConfidence = Throw e)
  /\ @mounts exampleEngine
       (ui (step submitting (Settle 0 (Fulfilled unconvertibleConfidence))))
     = false
  /\ error (ui (step submitting (Settle 0 (Fulfilled unconvertibleConfidence))))
     = JNull
  /\ (exists v, @Result exampleEngine objectLabel = Normal v
                /\ commits v = false)
  /\ @mounts exampleEngine
       (ui (step submitting (Settle 0 (Fulfilled objectLabel)))) = false.
Proof.
  split; [ eexists; vm_compute; reflexivity | ].
  split; [ vm_compute; reflexivity | ].
  split; [ reflexivity | ].
  split; [ eexists; split; vm_compute; reflexivity | ].
  vm_compute. reflexivity.
Qed.

(** C8, as the code has it.  A fulfilled post stores the body whatever
    its shape, sets no error, logs nothing and clears [loading]; there
    is no shape check.  On a body meeting the contract [Result] returns
    a view all of whose children React accepts.  Any other truthy body is
    handed to [Result] just the same: the component returns a view
    exactly when every value it uses as a number converts to a primitive,
    and throws a [TypeError] otherwise; the page stays mounted exactly
    when a view is returned and React accepts its children.  A falsy body
    leaves the upload panel. *)
Theorem response_stored_unvalidated `{Engine}
  (w : World) (id : nat) (data : JsVal) :
  pending id w = true ->
  result (ui (step w (Settle id (Fulfilled data)))) = data
  /\ error (ui (step w (Settle id (Fulfilled data)))) = error (ui w)
  /\ loading (ui (step w (Settle id (Fulfilled data)))) = false
  /\ effects (step w (Settle id (Fulfilled data))) = effects w
  /\ (isAnalysisResult data = true ->
      ToBoolean data = true
      /\ exists v, Result data = Normal v /\ commits v = true)
  /\ (ToBoolean data = true ->
      renderContent (ui (step w (Settle id (Fulfilled data)))) = ResultPanel data
      /\ (forallb coercible (operands data) = true ->
          exists v, Result data = Normal v)
      /\ (forallb coercible (operands data) = false ->
          Result data = Throw conversionError)
      /\ (error (ui w) = JNull ->
          mounts (ui (step w (Settle id (Fulfilled data))))
          = match Result data with
            | Normal v => commits v
            | Throw _ => false
            end))
  /\ (ToBoolean data = false ->
      exists d b,
        renderContent (ui (step w (Settle id (Fulfilled data)))) = UploadPanel d b).
Proof.
  intros Hp. simpl. rewrite Hp. simpl.
  repeat (split; [ reflexivity | ]).
  split; [ | split ].
  - intros Hc. split; [ destruct data; simpl in *; congruence | ].
    exact (ResultFacts.Result_contract data Hc).
  - intros Ht. unfold mounts, errorBanner, renderContent. simpl. rewrite Ht.
    split; [ reflexivity | ]. split; [ | split ].
    + apply ResultFacts.Result_total, ResultFacts.truthy_non_nullish, Ht.
    + apply ResultFacts.Result_throws, ResultFacts.truthy_non_nullish, Ht.
    + intros ->. reflexivity.
  - intros Hf. unfold renderContent. simpl. rewrite Hf. eauto.
Qed.

Lemma response_stored_unvalidated_witness :
  pending 0 submitting = true
  /\ result (ui (step submitting (Settle 0 (Fulfilled scenarioResult))))
     = scenarioResult
  /\ error (ui (step submitting (Settle 0 (Fulfilled scenarioResult)))) = JNull
  /\ loading (ui (step submitting (Settle 0 (Fulfilled scenarioResult)))) = false.
Proof.
  split; [ reflexivity | ].
  destruct (@response_stored_unvalidated exampleEngine submitting 0
              scenarioResult eq_refl) as (Hr & He & Hl & _).
  split; [ exact Hr | ]. split; [ exact He | exact Hl ].
Defined.

(** ** What the rendered page offers *)

Section Offered.
Context `{Engine}.

(** What an offered drop or click tells about the state. *)
Lemma offered_click (w : World) (e : Event) :
  offered w e = true ->
  (forall id o, e <> Settle id o) ->
  mounts (ui w) = true
  /\ loading (ui w) = false
  /\ match e with
     | Drop _ => ToBoolean (result (ui w)) = false /\ preview (ui w) = None
     | ClickAnalyze =>
         ToBoolean (result (ui w)) = false /\ file (ui w) <> None
     | ClickReset => ToBoolean (result (ui w)) = true
     | Settle _ _ => False
     end.
Proof.
  intros Ho Hne.
  destruct e as [fs | | | id o];
    try (exfalso; exact (Hne id o eq_refl));
    simpl in Ho; apply andb_prop in Ho; destruct Ho as [Hm Ho];
    (split; [ exact Hm | ]);
    unfold renderContent, showsDropzone in Ho;
    destruct (loading (ui w)); try discriminate;
    (split; [ reflexivity | ]);
    destruct (ToBoolean (result (ui w))); try discriminate.
  - destruct (preview (ui w)); [ discriminate | ]. split; reflexivity.
  - destruct (file (ui w)); [ | discriminate ].
    split; [ reflexivity | discriminate ].
  - reflexivity.
Qed.

Lemma offered_run_reachable (es : list Event) (w : World) :
  reachable w -> offered_run w es = true -> reachable (run w es).
Proof.
  revert w. induction es as [ | e es IH]; intros w Hw Ho; simpl in *.
  - exact Hw.
  - apply andb_prop in Ho. destruct Ho as [He Hes].
    apply IH; [ apply reachable_step; assumption | exact Hes ].
Qed.

Lemma offered_not_loading (w : World) (e : Event) :
  offered w e = true ->
  (forall id o, e <> Settle id o) ->
  loading (ui w) = false.
Proof.
  intros Ho Hne. apply (offered_click w e Ho Hne).
Qed.

Lemma pending_single (id id' : nat) (w : World) :
  inFlight w = [id'] -> pending id w = true ->
  id = id' /\ remove_id id (inFlight w) = [].
Proof.
  unfold pending, remove_id. intros ->. simpl.
  rewrite orb_false_r. intros Hid. apply Nat.eqb_eq in Hid. subst id'.
  rewrite Nat.eqb_refl. split; reflexivity.
Qed.

(** In a reachable world exactly one post is in flight while [loading]
    is set, and none otherwise. *)
Lemma reachable_in_flight (w : World) :
  reachable w ->
  if loading (ui w) then exists id, inFlight w = [id] else inFlight w = [].
Proof.
  induction 1 as [ | w e Hw IH Ho]; [ reflexivity | ].
  destruct e as [[ | f fs] | | | id o].
  - exact IH.
  - simpl. exact IH.
  - destruct (offered_click w ClickAnalyze Ho) as (_ & Hl & _ & Hf);
      [ discriminate | ].
    rewrite Hl in IH. simpl. unfold handleAnalyze.
    destruct (file (ui w)) as [f | ]; [ | contradiction ].
    simpl. rewrite IH. eauto.
  - pose proof (offered_not_loading w ClickReset Ho) as Hl.
    rewrite Hl in IH by discriminate. simpl. exact IH.
  - simpl in Ho. simpl. rewrite Ho.
    destruct (loading (ui w)).
    + destruct IH as [id' Hid'].
      destruct (pending_single id id' w Hid' Ho) as [_ Hrm].
      destruct o; simpl; exact Hrm.
    + unfold pending in Ho. rewrite IH in Ho. discriminate.
Qed.

End Offered.

(** A second click on Analyze while the first post is out: the handler
    does not look at [loading]; it posts again and reports nothing. *)
Lemma second_submit_posts_again :
  loading (ui submitting) = true
  /\ inFlight submitting = [0]
  /\ inFlight (step submitting ClickAnalyze) = [1; 0]
  /\ effects (step submitting ClickAnalyze)
     = [AxiosPost 1 photo; AxiosPost 0 photo; CreateObjectURL photo 0]
  /\ error (ui (step submitting ClickAnalyze)) = JNull.
Proof. repeat split. Qed.

(** C5, as the code has it.  The guard against a second submission is in
    what is rendered, not in [handleAnalyze]: in every world reached
    through the page, at most one post is in flight, one is in flight
    exactly while [loading] is set, and then the loading panel is shown
    and no click on Analyze is offered; a click that is offered leaves a
    world that offers none.  No AlreadySubmitting error exists. *)
Theorem one_submission_at_a_time `{Engine} (w : World) :
  reachable w ->
  (List.length (inFlight w) <= 1)%nat
  /\ (loading (ui w) = true <-> inFlight w <> [])
  /\ (loading (ui w) = true ->
      renderContent (ui w) = LoadingPanel
      /\ offered w ClickAnalyze = false)
  /\ (offered w ClickAnalyze = true ->
      offered (step w ClickAnalyze) ClickAnalyze = false
      /\ exists f, effects (step w ClickAnalyze)
                   = AxiosPost (nextRequest w) f :: effects w).
Proof.
  intros Hw. pose proof (reachable_in_flight w Hw) as Hin.
  split; [ | split; [ | split ] ].
  - destruct (loading (ui w)).
    + destruct Hin as [id ->]. simpl. lia.
    + rewrite Hin. simpl. lia.
  - destruct (loading (ui w)).
    + destruct Hin as [id ->]. split; [ discriminate | reflexivity ].
    + rewrite Hin. split; [ discriminate | congruence ].
  - intros Hl. unfold offered, renderContent. rewrite Hl.
    rewrite andb_false_r. split; reflexivity.
  - intros Ho.
    destruct (offered_click w ClickAnalyze Ho) as (_ & _ & _ & Hf);
      [ discriminate | ].
    simpl. unfold handleAnalyze.
    destruct (file (ui w)) as [f | ]; [ | contradiction ].
    unfold renderContent. simpl. rewrite ?andb_false_r.
    split; [ reflexivity | eauto ].
Qed.

Lemma one_submission_at_a_time_witness :
  @reachable exampleEngine submitting
  /\ (List.length (inFlight submitting) <= 1)%nat
  /\ renderContent (ui submitting) = LoadingPanel
  /\ @offered exampleEngine submitting ClickAnalyze = false.
Proof.
  assert (Hr : @reachable exampleEngine submitting)
    by (apply offered_run_reachable; [ apply reachable_init | reflexivity ]).
  split; [ exact Hr | ].
  destruct (@one_submission_at_a_time exampleEngine submitting Hr)
    as (Hlen & _ & Hl & _).
  split; [ exact Hlen | exact (Hl eq_refl) ].
Defined.

(** ** Late answers *)

(** A reset handled while the post is out does not stop its answer from
    being stored: the result panel (or the error) comes back although no
    file is selected any more. *)
Lemma late_resolution_repopulates :
  ui (run initialWorld [Drop [photo]; ClickAnalyze; ClickReset]) = initialState
  /\ result (ui answeredAfterReset) = scenarioResult
  /\ file (ui answeredAfterReset) = None
  /\ renderContent (ui answeredAfterReset) = ResultPanel scenarioResult
  /\ error (ui failedAfterReset) = JStr "Network Error"
  /\ errorBanner (ui failedAfterReset) = Normal (Some (JStr "Network Error")).
Proof. repeat split. Qed.

(** C6, as the code has it.  Requests carry no generation tag: the answer
    of a post in flight is always stored.  What keeps a reset or a new
    selection from happening in between is the page: in every world
    reached through it, while a post is in flight the only event offered
    is the settlement of that post. *)
Theorem in_flight_offers_only_settlement `{Engine} (w : World) (e : Event) :
  reachable w ->
  inFlight w <> [] ->
  offered w e = true ->
  (exists id o, e = Settle id o /\ inFlight w = [id])
  /\ (forall id data,
         pending id w = true ->
         result (ui (step w (Settle id (Fulfilled data)))) = data)
  /\ (forall id err,
         pending id w = true ->
         error (ui (step w (Settle id (Rejected err)))) = errorMessageOf err).
Proof.
  intros Hw Hne Ho. pose proof (reachable_in_flight w Hw) as Hin.
  split; [ | split ].
  - destruct (loading (ui w)) eqn:El.
    + destruct Hin as [id' Hid'].
      destruct e as [fs | | | id o];
        try (rewrite (offered_not_loading w _ Ho) in El
               by discriminate; discriminate).
      simpl in Ho. destruct (pending_single id id' w Hid' Ho) as [-> _].
      eauto.
    + contradiction.
  - intros id data Hp. simpl. rewrite Hp. reflexivity.
  - intros id err Hp. simpl. rewrite Hp. reflexivity.
Qed.

Lemma in_flight_offers_only_settlement_witness :
  @reachable exampleEngine submitting
  /\ inFlight submitting <> []
  /\ @offered exampleEngine submitting (Settle 0 (Fulfilled scenarioResult))
     = true
  /\ exists id o,
       Settle 0 (Fulfilled scenarioResult) = Settle id o
       /\ inFlight submitting = [id].
Proof.
  assert (Hr : @reachable exampleEngine submitting)
    by (apply offered_run_reachable; [ apply reachable_init | reflexivity ]).
  assert (Hne : inFlight submitting <> []) by discriminate.
  split; [ exact Hr | ]. split; [ exact Hne | ]. split; [ reflexivity | ].
  exact (proj1 (@in_flight_offers_only_settlement exampleEngine submitting
                  (Settle 0 (Fulfilled scenarioResult)) Hr Hne eq_refl)).
Defined.

(** ** Selection and preview URLs *)

Lemma step_urls_unreleased (w : World) (e : Event) :
  urls_unreleased w -> urls_unreleased (step w e).
Proof.
  intros [Hrev Halive Hsync Hnew].
  destruct e as [[ | f fs] | | | id [data | err]]; simpl.
  - split; assumption.
  - split; cbn -[seq rev].
    + exact Hrev.
    + rewrite seq_S, rev_unit, Halive. reflexivity.
    + split; discriminate.
    + intros u [= <-]. reflexivity.
  - unfold handleAnalyze.
    destruct (file (ui w)) eqn:Ef; split; simpl; rewrite ?Ef; assumption.
  - split; simpl; try assumption.
    + split; reflexivity.
    + discriminate.
  - destruct (pending id w); split; assumption.
  - destruct (pending id w); split; assumption.
Qed.

Lemma run_urls_unreleased (es : list Event) (w : World) :
  urls_unreleased w -> urls_unreleased (run w es).
Proof.
  revert w. induction es as [ | e es IH]; intros w Hw; simpl.
  - exact Hw.
  - apply IH, step_urls_unreleased, Hw.
Qed.

Lemma run_nextUrl (es : list Event) (w : World) :
  nextUrl (run w es) = (nextUrl w + selections es)%nat.
Proof.
  revert w. unfold selections.
  induction es as [ | e es IH]; intros w; simpl.
  - lia.
  - rewrite IH.
    destruct e as [[ | f fs] | | | id [data | err]]; simpl; try lia.
    + unfold handleAnalyze. destruct (file (ui w)); simpl; lia.
    + destruct (pending id w); simpl; lia.
    + destruct (pending id w); simpl; lia.
Qed.

(** The first preview URL outlives the reset and the selection that
    replaced it: it is never revoked. *)
Lemma replaced_preview_is_not_released :
  @offered_run exampleEngine initialWorld
    [Drop [photo]; ClickAnalyze; Settle 0 (Fulfilled scenarioResult);
     ClickReset; Drop [secondPhoto]] = true
  /\ preview (ui reselected) = Some 1%nat
  /\ objectUrls reselected = [1; 0]%nat
  /\ filter isRevoke (effects reselected) = [].
Proof. repeat split. Qed.

(** C9, as the code has it.  The page holds one selection at a time: the
    [file] and [preview] cells are set together by a selection and
    cleared together by a reset.  Each selection creates exactly one new
    object URL and stores it in [preview] in place of the one before;
    no other event creates one, and no handler ever revokes a URL, so
    every URL created stays alive and none is released twice. *)
Theorem preview_urls_are_never_revoked (es : list Event) :
  filter isRevoke (effects (run initialWorld es)) = []
  /\ objectUrls (run initialWorld es) = rev (seq 0 (selections es))
  /\ (preview (ui (run initialWorld es)) = None
      <-> file (ui (run initialWorld es)) = None)
  /\ (forall u, preview (ui (run initialWorld es)) = Some u ->
                S u = selections es)
  /\ (forall f fs,
         file (ui (step (run initialWorld es) (Drop (f :: fs)))) = Some f
         /\ preview (ui (step (run initialWorld es) (Drop (f :: fs))))
            = Some (selections es)
         /\ objectUrls (step (run initialWorld es) (Drop (f :: fs)))
            = selections es :: objectUrls (run initialWorld es)
         /\ effects (step (run initialWorld es) (Drop (f :: fs)))
            = CreateObjectURL f (selections es)
                :: effects (run initialWorld es))
  /\ (file (ui (step (run initialWorld es) ClickReset)) = None
      /\ preview (ui (step (run initialWorld es) ClickReset)) = None
      /\ objectUrls (step (run initialWorld es) ClickReset)
         = objectUrls (run initialWorld es)
      /\ effects (step (run initialWorld es) ClickReset)
         = effects (run initialWorld es))
  /\ (forall e,
         (forall f fs, e <> Drop (f :: fs)) ->
         objectUrls (step (run initialWorld es) e)
         = objectUrls (run initialWorld es)
         /\ filter isRevoke (effects (step (run initialWorld es) e)) = []).
Proof.
  assert (H0 : urls_unreleased initialWorld).
  { split; simpl; try reflexivity; [ tauto | discriminate ]. }
  pose proof (run_urls_unreleased es initialWorld H0) as Hinv.
  destruct Hinv as [Hrev Halive Hsync Hnew].
  pose proof (run_nextUrl es initialWorld) as Hn. simpl in Hn.
  rewrite Hn in Halive, Hnew.
  split; [ exact Hrev | ]. split; [ exact Halive | ].
  split; [ exact Hsync | ]. split; [ exact Hnew | ].
  split; [ | split ].
  - intros f fs. simpl. rewrite Hn. repeat split.
  - simpl. repeat split.
  - intros e He.
    destruct e as [[ | f fs] | | | id [data | err]]; simpl.
    + split; [ reflexivity | exact Hrev ].
    + exfalso. exact (He f fs eq_refl).
    + unfold handleAnalyze.
      destruct (file (ui (run initialWorld es))); simpl;
        (split; [ reflexivity | exact Hrev ]).
    + split; [ reflexivity | exact Hrev ].
    + destruct (pending id (run initialWorld es)); simpl;
        (split; [ reflexivity | exact Hrev ]).
    + destruct (pending id (run initialWorld es)); simpl;
        (split; [ reflexivity | exact Hrev ]).
Qed.

(** ** Size limits *)

(** Whatever its size, the file handed to [onDrop] becomes the selection
    and no error is set. *)
Lemma select_ignores_size (w : World) (f : File) (fs : list File) :
  file (ui (step w (Drop (f :: fs)))) = Some f
  /\ preview (ui (step w (Drop (f :: fs)))) = Some (nextUrl w)
  /\ error (ui (step w (Drop (f :: fs)))) = JNull.
Proof. repeat split. Qed.

(** C4 on the code.  A video of 100 MiB + 1 byte and an image of
    5 MiB + 1 byte, dropped on the page as it first renders, are selected
    without an error; handed to the handler while a file is selected, the
    oversized video replaces it.  The dropzone is configured without a
    size bound. *)
Theorem oversized_files_are_selected :
  (size oversizedVideo > announcedMaxVideo)%Z
  /\ UploadJsx.isVideo (Some oversizedVideo) = true
  /\ maxSize dropzoneOptions = None
  /\ (forall E : Engine, @offered E initialWorld (Drop [oversizedVideo]) = true)
  /\ file (ui (step initialWorld (Drop [oversizedVideo]))) = Some oversizedVideo
  /\ error (ui (step initialWorld (Drop [oversizedVideo]))) = JNull
  /\ (size oversizedImage > announcedMaxImage)%Z
  /\ file (ui (step initialWorld (Drop [oversizedImage]))) = Some oversizedImage
  /\ error (ui (step initialWorld (Drop [oversizedImage]))) = JNull
  /\ file (ui (run initialWorld [Drop [photo]])) = Some photo
  /\ file (ui (run initialWorld [Drop [photo]; Drop [oversizedVideo]]))
     = Some oversizedVideo.
Proof. repeat split. Qed.

End AppFacts.

(* ===================================================================== *)
(** * More order facts on binary64 comparisons *)
(* ===================================================================== *)

Module FloatCases.

Local Open Scope float_scope.

(** The specification's comparison is undefined only on NaN. *)
Lemma SFcompare_None (x y : spec_float) :
  SFcompare x y = None -> x = S754_nan \/ y = S754_nan.
Proof.
  destruct x, y; simpl; try discriminate; auto.
Qed.

Lemma SFcompare_refl (x : spec_float) :
  x <> S754_nan -> SFcompare x x = Some Eq.
Proof.
  destruct x as [s | s | | s m e]; simpl; intros Hx;
    try reflexivity; try (destruct s; reflexivity); try congruence.
  rewrite Z.compare_refl.
  change (PosDef.Pos.compare_cont Eq m m) with (Pos.compare m m).
  rewrite Pos.compare_refl. destruct s; reflexivity.
Qed.

(** [is_nan] tells exactly the floats whose specification is NaN. *)
Lemma is_nan_spec (x : float) :
  PrimFloat.is_nan x = true <-> Prim2SF x = S754_nan.
Proof.
  unfold PrimFloat.is_nan. rewrite eqb_spec. unfold SFeqb. split.
  - intros H. destruct (Prim2SF x) as [s | s | | s m e] eqn:E;
      try reflexivity; exfalso.
    all: rewrite SFcompare_refl in H by discriminate; discriminate.
  - intros ->. reflexivity.
Qed.

(** Every comparison with NaN is false. *)
Lemma nan_compares_false (x y : float) :
  PrimFloat.is_nan x = true ->
  (x <? y) = false /\ (y <? x) = false
  /\ (x <=? y) = false /\ (y <=? x) = false.
Proof.
  intros Hx. apply is_nan_spec in Hx.
  rewrite !ltb_spec, !leb_spec, Hx. unfold SFltb, SFleb.
  destruct (Prim2SF y); repeat split; reflexivity.
Qed.

(** Apart from NaN the order is total. *)
Lemma leb_false_cases (x y : float) :
  (x <=? y) = false ->
  (y <? x) = true \/ PrimFloat.is_nan x = true \/ PrimFloat.is_nan y = true.
Proof.
  rewrite leb_spec, ltb_spec, !is_nan_spec. unfold SFleb, SFltb.
  rewrite (FloatOrder.SFcompare_swap (Prim2SF x) (Prim2SF y)).
  destruct (SFcompare (Prim2SF x) (Prim2SF y)) as [[ | | ] | ] eqn:E;
    simpl; intros H; try discriminate.
  - left. reflexivity.
  - right. apply SFcompare_None. exact E.
Qed.

Lemma ltb_false_cases (x y : float) :
  (x <? y) = false ->
  (y <=? x) = true \/ PrimFloat.is_nan x = true \/ PrimFloat.is_nan y = true.
Proof.
  rewrite leb_spec, ltb_spec, !is_nan_spec. unfold SFleb, SFltb.
  rewrite (FloatOrder.SFcompare_swap (Prim2SF x) (Prim2SF y)).
  destruct (SFcompare (Prim2SF x) (Prim2SF y)) as [[ | | ] | ] eqn:E;
    simpl; intros H; try discriminate.
  - left. reflexivity.
  - left. reflexivity.
  - right. apply SFcompare_None. exact E.
Qed.

Lemma SFcompare_chain (x y z : spec_float) (c1 c2 : comparison) :
  SFcompare x y = Some c1 -> SFcompare y z = Some c2 ->
  c1 <> Gt -> c2 <> Gt ->
  SFcompare x z = Some (chain c1 c2).
Proof.
  intros Hxy Hyz H1 H2.
  destruct c1, c2; try congruence; clear H1 H2; revert Hxy Hyz;
    destruct x as [sx | sx | | sx mx ex], y as [sy | sy | | sy my ey],
             z as [sz | sz | | sz mz ez]; simpl; try discriminate;
    try destruct sx; try destruct sy; try destruct sz; simpl;
    try discriminate; try reflexivity; intros Hxy Hyz;
    FloatOrder.compare_cases; subst; try reflexivity;
    try (exfalso; lia);
    try (rewrite ?Z.compare_refl;
         change (PosDef.Pos.compare_cont Eq ?a ?b) with (Pos.compare a b);
         rewrite ?Pos.compare_refl; reflexivity).
Qed.

Lemma leb_trans (x y z : float) :
  (x <=? y) = true -> (y <=? z) = true -> (x <=? z) = true.
Proof.
  rewrite !leb_spec. unfold SFleb. intros Hxy Hyz.
  destruct (SFcompare (Prim2SF x) (Prim2SF y)) as [c1 | ] eqn:E1;
    [ | discriminate ].
  destruct (SFcompare (Prim2SF y) (Prim2SF z)) as [c2 | ] eqn:E2;
    [ | discriminate ].
  rewrite (SFcompare_chain _ _ _ c1 c2 E1 E2)
    by (destruct c1, c2; discriminate).
  destruct c1, c2; try discriminate; reflexivity.
Qed.

Lemma ltb_leb_trans (x y z : float) :
  (x <? y) = true -> (y <=? z) = true -> (x <? z) = true.
Proof.
  rewrite !leb_spec, !ltb_spec. unfold SFleb, SFltb. intros Hxy Hyz.
  destruct (SFcompare (Prim2SF x) (Prim2SF y)) as [c1 | ] eqn:E1;
    [ | discriminate ].
  destruct (SFcompare (Prim2SF y) (Prim2SF z)) as [c2 | ] eqn:E2;
    [ | discriminate ].
  rewrite (SFcompare_chain _ _ _ c1 c2 E1 E2)
    by (destruct c1, c2; discriminate).
  destruct c1, c2; try discriminate; reflexivity.
Qed.

End FloatCases.

(* ===================================================================== *)
(** * Result.jsx: the reliability bands *)
(* ===================================================================== *)

Module ReliabilityFacts.

Local Open Scope float_scope.

(** X1.  The three bands, read backwards: the tier tells the band.
    VeryHigh is shown exactly above 99.9, Suspicious exactly from 90 to
    99.9, and Low exactly below 90 or when the confidence is NaN. *)
Theorem reliability_bands (cv : float) :
  (getReliability cv = VeryHigh <-> (99.9 <? cv) = true)
  /\ (getReliability cv = Suspicious
      <-> (90 <=? cv) = true /\ (cv <=? 99.9) = true)
  /\ (getReliability cv = Low
      <-> (cv <? 90) = true \/ PrimFloat.is_nan cv = true).
Proof.
  unfold getReliability.
  destruct (99.9 <? cv) eqn:Hhi; [ | destruct (90 <=? cv) eqn:Hlo ].
  - split; [ split; reflexivity | ]. split; split; try discriminate.
    + intros [_ Hle]. rewrite (FloatOrder.leb_not_gt _ _ Hle) in Hhi.
      discriminate.
    + intros [Hlt | Hnan].
      * pose proof (FloatOrder.ltb_trans _ _ _ Hhi Hlt) as Habs.
        vm_compute in Habs. discriminate.
      * destruct (FloatCases.nan_compares_false cv 99.9 Hnan)
          as (_ & Habs & _). congruence.
  - split; [ split; discriminate | ]. split; split; try discriminate.
    + intros _. split; [ reflexivity | ].
      destruct (FloatCases.ltb_false_cases _ _ Hhi) as [Hle | [Hn | Hn]].
      * exact Hle.
      * vm_compute in Hn. discriminate.
      * destruct (FloatCases.nan_compares_false cv 90 Hn) as (_ & _ & _ & Habs).
        congruence.
    + reflexivity.
    + intros [Hlt | Hnan].
      * rewrite (FloatOrder.ltb_not_ge _ _ Hlt) in Hlo. discriminate.
      * destruct (FloatCases.nan_compares_false cv 90 Hnan) as (_ & _ & _ & Habs).
        congruence.
  - split; [ split; discriminate | ]. split; split; try discriminate.
    + intros [Habs _]. discriminate.
    + intros _.
      destruct (FloatCases.leb_false_cases _ _ Hlo) as [Hlt | [Hn | Hn]].
      * left. exact Hlt.
      * vm_compute in Hn. discriminate.
      * right. exact Hn.
    + reflexivity.
Qed.

(** X2.  A higher confidence never lowers the tier. *)
Theorem reliability_monotone (a b : float) :
  (a <=? b) = true ->
  (rank (getReliability a) <= rank (getReliability b))%nat.
Proof.
  intros Hab. unfold getReliability.
  destruct (99.9 <? a) eqn:Ha.
  - rewrite (FloatCases.ltb_leb_trans _ _ _ Ha Hab). simpl. lia.
  - destruct (90 <=? a) eqn:Hlo; [ | simpl; lia ].
    rewrite (FloatCases.leb_trans _ _ _ Hlo Hab).
    destruct (99.9 <? b); simpl; lia.
Qed.

Lemma reliability_monotone_witness :
  (89.999 <=? 99.95) = true
  /\ (rank (getReliability 89.999) <= rank (getReliability 99.95))%nat.
Proof.
  split; [ reflexivity | ].
  apply (reliability_monotone 89.999 99.95). reflexivity.
Defined.

End ReliabilityFacts.

(* ===================================================================== *)
(** * Result.jsx: more on the view *)
(* ===================================================================== *)

Module ViewFacts.

Local Open Scope float_scope.

(** NaN goes through the three operations of the component. *)
Lemma nan_mul_l (x y : float) :
  PrimFloat.is_nan x = true -> PrimFloat.is_nan (x * y) = true.
Proof.
  rewrite !FloatCases.is_nan_spec, mul_spec. intros ->. reflexivity.
Qed.

Lemma nan_sub_r (x y : float) :
  PrimFloat.is_nan y = true -> PrimFloat.is_nan (x - y) = true.
Proof.
  rewrite !FloatCases.is_nan_spec, sub_spec. intros ->.
  destruct (Prim2SF x) as [s | s | | s m e]; reflexivity.
Qed.

Lemma nan_div_l (x y : float) :
  PrimFloat.is_nan x = true -> PrimFloat.is_nan (x / y) = true.
Proof.
  rewrite !FloatCases.is_nan_spec, div_spec. intros ->. reflexivity.
Qed.

(** A view exists only of a value that can be read. *)
Lemma Result_readable `{Engine} (r : JsVal) (v : View) :
  Result r = Normal v -> nullish r = false.
Proof. intros Hv. apply (ResultFacts.Result_inv r v Hv). Qed.

(** The two optional blocks of a view, spelled out.  The numbers in
    them are those of conversions that completed. *)
Lemma Result_blocks `{Engine} (r : JsVal) (v : View) :
  Result r = Normal v ->
  isVideo v = strict_eq_str (get_opt r "input_type") "video"
  /\ hasGrok v = ToBoolean (get_opt r "grok")
  /\ videoDetails v
     = (if strict_eq_str (get_opt r "input_type") "video"
        then Some {| sampled_frames := get_opt r "sampled_frames";
                     ai_frames := get_opt r "ai_frames";
                     real_frames := get_opt r "real_frames";
                     sample_interval_sec := get_opt r "sample_interval_sec";
                     duration_seconds := get_opt r "duration_seconds" |}
        else None)
  /\ grokBlock v
     = (if ToBoolean (get_opt r "grok")
        then Some {| grokLabel := get_opt (get_opt r "grok") "label";
                     grokConfidence :=
                       numberOf (get_opt (get_opt r "grok") "confidence") * 100;
                     ensemble :=
                       if ToBoolean (get_opt r "ensemble")
                       then Some {| ensembleLabel :=
                                      get_opt (get_opt r "ensemble") "label";
                                    ensembleConfidence :=
                                      numberOf (get_opt (get_opt r "ensemble")
                                                  "confidence") * 100;
                                    agreement :=
                                      ToBoolean (get_opt (get_opt r "ensemble")
                                                   "agreement") |}
                       else None |}
        else None)
  /\ (ToBoolean (get_opt r "grok") = true ->
      ToNumber (get_opt (get_opt r "grok") "confidence")
      = Normal (numberOf (get_opt (get_opt r "grok") "confidence"))
      /\ (ToBoolean (get_opt r "ensemble") = true ->
          ToNumber (get_opt (get_opt r "ensemble") "confidence")
          = Normal (numberOf (get_opt (get_opt r "ensemble") "confidence")))).
Proof.
  intros Hv.
  destruct (ResultFacts.Result_inv r v Hv)
    as (Hr & _ & _ & _ & _ & _ & _ & Hvid & Hgrok & Hvd & Hgb).
  pose proof (ResultFacts.Result_operands r v Hv) as Hop.
  unfold operands in Hop. rewrite forallb_app in Hop.
  apply andb_prop in Hop. destruct Hop as [_ Hop].
  split; [ exact Hvid | ]. split; [ exact Hgrok | ]. split; [ exact Hvd | ].
  destruct (ToBoolean (get_opt r "grok")) eqn:Eg.
  - destruct Hgb as (g & Hg & ->).
    cbn [forallb] in Hop. apply andb_prop in Hop. destruct Hop as [Hgc Hec].
    rewrite (ResultFacts.grokBlockOf_eq r Hr Eg),
      (ResultFacts.ensembleOf_eq r Hr),
      (ResultFacts.ToNumber_coercible _ Hgc) in Hg.
    simpl bind in Hg.
    destruct (ToBoolean (get_opt r "ensemble")) eqn:Ee.
    + cbn [forallb] in Hec. apply andb_prop in Hec. destruct Hec as [Hec _].
      rewrite (ResultFacts.ToNumber_coercible _ Hec) in Hg.
      simpl bind in Hg. injection Hg as <-.
      split; [ reflexivity | ]. intros _.
      split; [ apply ResultFacts.ToNumber_coercible, Hgc | ].
      intros _. apply ResultFacts.ToNumber_coercible, Hec.
    + simpl bind in Hg. injection Hg as <-.
      split; [ reflexivity | ]. intros _.
      split; [ apply ResultFacts.ToNumber_coercible, Hgc | discriminate ].
  - split; [ exact Hgb | discriminate ].
Qed.

(** X3.  Video details.  The "Video analysis details" block is part of
    the view exactly when [input_type] is the string "video", and then
    its five entries are the fields of the response as they came; a field
    the response lacks is [undefined], never a made-up number. *)
Theorem video_details_verbatim `{Engine} (r : JsVal) (v : View) :
  Result r = Normal v ->
  (isVideo v = true <-> get_opt r "input_type" = JStr "video")
  /\ (isVideo v = false -> videoDetails v = None)
  /\ (isVideo v = true ->
      videoDetails v
      = Some {| sampled_frames := get_opt r "sampled_frames";
                ai_frames := get_opt r "ai_frames";
                real_frames := get_opt r "real_frames";
                sample_interval_sec := get_opt r "sample_interval_sec";
                duration_seconds := get_opt r "duration_seconds" |})
  /\ (forall props k, r = JObj props -> lookup k props = None ->
                      get_opt r k = JUndefined).
Proof.
  intros Hv. destruct (Result_blocks r v Hv) as (Hvid & _ & Hd & _ & _).
  rewrite Hvid, Hd. repeat split.
  - destruct (get_opt r "input_type"); simpl; try discriminate.
    intros E. apply String.eqb_eq in E. congruence.
  - intros ->. reflexivity.
  - intros ->. reflexivity.
  - intros ->. reflexivity.
  - intros props k -> Hk. unfold get_opt, get. rewrite Hk. reflexivity.
Qed.

Lemma video_details_verbatim_witness :
  exists v,
    @Result exampleEngine videoResult = Normal v
    /\ isVideo v = true
    /\ videoDetails v
       = Some {| sampled_frames := JNum 30; ai_frames := JNum 28;
                 real_frames := JNum 2; sample_interval_sec := JUndefined;
                 duration_seconds := JUndefined |}.
Proof.
  destruct (@ResultFacts.Result_total exampleEngine videoResult eq_refl eq_refl)
    as [v Hv].
  exists v. split; [ exact Hv | ].
  destruct (@video_details_verbatim exampleEngine videoResult v Hv)
    as (Hiff & _ & Hsome & _).
  assert (Hvid : isVideo v = true) by (apply Hiff; reflexivity).
  split; [ exact Hvid | ]. rewrite (Hsome Hvid). reflexivity.
Defined.

(** X4.  Cross-check.  The cross-check block is in the view exactly when
    [grok] is truthy; without it nothing of [ensemble] is shown either.
    Inside, the ensemble line is there exactly when [ensemble] is truthy,
    and its agreement is the truthiness of [ensemble.agreement] as the
    service sent it. *)
Theorem cross_check_needs_grok `{Engine} (r : JsVal) (v : View) :
  Result r = Normal v ->
  (ToBoolean (get_opt r "grok") = false ->
   hasGrok v = false /\ grokBlock v = None)
  /\ (ToBoolean (get_opt r "grok") = true ->
      hasGrok v = true
      /\ exists g,
           grokBlock v = Some g
           /\ grokLabel g = get_opt (get_opt r "grok") "label"
           /\ (exists n,
                  ToNumber (get_opt (get_opt r "grok") "confidence") = Normal n
                  /\ grokConfidence g = n * 100)
           /\ (ToBoolean (get_opt r "ensemble") = false -> ensemble g = None)
           /\ (ToBoolean (get_opt r "ensemble") = true ->
               exists e,
                 ensemble g = Some e
                 /\ ensembleLabel e = get_opt (get_opt r "ensemble") "label"
                 /\ agreement e
                    = ToBoolean (get_opt (get_opt r "ensemble") "agreement"))).
Proof.
  intros Hv. destruct (Result_blocks r v Hv) as (_ & Hg & _ & Hb & Hn).
  rewrite Hg, Hb. split; intros Eg; rewrite Eg; split; try reflexivity.
  eexists. split; [ reflexivity | ]. simpl.
  split; [ reflexivity | ].
  split; [ eexists; split; [ apply (Hn Eg) | reflexivity ] | ].
  split.
  - intros ->. reflexivity.
  - intros ->. eexists. repeat split.
Qed.

Lemma cross_check_needs_grok_witness :
  exists v g e,
    @Result exampleEngine crossChecked = Normal v
    /\ grokBlock v = Some g
    /\ ensemble g = Some e
    /\ agreement e = true.
Proof.
  destruct (@ResultFacts.Result_total exampleEngine crossChecked eq_refl eq_refl)
    as [v Hv].
  destruct (@cross_check_needs_grok exampleEngine crossChecked v Hv)
    as (_ & Hyes).
  destruct (Hyes eq_refl) as (_ & g & Hg & _ & _ & _ & Hens).
  destruct (Hens eq_refl) as (e & He & _ & Hagree).
  exists v, g, e. repeat split; assumption.
Defined.

(** X5.  No confidence.  Whenever the [confidence] of a rendered response
    converts to NaN (it is missing, [undefined], an object, ...), the
    confidence shown is NaN and the tier is Low; if the response names
    no [ai_probability] (nor [real_probability]), the AI (and real)
    percentage is NaN as well. *)
Theorem unusable_confidence_view `{Engine} (r : JsVal) (v : View) :
  Result r = Normal v ->
  PrimFloat.is_nan (numberOf (get_opt r "confidence")) = true ->
  PrimFloat.is_nan (confidenceValue v) = true
  /\ reliability v = Low
  /\ (nullish (get_opt r "ai_probability") = true ->
      PrimFloat.is_nan (aiProbability v) = true
      /\ (nullish (get_opt r "real_probability") = true ->
          PrimFloat.is_nan (realProbability v) = true)).
Proof.
  intros Hv Hnan.
  destruct (ResultFacts.Result_inv r v Hv) as (Hr & Hai & Hreal & Hc & Hrel & _).
  assert (Hconf : ToNumber (get_opt r "confidence")
                  = Normal (numberOf (get_opt r "confidence"))).
  { rewrite (ResultFacts.confidenceValueOf_eq r Hr) in Hc.
    destruct (ToNumber (get_opt r "confidence")) as [n | ] eqn:E;
      [ | discriminate ].
    apply ResultFacts.ToNumber_normal in E. destruct E as [_ ->].
    reflexivity. }
  rewrite (ResultFacts.confidenceValueOf_eq r Hr), Hconf in Hc.
  cbn in Hc. injection Hc as Hc.
  assert (Hcv : PrimFloat.is_nan (confidenceValue v) = true)
    by (rewrite <- Hc; apply nan_mul_l; exact Hnan).
  split; [ exact Hcv | ]. split.
  { rewrite Hrel. unfold getReliability.
    destruct (FloatCases.nan_compares_false _ 99.9 Hcv) as (_ & -> & _).
    destruct (FloatCases.nan_compares_false _ 90 Hcv) as (_ & _ & _ & ->).
    reflexivity. }
  intros Hnoai.
  rewrite (ResultFacts.aiProbabilityOf_eq r Hr), Hnoai, Hconf in Hai.
  assert (Ha : PrimFloat.is_nan (aiProbability v) = true).
  { destruct (ToBoolean (get_opt r "is_ai")); cbn [bind] in Hai.
    - rewrite Hconf in Hai. cbn [bind] in Hai. injection Hai as <-.
      apply nan_mul_l. exact Hnan.
    - cbn in Hai. injection Hai as <-.
      apply nan_mul_l, nan_sub_r. exact Hnan. }
  split; [ exact Ha | ]. intros Hnoreal.
  rewrite (ResultFacts.realProbabilityOf_eq r _ Hr), Hnoreal in Hreal.
  cbn in Hreal. injection Hreal as <-.
  apply nan_mul_l, nan_div_l, nan_sub_r. exact Ha.
Qed.

Lemma unusable_confidence_view_witness :
  exists v,
    @Result exampleEngine missingConfidence = Normal v
    /\ PrimFloat.is_nan (confidenceValue v) = true
    /\ reliability v = Low.
Proof.
  destruct (@ResultFacts.Result_total exampleEngine missingConfidence eq_refl eq_refl)
    as [v Hv].
  exists v. split; [ exact Hv | ].
  destruct (@unusable_confidence_view exampleEngine missingConfidence v Hv
              eq_refl) as (Hc & Hl & _).
  split; assumption.
Defined.

End ViewFacts.

(* ===================================================================== *)
(** * Result.jsx: the two percentage bars as real numbers *)
(* ===================================================================== *)

Module PercentFacts.

Import Binary64 Binary64Facts.

Local Open Scope R_scope.

(** The chain [(100 - a) / 100 * 100] with its error spelled out in unit
    roundoffs. *)
Lemma complement_error (a : float) :
  finite a -> -1 <= B2R a <= 101 ->
  finite ((100 - a) / 100 * 100)
  /\ Rabs (B2R ((100 - a) / 100 * 100) - (100 - B2R a))
     <= 4000 * pow2 (-52).
Proof.
  intros Ha Hr. pose proof pow2_m52_small as Hu.
  assert (H100 : B2R 100 <> 0) by (rewrite B2R_100; lra).
  assert (Hv1 : Rabs (B2R 100 - B2R a) <= 101)
    by (rewrite B2R_100; apply Rabs_le; lra).
  destruct (sub_real 100 a finite_100 Ha (below_2_900 _ _ Hv1 ltac:(lra)))
    as [Hf1 He1].
  pose proof (op_error _ _ _ Hv1 He1) as Hb1. rewrite B2R_100 in Hb1.
  assert (Hv2 : Rabs (B2R (100 - a) / B2R 100) <= 2)
    by (rewrite B2R_100; apply Rabs_le; lra).
  destruct (div_real (100 - a) 100 Hf1 finite_100 H100
              (below_2_900 _ _ Hv2 ltac:(lra))) as [Hf2 He2].
  pose proof (op_error _ _ _ Hv2 He2) as Hb2. rewrite B2R_100 in Hb2.
  assert (Hv3 : Rabs (B2R ((100 - a) / 100) * B2R 100) <= 300)
    by (rewrite B2R_100; apply Rabs_le; lra).
  destruct (mul_real ((100 - a) / 100) 100 Hf2 finite_100
              (below_2_900 _ _ Hv3 ltac:(lra))) as [Hf3 He3].
  pose proof (op_error _ _ _ Hv3 He3) as Hb3. rewrite B2R_100 in Hb3.
  split; [ exact Hf3 | ]. apply Rabs_le. lra.
Qed.

(** [c * 100] and [(1 - c) * 100] with their errors. *)
Lemma scaled_error (c : float) :
  finite c -> 0 <= B2R c <= 1 ->
  finite (c * 100)
  /\ Rabs (B2R (c * 100) - 100 * B2R c) <= 500 * pow2 (-52).
Proof.
  intros Hc Hr. pose proof pow2_m52_small as Hu.
  assert (Hv : Rabs (B2R c * B2R 100) <= 100)
    by (rewrite B2R_100; apply Rabs_le; lra).
  destruct (mul_real c 100 Hc finite_100 (below_2_900 _ _ Hv ltac:(lra)))
    as [Hf He].
  split; [ exact Hf | ].
  pose proof (op_error _ _ _ Hv He) as Hb. rewrite B2R_100 in Hb.
  apply Rabs_le. lra.
Qed.

Lemma complement_scaled_error (c : float) :
  finite c -> 0 <= B2R c <= 1 ->
  finite ((1 - c) * 100)
  /\ Rabs (B2R ((1 - c) * 100) - (100 - 100 * B2R c)) <= 2000 * pow2 (-52).
Proof.
  intros Hc Hr. pose proof pow2_m52_small as Hu.
  assert (Hv1 : Rabs (B2R 1 - B2R c) <= 1)
    by (rewrite B2R_1; apply Rabs_le; lra).
  destruct (sub_real 1 c finite_1 Hc (below_2_900 _ _ Hv1 ltac:(lra)))
    as [Hf1 He1].
  pose proof (op_error _ _ _ Hv1 He1) as Hb1. rewrite B2R_1 in Hb1.
  assert (Hv2 : Rabs (B2R (1 - c) * B2R 100) <= 101)
    by (rewrite B2R_100; apply Rabs_le; lra).
  destruct (mul_real (1 - c) 100 Hf1 finite_100
              (below_2_900 _ _ Hv2 ltac:(lra))) as [Hf2 He2].
  split; [ exact Hf2 | ].
  pose proof (op_error _ _ _ Hv2 He2) as Hb2. rewrite B2R_100 in Hb2.
  apply Rabs_le. lra.
Qed.

(** X6.  Explicit AI probability.  When a rendered response names an
    [ai_probability] between 0 and 1 and no [real_probability], the AI
    bar shows that probability times 100, whatever [is_ai] and
    [confidence] say, and the real bar complements it to 100 within
    [1e-6 * 100]. *)
Theorem explicit_ai_probability_complementary `{Engine}
  (r : JsVal) (v : View) (p : float) :
  Result r = Normal v ->
  get_opt r "ai_probability" = JNum p ->
  (0 <=? p)%float = true -> (p <=? 1)%float = true ->
  nullish (get_opt r "real_probability") = true ->
  aiProbability v = (p * 100)%float
  /\ complementary (aiProbability v) (realProbability v).
Proof.
  intros Hv Hp Hp0 Hp1 Hnoreal.
  destruct (ResultFacts.Result_inv r v Hv) as (Hr & Hai & Hreal & _).
  rewrite (ResultFacts.aiProbabilityOf_eq r Hr), Hp in Hai.
  cbn in Hai. injection Hai as Hai.
  rewrite (ResultFacts.realProbabilityOf_eq r _ Hr), Hnoreal in Hreal.
  cbn in Hreal. injection Hreal as Hreal.
  split; [ symmetry; exact Hai | ].
  destruct (unit_range p Hp0 Hp1) as [Hfp Hrp].
  destruct (scaled_range p Hfp Hrp) as [Hfa Hra]. rewrite Hai in Hfa, Hra.
  destruct (complement_sum (aiProbability v) Hfa Hra) as [Hfr Hsum].
  unfold complementary. rewrite <- Hreal.
  split; [ exact Hfa | ]. split; [ exact Hfr | ]. lra.
Qed.

Lemma explicit_ai_probability_complementary_witness :
  exists v,
    @Result exampleEngine ownAiProbability = Normal v
    /\ aiProbability v = (0.25 * 100)%float
    /\ complementary (aiProbability v) (realProbability v).
Proof.
  destruct (@ResultFacts.Result_total exampleEngine ownAiProbability eq_refl eq_refl)
    as [v Hv].
  exists v. split; [ exact Hv | ].
  apply (@explicit_ai_probability_complementary exampleEngine
           ownAiProbability v 0.25%float Hv); reflexivity.
Defined.

(** X7.  The bar of the verdict.  For a response meeting the contract
    that names neither probability, the bar of the verdict's own class
    shows the confidence: with [is_ai] true the AI percentage is the very
    float shown as confidence, and with [is_ai] false the real percentage
    is within [1e-9] of it. *)
Theorem verdict_bar_shows_confidence `{Engine} (r : JsVal) (v : View) :
  Result r = Normal v ->
  isAnalysisResult r = true ->
  nullish (get_opt r "ai_probability") = true ->
  nullish (get_opt r "real_probability") = true ->
  (get_opt r "is_ai" = JBool true -> aiProbability v = confidenceValue v)
  /\ (get_opt r "is_ai" = JBool false ->
      close (realProbability v) (confidenceValue v)).
Proof.
  intros Hv Hwf Hnoai Hnoreal.
  destruct (ResultFacts.analysisResult_fields r Hwf)
    as (props & b & c & -> & Hb & Hc & Hc0 & Hc1 & _ & _).
  destruct (ResultFacts.Result_inv _ v Hv) as (_ & Hai & Hreal & Hconf & _).
  rewrite (ResultFacts.aiProbabilityOf_eq (JObj props) eq_refl),
    Hnoai, Hb, Hc in Hai.
  rewrite (ResultFacts.realProbabilityOf_eq (JObj props) _ eq_refl),
    Hnoreal in Hreal.
  rewrite (ResultFacts.confidenceValueOf_eq (JObj props) eq_refl), Hc in Hconf.
  cbn in Hreal, Hconf. injection Hreal as Hreal. injection Hconf as Hconf.
  split; intros E; rewrite Hb in E; injection E as ->;
    cbn in Hai; injection Hai as Hai.
  - congruence.
  - destruct (unit_range c Hc0 Hc1) as [Hfc Hrc].
    destruct (complement_scaled_error c Hfc Hrc) as [Hfa Hea].
    destruct (complement_scaled_range c Hfc Hrc) as [_ Hra].
    rewrite Hai in Hfa, Hea, Hra.
    destruct (complement_error (aiProbability v) Hfa Hra) as [Hfr Her].
    destruct (scaled_error c Hfc Hrc) as [Hfcv Hecv].
    rewrite Hreal in Hfr, Her. rewrite Hconf in Hfcv, Hecv.
    pose proof pow2_m52_small as Hu.
    apply Rabs_bounds in Hea. apply Rabs_bounds in Her.
    apply Rabs_bounds in Hecv.
    unfold close. split; [ exact Hfr | ]. split; [ exact Hfcv | ].
    apply Rabs_le. lra.
Qed.

Lemma verdict_bar_shows_confidence_witness :
  exists v,
    @Result exampleEngine scenarioResult = Normal v
    /\ aiProbability v = confidenceValue v.
Proof.
  destruct (@ResultFacts.Result_total exampleEngine scenarioResult eq_refl eq_refl)
    as [v Hv].
  exists v. split; [ exact Hv | ].
  apply (@verdict_bar_shows_confidence exampleEngine scenarioResult v Hv);
    reflexivity.
Defined.

End PercentFacts.

(* ===================================================================== *)
(** * App.jsx and Upload.jsx: the page as the user meets it *)
(* ===================================================================== *)

Module PageFacts.

Import AppFacts.

(** ** Invariants of the worlds reached through the page *)

Ltac settle_field :=
  unfold loading_clean; simpl;
  solve [ discriminate | reflexivity | assumption
        | intros; discriminate | intros; reflexivity
        | intros; assumption | intros; contradiction | intros; congruence
        | split; intros; discriminate | split; intros; reflexivity
        | intros; split; reflexivity ].

Section Reached.
Context `{Engine}.

Lemma pending_loading (w : World) (id : nat) :
  reachable w -> pending id w = true ->
  loading (ui w) = true /\ inFlight w = [id].
Proof.
  intros Hw Hp. pose proof (reachable_in_flight w Hw) as Hin.
  destruct (loading (ui w)).
  - destruct Hin as [id' Hid'].
    destruct (pending_single id id' w Hid' Hp) as [-> _].
    split; [ reflexivity | exact Hid' ].
  - unfold pending in Hp. rewrite Hin in Hp. discriminate.
Qed.

Lemma reachable_page_settled (w : World) : reachable w -> page_settled w.
Proof.
  induction 1 as [ | w e Hw IH Ho].
  - split; settle_field.
  - destruct IH as [Hbf Hbc Hrf Hre Hidle Hsync].
    destruct e as [[ | f fs] | | | id o].
    + split; assumption.
    + destruct (offered_click w _ Ho) as (_ & El & Er & _);
        [ discriminate | ].
      split; simpl; rewrite ?El, ?Er; settle_field.
    + destruct (offered_click w _ Ho) as (_ & El & Er & Hf);
        [ discriminate | ].
      destruct (file (ui w)) as [f | ] eqn:Ef; [ | contradiction ].
      simpl. unfold handleAnalyze. rewrite Ef.
      split; simpl; rewrite ?Ef; settle_field.
    + split; settle_field.
    + simpl in Ho.
      destruct (pending_loading w id Hw Ho) as [Hl _].
      destruct (Hbc Hl) as [Hr He]. specialize (Hbf Hl).
      simpl. rewrite Ho.
      destruct o as [data | err]; split; simpl; rewrite ?Hr; settle_field.
Qed.

Lemma reachable_submitting : reachable submitting.
Proof.
  apply offered_run_reachable; [ apply reachable_init | reflexivity ].
Qed.

(** The page is mounted on a state that shows no banner and no result
    panel. *)
Lemma mounts_plain (s : State) :
  error s = JNull ->
  (loading s = true \/ ToBoolean (result s) = false) ->
  mounts s = true.
Proof.
  intros He Hs. unfold mounts, errorBanner, renderContent. rewrite He.
  simpl. destruct (loading s); [ reflexivity | ].
  destruct Hs as [Hs | ->]; [ discriminate | reflexivity ].
Qed.

End Reached.

Lemma step_urls_traced (w : World) (e : Event) :
  urls_traced w -> urls_traced (step w e).
Proof.
  intros [Hown Hbelow Honce].
  assert (Hkeep : forall (w' : World) (x : Effect),
             file (ui w') = file (ui w) -> preview (ui w') = preview (ui w) ->
             nextUrl w' = nextUrl w -> effects w' = x :: effects w ->
             (forall f u, x <> CreateObjectURL f u) ->
             urls_traced w').
  { intros w' x Hf Hp Hn He Hx. split.
    - intros u Hu. rewrite Hp in Hu. destruct (Hown u Hu) as (f & Ef & Hin).
      exists f. rewrite Hf, He. split; [ exact Ef | right; exact Hin ].
    - intros f u. rewrite He, Hn. intros [Habs | Hin]; [ | eauto ].
      exfalso. exact (Hx f u Habs).
    - intros f1 f2 u. rewrite He.
      intros [Habs | H1]; [ exfalso; exact (Hx f1 u Habs) | ].
      intros [Habs | H2]; [ exfalso; exact (Hx f2 u Habs) | eauto ]. }
  destruct e as [[ | f fs] | | | id [data | err]]; simpl.
  - split; assumption.
  - split; unfold preview_owned; simpl.
    + intros u [= <-]. exists f. split; [ reflexivity | left; reflexivity ].
    + intros f' u [[= <- <-] | Hin]; [ lia | ].
      specialize (Hbelow f' u Hin). lia.
    + intros f1 f2 u [E1 | H1] [E2 | H2].
      * congruence.
      * injection E1 as _ <-. specialize (Hbelow f2 _ H2). lia.
      * injection E2 as _ <-. specialize (Hbelow f1 _ H1). lia.
      * exact (Honce f1 f2 u H1 H2).
  - unfold handleAnalyze. destruct (file (ui w)) as [f | ] eqn:Ef.
    + apply (Hkeep _ (AxiosPost (nextRequest w) f));
        simpl; rewrite ?Ef; solve [ reflexivity | intros; discriminate ].
    + split; assumption.
  - split; unfold preview_owned; simpl.
    + intros u Hu. discriminate.
    + exact Hbelow.
    + exact Honce.
  - destruct (pending id w); split; assumption.
  - destruct (pending id w); [ | split; assumption ].
    apply (Hkeep _ (ConsoleError (errorMessageOf err)));
      simpl; solve [ reflexivity | intros; discriminate ].
Qed.

Lemma run_urls_traced (es : list Event) (w : World) :
  urls_traced w -> urls_traced (run w es).
Proof.
  revert w. induction es as [ | e es IH]; intros w Hw; simpl.
  - exact Hw.
  - apply IH, step_urls_traced, Hw.
Qed.

Lemma initial_urls_traced : urls_traced initialWorld.
Proof.
  split; simpl.
  - intros u Hu. discriminate.
  - intros f u [].
  - intros f f' u [].
Qed.

Lemma errorMessageOf_truthy (err : AxiosError) :
  ToBoolean (errorMessageOf err) = true.
Proof.
  unfold errorMessageOf.
  destruct (ToBoolean (or_else (detailOf err) (message err))) eqn:E.
  - rewrite or_else_truthy by exact E. exact E.
  - rewrite or_else_falsy by exact E. reflexivity.
Qed.

(** ** Failures *)

(** X8.  A failure is never silent.  Whatever the rejection of a post in
    flight carries, the message chosen for it is truthy and is stored;
    the same message is written to the console once, [loading] is
    cleared and the stored result is left as it was.  When the message
    is one React renders (a string, a number, or an array of such), the
    error banner holds it.  When it is an object or an array holding one
    (the [detail] list of a validation failure), rendering the banner
    throws: the page is no longer mounted and offers neither a drop nor
    a click. *)
Theorem rejection_always_reported `{Engine}
  (w : World) (id : nat) (err : AxiosError) :
  pending id w = true ->
  ToBoolean (errorMessageOf err) = true
  /\ error (ui (step w (Settle id (Rejected err)))) = errorMessageOf err
  /\ consoleErrors (effects (step w (Settle id (Rejected err))))
     = errorMessageOf err :: consoleErrors (effects w)
  /\ loading (ui (step w (Settle id (Rejected err)))) = false
  /\ result (ui (step w (Settle id (Rejected err)))) = result (ui w)
  /\ (validChild (errorMessageOf err) = true ->
      errorBanner (ui (step w (Settle id (Rejected err))))
      = Normal (Some (errorMessageOf err)))
  /\ (validChild (errorMessageOf err) = false ->
      (exists e, errorBanner (ui (step w (Settle id (Rejected err))))
                 = Throw e)
      /\ mounts (ui (step w (Settle id (Rejected err)))) = false
      /\ forall e, (forall id' o, e <> Settle id' o) ->
                   offered (step w (Settle id (Rejected err))) e = false).
Proof.
  intros Hp. pose proof (errorMessageOf_truthy err) as Ht.
  split; [ exact Ht | ].
  simpl. rewrite Hp. unfold errorBanner. simpl. rewrite Ht.
  repeat (split; [ reflexivity | ]).
  split; [ intros ->; reflexivity | ].
  intros Hc.
  assert (Hm : mounts {| file := file (ui w); preview := preview (ui w);
                         result := result (ui w); loading := false;
                         error := errorMessageOf err |} = false).
  { unfold mounts, errorBanner. simpl. rewrite Ht, Hc. reflexivity. }
  rewrite Hc. split; [ eauto | ]. split; [ exact Hm | ].
  intros [fs | | | id' o] Hne; simpl; rewrite ?Hm; try reflexivity.
  exfalso. exact (Hne id' o eq_refl).
Qed.

Lemma rejection_always_reported_witness :
  pending 0 submitting = true
  /\ errorBanner
       (ui (step submitting
              (Settle 0 (Rejected {| response := JUndefined;
                                     message := JUndefined |}))))
     = Normal (Some (JStr "An unknown error occurred."))
  /\ validChild (errorMessageOf validationError) = false
  /\ @mounts exampleEngine
       (ui (step submitting (Settle 0 (Rejected validationError)))) = false
  /\ @offered exampleEngine
       (step submitting (Settle 0 (Rejected validationError))) ClickAnalyze
     = false.
Proof.
  split; [ reflexivity | ].
  destruct (@rejection_always_reported exampleEngine submitting 0
              {| response := JUndefined; message := JUndefined |} eq_refl)
    as (_ & _ & _ & _ & _ & Hshown & _).
  split; [ exact (Hshown eq_refl) | ].
  split; [ reflexivity | ].
  destruct (@rejection_always_reported exampleEngine submitting 0
              validationError eq_refl)
    as (_ & _ & _ & _ & _ & _ & Hgone).
  destruct (Hgone eq_refl) as (_ & Hm & Ho).
  split; [ exact Hm | ]. apply Ho. discriminate.
Defined.

(** X9.  Retry after a failure.  When the post of a world reached through
    the page is rejected with a message React renders, the selected file
    and its preview stay, the page stays mounted with the banner, the
    upload panel comes back with the preview in place of the dropzone and
    the Analyze button enabled, and a click on it clears the banner and
    posts the same file again. *)
Theorem failure_allows_retry `{Engine}
  (w : World) (id : nat) (err : AxiosError) :
  reachable w ->
  pending id w = true ->
  validChild (errorMessageOf err) = true ->
  exists f u,
    file (ui w) = Some f /\ preview (ui w) = Some u
    /\ file (ui (step w (Settle id (Rejected err)))) = Some f
    /\ preview (ui (step w (Settle id (Rejected err)))) = Some u
    /\ mounts (ui (step w (Settle id (Rejected err)))) = true
    /\ errorBanner (ui (step w (Settle id (Rejected err))))
       = Normal (Some (errorMessageOf err))
    /\ renderContent (ui (step w (Settle id (Rejected err))))
       = UploadPanel false (Some false)
    /\ offered (step w (Settle id (Rejected err))) ClickAnalyze = true
    /\ errorBanner
         (ui (step (step w (Settle id (Rejected err))) ClickAnalyze))
       = Normal None
    /\ effects (step (step w (Settle id (Rejected err))) ClickAnalyze)
       = AxiosPost (nextRequest w) f
           :: ConsoleError (errorMessageOf err) :: effects w.
Proof.
  intros Hw Hp Hc. pose proof (errorMessageOf_truthy err) as Ht.
  destruct (pending_loading w id Hw Hp) as [Hl _].
  destruct (reachable_page_settled w Hw) as [Hbf Hbc _ _ _ Hsync].
  destruct (Hbc Hl) as [Hr _]. specialize (Hbf Hl).
  destruct (file (ui w)) as [f | ] eqn:Ef; [ | contradiction ].
  destruct (preview (ui w)) as [u | ] eqn:Eu;
    [ | destruct Hsync as [Hs _]; specialize (Hs eq_refl); discriminate ].
  exists f, u.
  assert (Hm : mounts {| file := file (ui w); preview := preview (ui w);
                         result := result (ui w); loading := false;
                         error := errorMessageOf err |} = true).
  { unfold mounts, errorBanner, renderContent. simpl.
    rewrite Ht, Hc, Hr. reflexivity. }
  simpl. rewrite Hp. simpl. rewrite Hm.
  unfold renderContent, handleAnalyze, errorBanner. simpl.
  rewrite Ef, Eu, Hr, Ht, Hc. simpl. repeat split.
Qed.

Lemma failure_allows_retry_witness :
  @reachable exampleEngine submitting
  /\ pending 0 submitting = true
  /\ validChild (errorMessageOf networkError) = true
  /\ exists f u,
       file (ui submitting) = Some f /\ preview (ui submitting) = Some u
       /\ file (ui (step submitting (Settle 0 (Rejected networkError))))
          = Some f
       /\ preview (ui (step submitting (Settle 0 (Rejected networkError))))
          = Some u
       /\ @mounts exampleEngine
            (ui (step submitting (Settle 0 (Rejected networkError)))) = true
       /\ errorBanner (ui (step submitting (Settle 0 (Rejected networkError))))
          = Normal (Some (errorMessageOf networkError))
       /\ renderContent (ui (step submitting (Settle 0 (Rejected networkError))))
          = UploadPanel false (Some false)
       /\ @offered exampleEngine
            (step submitting (Settle 0 (Rejected networkError)))
            ClickAnalyze = true
       /\ errorBanner
            (ui (step (step submitting (Settle 0 (Rejected networkError)))
                   ClickAnalyze)) = Normal None
       /\ effects (step (step submitting (Settle 0 (Rejected networkError)))
                     ClickAnalyze)
          = AxiosPost (nextRequest submitting) f
              :: ConsoleError (errorMessageOf networkError)
              :: effects submitting.
Proof.
  split; [ exact reachable_submitting | ]. split; [ reflexivity | ].
  split; [ reflexivity | ].
  exact (@failure_allows_retry exampleEngine submitting 0 networkError
           reachable_submitting eq_refl eq_refl).
Defined.

(** X10.  An empty answer is silent.  When the post of a world reached
    through the page is fulfilled with a falsy body (an empty string,
    [null], [0]), no result panel and no error banner are rendered and
    nothing is logged: the page is back on the selection with the Analyze
    button, as before the click. *)
Theorem falsy_answer_is_silent `{Engine}
  (w : World) (id : nat) (data : JsVal) :
  reachable w ->
  pending id w = true ->
  ToBoolean data = false ->
  renderContent (ui (step w (Settle id (Fulfilled data))))
  = UploadPanel false (Some false)
  /\ errorBanner (ui (step w (Settle id (Fulfilled data)))) = Normal None
  /\ effects (step w (Settle id (Fulfilled data))) = effects w
  /\ file (ui (step w (Settle id (Fulfilled data)))) = file (ui w)
  /\ offered (step w (Settle id (Fulfilled data))) ClickAnalyze = true.
Proof.
  intros Hw Hp Hd.
  destruct (pending_loading w id Hw Hp) as [Hl _].
  destruct (reachable_page_settled w Hw) as [Hbf Hbc _ _ _ Hsync].
  destruct (Hbc Hl) as [_ He]. specialize (Hbf Hl).
  destruct (file (ui w)) as [f | ] eqn:Ef; [ | contradiction ].
  destruct (preview (ui w)) as [u | ] eqn:Eu;
    [ | destruct Hsync as [Hs _]; specialize (Hs eq_refl); discriminate ].
  assert (Hm : mounts {| file := file (ui w); preview := preview (ui w);
                         result := data; loading := false;
                         error := error (ui w) |} = true)
    by (apply mounts_plain; [ exact He | right; exact Hd ]).
  simpl. rewrite Hp. simpl. rewrite Hm.
  unfold renderContent, errorBanner. simpl.
  rewrite Ef, Eu, Hd, He. simpl. repeat split.
Qed.

Lemma falsy_answer_is_silent_witness :
  @reachable exampleEngine submitting
  /\ pending 0 submitting = true
  /\ ToBoolean (JStr "") = false
  /\ renderContent (ui (step submitting (Settle 0 (Fulfilled (JStr "")))))
     = UploadPanel false (Some false)
  /\ errorBanner (ui (step submitting (Settle 0 (Fulfilled (JStr "")))))
     = Normal None.
Proof.
  split; [ exact reachable_submitting | ]. split; [ reflexivity | ].
  split; [ reflexivity | ].
  destruct (@falsy_answer_is_silent exampleEngine submitting 0 (JStr "")
              reachable_submitting eq_refl eq_refl) as (Hp & Hb & _).
  split; [ exact Hp | exact Hb ].
Defined.

(** ** What each panel allows *)

(** X11.  A selection is locked.  In a world reached through the page that
    has a file selected, no drop is offered (the preview has replaced the
    dropzone); every offered event other than the reset keeps the file
    and its preview; and the reset is offered only beside a truthy
    result.  So another file can be chosen only after an analysis that
    succeeded. *)
Theorem selection_is_locked `{Engine} (w : World) (f : File) (e : Event) :
  reachable w ->
  file (ui w) = Some f ->
  offered w e = true ->
  (forall fs, e <> Drop fs)
  /\ (e <> ClickReset ->
      file (ui (step w e)) = Some f
      /\ preview (ui (step w e)) = preview (ui w))
  /\ (e = ClickReset -> ToBoolean (result (ui w)) = true).
Proof.
  intros Hw Hf Ho.
  destruct (reachable_page_settled w Hw) as [_ _ _ _ _ Hsync].
  destruct (preview (ui w)) as [u | ] eqn:Eu;
    [ | destruct Hsync as [Hs _]; rewrite Hs in Hf by reflexivity;
        discriminate ].
  destruct e as [fs | | | id o].
  - destruct (offered_click w _ Ho) as (_ & _ & _ & Hp); [ discriminate | ].
    rewrite Eu in Hp. discriminate.
  - split; [ discriminate | ]. split; [ | discriminate ].
    intros _. simpl. unfold handleAnalyze. rewrite Hf. simpl.
    rewrite Eu. split; reflexivity.
  - split; [ discriminate | ]. split; [ congruence | ].
    intros _. apply (offered_click w ClickReset Ho). discriminate.
  - split; [ discriminate | ]. split; [ | discriminate ].
    intros _. simpl in Ho. simpl. rewrite Ho.
    destruct o; simpl; rewrite Hf, Eu; split; reflexivity.
Qed.

Lemma selection_is_locked_witness :
  @reachable exampleEngine
    (step submitting (Settle 0 (Rejected networkError)))
  /\ file (ui (step submitting (Settle 0 (Rejected networkError)))) = Some photo
  /\ @offered exampleEngine
       (step submitting (Settle 0 (Rejected networkError))) ClickAnalyze
     = true
  /\ (forall fs, ClickAnalyze <> Drop fs).
Proof.
  assert (Hr : @reachable exampleEngine
                 (step submitting (Settle 0 (Rejected networkError))))
    by (apply reachable_step; [ exact reachable_submitting | reflexivity ]).
  split; [ exact Hr | ]. split; [ reflexivity | ]. split; [ reflexivity | ].
  exact (proj1 (@selection_is_locked exampleEngine _ photo ClickAnalyze
                  Hr eq_refl eq_refl)).
Defined.

(** X12.  The result panel stands alone.  In a world reached through the
    page that renders the result panel, the panel holds the stored
    result, no error banner is rendered beside it, no post is in flight,
    the analysed file is still selected, and the only event offered is
    the reset. *)
Theorem result_panel_stands_alone `{Engine} (w : World) (r : JsVal) :
  reachable w ->
  renderContent (ui w) = ResultPanel r ->
  r = result (ui w)
  /\ errorBanner (ui w) = Normal None
  /\ inFlight w = []
  /\ file (ui w) <> None
  /\ (forall e, offered w e = true -> e = ClickReset).
Proof.
  intros Hw Hr. pose proof (reachable_in_flight w Hw) as Hin.
  destruct (reachable_page_settled w Hw) as [_ _ Hrf Hre _ _].
  unfold renderContent in Hr.
  destruct (loading (ui w)) eqn:El; [ discriminate | ].
  destruct (ToBoolean (result (ui w))) eqn:Er; [ | discriminate ].
  injection Hr as <-.
  split; [ reflexivity | ].
  split; [ unfold errorBanner; rewrite (Hre eq_refl); reflexivity | ].
  split; [ exact Hin | ]. split; [ exact (Hrf eq_refl) | ].
  intros [fs | | | id o] Ho.
  - destruct (offered_click w _ Ho) as (_ & _ & Habs & _); [ discriminate | ].
    congruence.
  - destruct (offered_click w _ Ho) as (_ & _ & Habs & _); [ discriminate | ].
    congruence.
  - reflexivity.
  - simpl in Ho. unfold pending in Ho. rewrite Hin in Ho. discriminate.
Qed.

Lemma result_panel_stands_alone_witness :
  @reachable exampleEngine
    (step submitting (Settle 0 (Fulfilled scenarioResult)))
  /\ renderContent (ui (step submitting (Settle 0 (Fulfilled scenarioResult))))
     = ResultPanel scenarioResult
  /\ errorBanner (ui (step submitting (Settle 0 (Fulfilled scenarioResult))))
     = Normal None
  /\ inFlight (step submitting (Settle 0 (Fulfilled scenarioResult))) = [].
Proof.
  assert (Hr : @reachable exampleEngine
                 (step submitting (Settle 0 (Fulfilled scenarioResult))))
    by (apply reachable_step; [ exact reachable_submitting | reflexivity ]).
  split; [ exact Hr | ]. split; [ reflexivity | ].
  destruct (@result_panel_stands_alone exampleEngine _ scenarioResult
              Hr eq_refl)
    as (_ & Hb & Hin & _).
  split; [ exact Hb | exact Hin ].
Defined.

(** X13.  The reset is a fresh start.  A reset offered in a world reached
    through the page leaves the five cells at their initial values with
    no post in flight: the page is mounted with the dropzone alone, drops
    and only drops are offered, and no answer can arrive afterwards. *)
Theorem reset_is_a_fresh_start `{Engine} (w : World) :
  reachable w ->
  offered w ClickReset = true ->
  ui (step w ClickReset) = initialState
  /\ inFlight (step w ClickReset) = []
  /\ renderContent (ui (step w ClickReset)) = UploadPanel true None
  /\ errorBanner (ui (step w ClickReset)) = Normal None
  /\ (forall id o, step (step w ClickReset) (Settle id o) = step w ClickReset)
  /\ (forall e, offered (step w ClickReset) e = true -> exists fs, e = Drop fs)
  /\ (forall fs, offered (step w ClickReset) (Drop fs) = true).
Proof.
  intros Hw Ho. pose proof (reachable_in_flight w Hw) as Hin.
  rewrite (offered_not_loading w ClickReset Ho) in Hin by discriminate.
  simpl. unfold pending. simpl. rewrite Hin. simpl.
  repeat (split; [ reflexivity | ]).
  split.
  - intros [fs | | | id o]; simpl; unfold pending; simpl; rewrite ?Hin;
      simpl; rewrite ?andb_false_r; try discriminate.
    intros _. eauto.
  - intros fs. reflexivity.
Qed.

Lemma reset_is_a_fresh_start_witness :
  @reachable exampleEngine
    (step submitting (Settle 0 (Fulfilled scenarioResult)))
  /\ @offered exampleEngine
       (step submitting (Settle 0 (Fulfilled scenarioResult))) ClickReset
     = true
  /\ ui (step (step submitting (Settle 0 (Fulfilled scenarioResult)))
           ClickReset) = initialState
  /\ inFlight (step (step submitting (Settle 0 (Fulfilled scenarioResult)))
                 ClickReset) = [].
Proof.
  assert (Hr : @reachable exampleEngine
                 (step submitting (Settle 0 (Fulfilled scenarioResult))))
    by (apply reachable_step; [ exact reachable_submitting | reflexivity ]).
  split; [ exact Hr | ]. split; [ reflexivity | ].
  destruct (@reset_is_a_fresh_start exampleEngine _ Hr eq_refl)
    as (Hu & Hin & _).
  split; [ exact Hu | exact Hin ].
Defined.

(** X14.  The Analyze button is never rendered disabled.  Whenever
    [renderContent] renders the button, its [disabled] attribute is
    false and its text is "Analyze Media": the button exists only in the
    branch taken when [loading] is false, so the "Analyzing..." text is
    never shown. *)
Theorem analyze_button_always_enabled (s : State) (d b : bool) :
  renderContent s = UploadPanel d (Some b) ->
  b = false /\ analyzeLabel s = "Analyze Media"%string.
Proof.
  unfold renderContent, analyzeLabel.
  destruct (loading s); [ discriminate | ].
  destruct (ToBoolean (result s)); [ discriminate | ].
  destruct (file s); [ | discriminate ].
  intros [= _ <-]. split; reflexivity.
Qed.

Lemma analyze_button_always_enabled_witness :
  renderContent (ui (run initialWorld [Drop [photo]]))
  = UploadPanel false (Some false)
  /\ analyzeLabel (ui (run initialWorld [Drop [photo]]))
     = "Analyze Media"%string.
Proof.
  split; [ reflexivity | ].
  exact (proj2 (analyze_button_always_enabled
                  (ui (run initialWorld [Drop [photo]])) false false eq_refl)).
Defined.

(** ** Posts *)

Lemma run_posted_incl (es : list Event) (w : World) (D : list File) :
  (forall f, file (ui w) = Some f -> In f D) ->
  incl (postedFiles (effects w)) D ->
  incl (postedFiles (effects (run w es))) (D ++ droppedFiles es).
Proof.
  revert w D. induction es as [ | e es IH]; intros w D Hsel Hinc; simpl.
  - rewrite app_nil_r. exact Hinc.
  - destruct e as [[ | f fs] | | | id [data | err]]; simpl.
    + apply IH; assumption.
    + replace (D ++ f :: droppedFiles es)%list
        with ((D ++ [f]) ++ droppedFiles es)%list
        by (rewrite <- app_assoc; reflexivity).
      apply IH; simpl.
      * intros f' [= <-]. apply in_or_app. right. left. reflexivity.
      * apply incl_appl. exact Hinc.
    + apply IH; unfold handleAnalyze;
        destruct (file (ui w)) as [f | ] eqn:Ef; simpl; rewrite ?Ef;
        try assumption.
      intros f' [<- | Hin]; [ apply Hsel; reflexivity | apply Hinc, Hin ].
    + apply IH; simpl; [ discriminate | exact Hinc ].
    + apply IH; destruct (pending id w); simpl; assumption.
    + apply IH; destruct (pending id w); simpl; assumption.
Qed.

Lemma step_posted_count (w : World) (e : Event) :
  (List.length (postedFiles (effects (step w e)))
   <= List.length (postedFiles (effects w)) + clicks e)%nat.
Proof.
  destruct e as [[ | f fs] | | | id [data | err]]; unfold clicks; simpl;
    try lia.
  - unfold handleAnalyze. destruct (file (ui w)); simpl; lia.
  - destruct (pending id w); simpl; lia.
  - destruct (pending id w); simpl; lia.
Qed.

Lemma offered_step_posted_count `{Engine} (w : World) (e : Event) :
  offered w e = true ->
  List.length (postedFiles (effects (step w e)))
  = (List.length (postedFiles (effects w)) + clicks e)%nat.
Proof.
  destruct e as [[ | f fs] | | | id [data | err]]; unfold clicks;
    intros Ho; try (simpl; lia).
  - destruct (offered_click w _ Ho) as (_ & _ & _ & Hf); [ discriminate | ].
    simpl. unfold handleAnalyze.
    destruct (file (ui w)); [ | contradiction ]. simpl. lia.
  - simpl in *. rewrite Ho. simpl. lia.
  - simpl in *. rewrite Ho. simpl. lia.
Qed.

Lemma analyzeClicks_cons (e : Event) (es : list Event) :
  analyzeClicks (e :: es) = (clicks e + analyzeClicks es)%nat.
Proof.
  unfold analyzeClicks, clicks. simpl.
  destruct (isClickAnalyze e); reflexivity.
Qed.

Lemma run_posted_count (es : list Event) (w : World) :
  (List.length (postedFiles (effects (run w es)))
   <= List.length (postedFiles (effects w)) + analyzeClicks es)%nat.
Proof.
  revert w. induction es as [ | e es IH]; intros w.
  - unfold analyzeClicks. simpl. lia.
  - rewrite analyzeClicks_cons. simpl.
    specialize (IH (step w e)).
    pose proof (step_posted_count w e). lia.
Qed.

Lemma offered_run_posted_count `{Engine} (es : list Event) (w : World) :
  offered_run w es = true ->
  List.length (postedFiles (effects (run w es)))
  = (List.length (postedFiles (effects w)) + analyzeClicks es)%nat.
Proof.
  revert w. induction es as [ | e es IH]; intros w Ho.
  - unfold analyzeClicks. simpl. lia.
  - simpl in Ho. apply andb_prop in Ho. destruct Ho as [He Hes].
    rewrite analyzeClicks_cons. simpl.
    specialize (IH (step w e) Hes).
    pose proof (offered_step_posted_count w e He). lia.
Qed.

(** X15.  What is posted was dropped.  After any sequence of events, every
    file sent by a post is the first file of some drop of that sequence,
    and there are at most as many posts as clicks on Analyze: the code
    posts nothing on its own and repeats no post. *)
Theorem posts_carry_dropped_files (es : list Event) :
  incl (postedFiles (effects (run initialWorld es))) (droppedFiles es)
  /\ (List.length (postedFiles (effects (run initialWorld es)))
      <= analyzeClicks es)%nat.
Proof.
  split.
  - apply (run_posted_incl es initialWorld []).
    + intros f Hf. discriminate.
    + intros f [].
  - exact (run_posted_count es initialWorld).
Qed.

(** X16.  One post per click.  When every event of a sequence is offered by
    the page at its turn, the number of posts equals the number of clicks
    on Analyze: an offered click always sends its post. *)
Theorem one_post_per_click `{Engine} (es : list Event) :
  offered_run initialWorld es = true ->
  List.length (postedFiles (effects (run initialWorld es))) = analyzeClicks es.
Proof.
  intros Ho. exact (offered_run_posted_count es initialWorld Ho).
Qed.

Lemma one_post_per_click_witness :
  @offered_run exampleEngine initialWorld
    [Drop [photo]; ClickAnalyze; Settle 0 (Rejected networkError);
     ClickAnalyze; Settle 1 (Fulfilled scenarioResult)] = true
  /\ List.length
       (postedFiles
          (effects
             (run initialWorld
                [Drop [photo]; ClickAnalyze; Settle 0 (Rejected networkError);
                 ClickAnalyze; Settle 1 (Fulfilled scenarioResult)])))
     = analyzeClicks
         [Drop [photo]; ClickAnalyze; Settle 0 (Rejected networkError);
          ClickAnalyze; Settle 1 (Fulfilled scenarioResult)].
Proof.
  split; [ reflexivity | ].
  apply (@one_post_per_click exampleEngine
           [Drop [photo]; ClickAnalyze; Settle 0 (Rejected networkError);
            ClickAnalyze; Settle 1 (Fulfilled scenarioResult)]).
  reflexivity.
Defined.

(** ** The preview *)

(** X17.  The preview shows the selected file.  After any sequence of
    events, a preview URL on display was created from the file that is
    selected and from no other file, and the element rendered on it is a
    video player exactly when that file's type starts with "video/", an
    image otherwise. *)
Theorem preview_shows_selected_file (es : list Event) (u : nat) :
  preview (ui (run initialWorld es)) = Some u ->
  exists f p,
    file (ui (run initialWorld es)) = Some f
    /\ In (CreateObjectURL f u) (effects (run initialWorld es))
    /\ (forall f', In (CreateObjectURL f' u) (effects (run initialWorld es)) ->
                   f' = f)
    /\ previewPanel (file (ui (run initialWorld es)))
                    (preview (ui (run initialWorld es))) = Some p
    /\ element p = (if String.prefix "video/" (type f)
                    then VideoElement u else ImgElement u).
Proof.
  intros Hu.
  destruct (run_urls_traced es initialWorld initial_urls_traced)
    as [Hown _ Honce].
  destruct (Hown u Hu) as (f & Hf & Hin).
  exists f.
  exists (if String.prefix "video/" (type f)
          then {| element := VideoElement u;
                  caption := "Video selected. We analyze 1 frame per second." |}
          else {| element := ImgElement u;
                  caption := "Image selected. Click Analyze to continue." |}).
  split; [ exact Hf | ]. split; [ exact Hin | ].
  split; [ intros f' Hin'; exact (Honce f' f u Hin' Hin) | ].
  rewrite Hf, Hu. simpl.
  split; [ reflexivity | ].
  destruct (String.prefix "video/" (type f)); reflexivity.
Qed.

Lemma preview_shows_selected_file_witness :
  preview (ui reselected) = Some 1%nat
  /\ exists f p,
       file (ui reselected) = Some f
       /\ In (CreateObjectURL f 1) (effects reselected)
       /\ (forall f', In (CreateObjectURL f' 1) (effects reselected) -> f' = f)
       /\ previewPanel (file (ui reselected)) (preview (ui reselected)) = Some p
       /\ element p = (if String.prefix "video/" (type f)
                       then VideoElement 1 else ImgElement 1).
Proof.
  split; [ reflexivity | ].
  exact (preview_shows_selected_file
           [Drop [photo]; ClickAnalyze; Settle 0 (Fulfilled scenarioResult);
            ClickReset; Drop [secondPhoto]] 1%nat eq_refl).
Defined.

End PageFacts.
